(** * PII detection and redaction-area validation of the PDF service

    A shallow embedding of [pdf-service/pii_detector.py] (class [PIIDetector])
    and of [validate_redaction_area] and the redaction loop of [redact_pdf]
    in [pdf-service/app.py], with the properties the specification states
    about them.

    Conventions of the embedding.
    - A Python [str] is a [string]; a character is its code point, so the
      model covers the code points U+0000..U+00FF.  The character predicates
      ([isdigit], [isspace], [isupper], [lower]) are Python's on that range.
    - A Python [float] is a binary64 [float] of the kernel, with the kernel's
      IEEE 754 operations; a Python [int] is a [Z].
    - An exception is a value of [Py.exn]; code that can raise returns a
      [Py.result]; [try]/[except] is a match on it.
    - The regular-expression engine ([re.finditer]) and the random source
      ([uuid4]) are arguments of the functions that use them. *)

From Stdlib Require Import ZArith NArith List String Ascii Bool Lia.
From Stdlib Require Import Floats DecimalString.
From Stdlib Require Import Sorted DecimalPos DecimalZ.
Import ListNotations.

Set Warnings "-inexact-float,-register-all".

Local Open Scope string_scope.
Local Open Scope list_scope.

(* ================================================================== *)
(** ** The fragment of the Python runtime the service uses *)
(* ================================================================== *)

Module Py.

Inductive exn : Set :=
| ValueError | TypeError | OverflowError | KeyError | IndexError
| MemoryError.

Inductive result (A : Type) : Type :=
| Ok (a : A)
| Raise (e : exn).
Arguments Ok {A} a.
Arguments Raise {A} e.

Definition bind {A B} (m : result A) (k : A -> result B) : result B :=
  match m with
  | Ok a => k a
  | Raise e => Raise e
  end.

(** [mapM f l]: the list comprehension [[f(x) for x in l]], which stops at
    the first exception. *)
Fixpoint mapM {A B} (f : A -> result B) (l : list A) : result (list B) :=
  match l with
  | [] => Ok []
  | x :: l' =>
      bind (f x) (fun y => bind (mapM f l') (fun ys => Ok (y :: ys)))
  end.

(** *** Characters *)

Definition ord (c : ascii) : N := N_of_ascii c.

Definition between (lo hi : N) (c : ascii) : bool :=
  ((lo <=? ord c) && (ord c <=? hi))%N.

Definition is_cp (n : N) (c : ascii) : bool := (ord c =? n)%N.

(** [c.isdecimal()]: the decimal digits (category Nd). *)
Definition isdecimal (c : ascii) : bool := between 48 57 c.

(** [c.isdigit()]: the decimal digits and the superscripts U+00B2, U+00B3
    and U+00B9, which are digits without being decimal. *)
Definition isdigit (c : ascii) : bool :=
  isdecimal c || is_cp 178 c || is_cp 179 c || is_cp 185 c.

(** [c.isspace()]. *)
Definition isspace (c : ascii) : bool :=
  between 9 13 c || between 28 32 c || is_cp 133 c || is_cp 160 c.

(** [c.isupper()] of a one-character string. *)
Definition isupper (c : ascii) : bool :=
  between 65 90 c || between 192 214 c || between 216 222 c.

(** [c.lower()]. *)
Definition lower_char (c : ascii) : ascii :=
  if isupper c then ascii_of_N (ord c + 32) else c.

(** [int(c)] of a one-character string: only a decimal digit has a value. *)
Definition int_of_char (c : ascii) : result Z :=
  if isdecimal c then Ok (Z.of_N (ord c) - 48)%Z else Raise ValueError.

(** *** Strings *)

Definition chars (s : string) : list ascii := list_ascii_of_string s.

Fixpoint str_map (f : ascii -> ascii) (s : string) : string :=
  match s with
  | EmptyString => EmptyString
  | String c s' => String (f c) (str_map f s')
  end.

Fixpoint str_filter (p : ascii -> bool) (s : string) : string :=
  match s with
  | EmptyString => EmptyString
  | String c s' => if p c then String c (str_filter p s') else str_filter p s'
  end.

(** [s.lower()]. *)
Definition lower (s : string) : string := str_map lower_char s.

(** [s[n:]]. *)
Fixpoint drop (n : nat) (s : string) : string :=
  match n, s with
  | O, _ => s
  | S _, EmptyString => EmptyString
  | S k, String _ s' => drop k s'
  end.

(** [s[i:j]] for [0 <= i <= j]. *)
Definition slice (i j : nat) (s : string) : string := substring i (j - i) s.

(** [sub in s]. *)
Fixpoint contains (sub s : string) : bool :=
  prefix sub s ||
  match s with
  | EmptyString => false
  | String _ s' => contains sub s'
  end.

(** [s.split(sep)] for a non-empty [sep]: the pieces between the
    occurrences of [sep], found from the left without overlap.  [skip]
    counts the characters of a found separator still to pass; [cur] is
    the piece being read, reversed. *)
Fixpoint split_from (sep s : string) (skip : nat) (cur : list ascii)
  : list string :=
  match s with
  | EmptyString => [string_of_list_ascii (rev cur)]
  | String c s' =>
      match skip with
      | S k => split_from sep s' k cur
      | O =>
          if prefix sep s
          then string_of_list_ascii (rev cur)
                 :: split_from sep s' (String.length sep - 1) []
          else split_from sep s' 0 (c :: cur)
      end
  end.

Definition split (sep s : string) : list string := split_from sep s 0 [].

(** Stripping the characters of a set from the left and from the right. *)
Fixpoint lstrip_by (p : ascii -> bool) (s : string) : string :=
  match s with
  | EmptyString => EmptyString
  | String c s' => if p c then lstrip_by p s' else s
  end.

Fixpoint rstrip_by (p : ascii -> bool) (s : string) : string :=
  match s with
  | EmptyString => EmptyString
  | String c s' =>
      match rstrip_by p s' with
      | EmptyString => if p c then EmptyString else String c EmptyString
      | r => String c r
      end
  end.

(** [s.strip()]. *)
Definition strip (s : string) : string := rstrip_by isspace (lstrip_by isspace s).

(** [s.split()]: the maximal runs of non-whitespace characters.  [cur] is
    the run being read, reversed. *)
Fixpoint words_from (s : string) (cur : list ascii) : list string :=
  let flush (rest : list string) :=
    match cur with
    | [] => rest
    | _ => string_of_list_ascii (rev cur) :: rest
    end in
  match s with
  | EmptyString => flush []
  | String c s' =>
      if isspace c then flush (words_from s' []) else words_from s' (c :: cur)
  end.

Definition words (s : string) : list string := words_from s [].

(** [sep.join(l)]. *)
Definition join (sep : string) (l : list string) : string := concat sep l.

(** [str(n)] of an [int]. *)
Definition str_of_int (n : Z) : string := NilZero.string_of_int (Z.to_int n).

End Py.

Import Py.

Notation "x <- m ;; k" := (Py.bind m (fun x => k))
  (at level 61, m at next level, right associativity).

(* ================================================================== *)
(** ** [PIIDetector.luhn_check] *)
(* ================================================================== *)

(** [[int(d) for d in card_number if d.isdigit()]]. *)
Definition luhn_digits (card_number : string) : result (list Z) :=
  mapM int_of_char (filter isdigit (chars card_number)).

(** The loop [for i, digit in enumerate(reversed(digits))], from index [i]
    with the running [checksum]. *)
Fixpoint luhn_loop (rev_digits : list Z) (i : nat) (checksum : Z) : Z :=
  match rev_digits with
  | [] => checksum
  | digit :: rest =>
      let digit :=
        if (Nat.modulo i 2 =? 1)%nat
        then let digit := (digit * 2)%Z in
             if (digit >? 9)%Z then (digit - 9)%Z else digit
        else digit in
      luhn_loop rest (S i) (checksum + digit)%Z
  end.

(** The body of the [try] block. *)
Definition luhn_check_body (card_number : string) : result bool :=
  digits <- luhn_digits card_number ;;
  if ((List.length digits <? 13) || (19 <? List.length digits))%nat
  then Ok false
  else
    let checksum := luhn_loop (rev digits) 0 0%Z in
    Ok ((checksum mod 10 =? 0)%Z).

(** [try: ... except: return False]. *)
Definition luhn_check (card_number : string) : bool :=
  match luhn_check_body card_number with
  | Ok b => b
  | Raise _ => false
  end.

(* ================================================================== *)
(** ** [PIIDetector.luhn_check] on every string *)
(* ================================================================== *)

(** A [str] is a sequence of code points.  The strings above hold the code
    points up to U+00FF; [luhn_check] reads its argument through
    [str.isdigit] and [int] only, and here it is on the strings of all
    code points, with the digits of Unicode 14.0 (Python 3.11). *)
Module Unicode.

(** The digit zero of each script: the first of ten consecutive decimal
    digits (general category Nd) with the values 0 to 9. *)
Definition decimal_zeros : list N :=
  [ 48; 1632; 1776; 1984; 2406; 2534; 2662; 2790; 2918; 3046; 3174; 3302;
    3430; 3558; 3664; 3792; 3872; 4160; 4240; 6112; 6160; 6470; 6608; 6784;
    6800; 6992; 7088; 7232; 7248; 42528; 43216; 43264; 43472; 43504; 43600;
    44016; 65296; 66720; 68912; 69734; 69872; 69942; 70096; 70384; 70736;
    70864; 71248; 71360; 71472; 71904; 72016; 72784; 73040; 73120; 92768;
    92864; 93008; 120782; 120792; 120802; 120812; 120822; 123200; 123632;
    125264; 130032 ]%N.

Fixpoint decimal_from (zeros : list N) (c : N) : option Z :=
  match zeros with
  | [] => None
  | zero :: rest =>
      if ((zero <=? c) && (c <? zero + 10))%N then Some (Z.of_N (c - zero))
      else decimal_from rest c
  end.

(** [unicodedata.decimal(c, None)]: the value of a decimal digit. *)
Definition decimal (c : N) : option Z := decimal_from decimal_zeros c.

(** [c.isdecimal()]. *)
Definition isdecimal (c : N) : bool :=
  match decimal c with Some _ => true | None => false end.

(** The digits that are not decimal digits (numeric type Digit):
    superscripts, subscripts, circled and parenthesized digits and the
    like, as ranges of code points. *)
Definition other_digits : list (N * N) :=
  [ (178, 179); (185, 185); (4969, 4977); (6618, 6618); (8304, 8304);
    (8308, 8313); (8320, 8329); (9312, 9320); (9332, 9340); (9352, 9360);
    (9450, 9450); (9461, 9469); (9471, 9471); (10102, 10110);
    (10112, 10120); (10122, 10130); (68160, 68163); (69216, 69224);
    (69714, 69722); (127232, 127242) ]%N.

(** [c.isdigit()]. *)
Definition isdigit (c : N) : bool :=
  isdecimal c
  || existsb (fun r => ((fst r <=? c) && (c <=? snd r))%N) other_digits.

(** [int(c)] of a string of one character that [isdigit] accepts. *)
Definition int_of_char (c : N) : result Z :=
  match decimal c with
  | Some value => Ok value
  | None => Raise ValueError
  end.

(** [[int(d) for d in card_number if d.isdigit()]]. *)
Definition luhn_digits (card_number : list N) : result (list Z) :=
  mapM int_of_char (filter isdigit card_number).

(** The body of the [try] block. *)
Definition luhn_check_body (card_number : list N) : result bool :=
  digits <- luhn_digits card_number ;;
  if ((List.length digits <? 13) || (19 <? List.length digits))%nat
  then Ok false
  else
    let checksum := luhn_loop (rev digits) 0 0%Z in
    Ok ((checksum mod 10 =? 0)%Z).

(** [try: ... except: return False]. *)
Definition luhn_check (card_number : list N) : bool :=
  match luhn_check_body card_number with
  | Ok b => b
  | Raise _ => false
  end.

End Unicode.

(** The code points of a string of code points up to U+00FF. *)
Definition code_points (s : string) : list N := map ord (chars s).

(* ================================================================== *)
(** ** [PIIDetector.calculate_confidence] *)
(* ================================================================== *)

Definition free_mail_domains : list string :=
  ["gmail.com"; "yahoo.com"; "outlook.com"; "hotmail.com"].

(** [re.sub(r'[-\s]', '', text)]. *)
Definition strip_separators (text : string) : string :=
  str_filter (fun c => negb (is_cp 45 c || isspace c)) text.

Definition calculate_confidence (category text : string) : float :=
  if category =? "SSN" then 0.95%float
  else if category =? "EMAIL" then
    if existsb (fun domain => contains domain (lower text)) free_mail_domains
    then 0.95%float
    else 0.90%float
  else if category =? "CREDIT_CARD" then
    let card_num := strip_separators text in
    if luhn_check card_num then 0.95%float else 0.70%float
  else if category =? "PHONE" then 0.88%float
  else if category =? "DATE_OF_BIRTH" then 0.85%float
  else if category =? "ADDRESS" then 0.80%float
  else if category =? "ZIP_CODE" then 0.82%float
  else if category =? "NAME" then 0.75%float
  else 0.80%float.

(* ================================================================== *)
(** ** [PIIDetector.detect_in_text] *)
(* ================================================================== *)

(** The class constants.  The patterns are kept as the source writes them;
    they are only ever handed to the regular-expression engine. *)
Definition PATTERNS : list (string * string) :=
  [ ("SSN", "\b\d{3}-\d{2}-\d{4}\b");
    ("EMAIL", "\b[A-Za-z0-9._%+-]+@[A-Za-z0-9.-]+\.[A-Z|a-z]{2,}\b");
    ("PHONE", "\b(?:\+?1[-.]?)?\(?([0-9]{3})\)?[-.]?([0-9]{3})[-.]?([0-9]{4})\b");
    ("CREDIT_CARD", "\b(?:\d{4}[-\s]?){3}\d{4}\b");
    ("DATE_OF_BIRTH", "\b(?:0[1-9]|1[0-2])[/-](?:0[1-9]|[12][0-9]|3[01])[/-](?:19|20)\d{2}\b");
    ("ZIP_CODE", "\b\d{5}(?:-\d{4})?\b");
    ("ADDRESS", "\b\d+\s+[A-Za-z\s]+(?:Street|St|Avenue|Ave|Road|Rd|Boulevard|Blvd|Lane|Ln|Drive|Dr|Court|Ct|Circle|Cir)\b") ].

Definition NAME_INDICATORS : list string :=
  ["Mr."; "Mrs."; "Ms."; "Dr."; "Prof."; "Miss"].

(** [d.get(key)] on a dictionary written as its items: [None] when the key
    is absent. *)
Fixpoint dict_get {V : Type} (d : list (string * V)) (key : string) : option V :=
  match d with
  | [] => None
  | (k, v) :: d' => if k =? key then Some v else dict_get d' key
  end.

(** A bounding box [[x1, y1, x2, y2]]. *)
Record BBox : Set := mkBBox { bx1 : float; by1 : float; bx2 : float; by2 : float }.

(** A finding, with the keys of the dictionary the source builds. *)
Record Finding : Set := mkFinding {
  f_id : string;
  f_category : string;
  f_name : string;
  f_text : string;
  f_confidence : float;
  f_page : Z;
  f_bbox : BBox
}.

(** [float(n)] of an [int], rounded to the nearest binary64. *)
Definition float_of_int (n : Z) : float :=
  SF2Prim (binary_normalize prec emax n 0 false).

(** [a / b] of two [int]s (true division).  Python rounds the exact
    quotient once; so does this for operands below 2^53, which a text
    length always is. *)
Definition int_truediv (a b : nat) : float :=
  (float_of_int (Z.of_nat a) / float_of_int (Z.of_nat b))%float.

(** [category.replace("_", " ").title()], on the letters A-Z and a-z (the
    keys of [PATTERNS], the only strings it is applied to, have no other). *)
Definition is_ascii_lower (c : ascii) : bool := between 97 122 c.
Definition is_ascii_upper (c : ascii) : bool := between 65 90 c.

Fixpoint title_from (s : string) (prev_cased : bool) : string :=
  match s with
  | EmptyString => EmptyString
  | String c s' =>
      let c' :=
        if prev_cased
        then (if is_ascii_upper c then ascii_of_N (ord c + 32) else c)
        else (if is_ascii_lower c then ascii_of_N (ord c - 32) else c) in
      String c' (title_from s' (is_ascii_lower c || is_ascii_upper c))
  end.

Definition display_name (category : string) : string :=
  title_from (str_map (fun c => if is_cp 95 c then " "%char else c) category) false.

(** Lines 121-132: the box of a match inside the box of its span. *)
Definition match_bbox (text : string) (bbox : BBox)
    (match_start match_end : nat) : BBox :=
  let text_length := String.length text in
  if (0 <? text_length)%nat then
    let start_ratio := int_truediv match_start text_length in
    let end_ratio := int_truediv match_end text_length in
    let '(x1, y1, x2, y2) := (bx1 bbox, by1 bbox, bx2 bbox, by2 bbox) in
    let width := (x2 - x1)%float in
    let match_x1 := (x1 + width * start_ratio)%float in
    let match_x2 := (x1 + width * end_ratio)%float in
    mkBBox match_x1 y1 match_x2 y2
  else bbox.

(** The findings collected so far, and how many identifiers were drawn. *)
Definition detect_state : Set := (list Finding * nat)%type.

(** [all(word[0].isupper() for word in words_after if word)]: an empty word
    is skipped by the [if word] filter. *)
Definition all_capitalized (words_after : list string) : bool :=
  forallb (fun word =>
             match word with
             | EmptyString => true
             | String c _ => isupper c
             end) words_after.

Section Detector.

(** [finditer pattern text]: the matches of
    [re.finditer(pattern, text, re.IGNORECASE)], in order, each as
    [(match.start(), match.end())]; [match.group()] is [text[start:end]]. *)
Variable finditer : string -> string -> list (nat * nat).

(** [uuid_hex8 k]: [uuid4().hex[:8]] of the [k]-th call of [uuid4]. *)
Variable uuid_hex8 : nat -> string.

Variable text : string.
Variable bbox : BBox.
Variable page_num : Z.
Variable confidence_threshold : float.

(** The body of [for match in matches]. *)
Definition match_step (category : string) (st : detect_state)
    (m : nat * nat) : detect_state :=
  let '(findings, drawn) := st in
  let '(match_start, match_end) := m in
  let group := slice match_start match_end text in
  let confidence := calculate_confidence category group in
  if (confidence_threshold <=? confidence)%float then
    let finding_id :=
      (category ++ "_" ++ str_of_int page_num ++ "_" ++ uuid_hex8 drawn)%string in
    (findings ++ [ {| f_id := finding_id;
                      f_category := category;
                      f_name := display_name category;
                      f_text := group;
                      f_confidence := confidence;
                      f_page := page_num;
                      f_bbox := match_bbox text bbox match_start match_end |} ],
     S drawn)
  else st.

(** The body of [for category in categories]. *)
Definition category_step (st : detect_state) (category : string)
  : detect_state :=
  match dict_get PATTERNS category with
  | None => st
  | Some pattern => fold_left (match_step category) (finditer pattern text) st
  end.

(** The body of [for indicator in PIIDetector.NAME_INDICATORS]. *)
Definition name_step (st : detect_state) (indicator : string)
  : detect_state :=
  let '(findings, drawn) := st in
  if contains indicator text then
    let parts := split indicator text in
    if (1 <? List.length parts)%nat then
      let words_after := firstn 3 (words (strip (nth 1 parts ""))) in
      if (2 <=? List.length words_after)%nat then
        if all_capitalized words_after then
          let name_text := join " " words_after in
          let confidence := calculate_confidence "NAME" name_text in
          if (confidence_threshold <=? confidence)%float then
            let finding_id :=
              ("NAME_" ++ str_of_int page_num ++ "_" ++ uuid_hex8 drawn)%string in
            (findings ++ [ {| f_id := finding_id;
                              f_category := "NAME";
                              f_name := "Name";
                              f_text := (indicator ++ " " ++ name_text)%string;
                              f_confidence := confidence;
                              f_page := page_num;
                              f_bbox := bbox |} ],
             S drawn)
          else st
        else st
      else st
    else st
  else st.

(** [detect_in_text], started when [drawn] identifiers were drawn before. *)
Definition detect_in_text_from (categories : list string) (drawn : nat)
  : detect_state :=
  let st := fold_left category_step categories ([], drawn) in
  if existsb (String.eqb "NAME") categories
  then fold_left name_step NAME_INDICATORS st
  else st.

Definition detect_in_text (categories : list string) (drawn : nat)
  : list Finding :=
  fst (detect_in_text_from categories drawn).

End Detector.

(* ================================================================== *)
(** ** A regular-expression engine for the patterns of [PATTERNS] *)
(* ================================================================== *)

(** The theorems below hold for every [finditer].  To run the detector on
    concrete texts, this module gives one: a backtracking matcher (leftmost
    match, alternatives in order, greedy repetition) for the syntax the
    patterns of [PATTERNS] are written in, with [re.IGNORECASE]. *)
Module Re.

Inductive regex : Type :=
| Eps
| Chr (p : ascii -> bool)
| Seq (r1 r2 : regex)
| Alt (r1 r2 : regex)
| Rep (lo : nat) (hi : option nat) (r : regex)
| WordBoundary.

(** [\w]: [c.isalnum()] or the underscore. *)
Definition is_word (c : ascii) : bool :=
  between 48 57 c || between 65 90 c || is_cp 95 c || between 97 122 c
  || is_cp 170 c || is_cp 178 c || is_cp 179 c || is_cp 181 c
  || is_cp 185 c || is_cp 186 c || between 188 190 c
  || between 192 214 c || between 216 246 c || between 248 255 c.

Definition is_word_opt (c : option ascii) : bool :=
  match c with Some c => is_word c | None => false end.

Definition upper_char (c : ascii) : ascii :=
  if between 97 122 c || between 224 246 c || between 248 254 c
  then ascii_of_N (ord c - 32) else c.

(** A set of characters under [re.IGNORECASE]. *)
Definition ignore_case (p : ascii -> bool) (c : ascii) : bool :=
  p c || p (lower_char c) || p (upper_char c).

Definition cont : Type := option ascii -> list ascii -> nat -> option nat.

(** [run r prev rest pos k]: match [r] at offset [pos], where [prev] is
    the character before and [rest] the text from [pos] on, then continue
    with [k]; the result is the end of the whole match. *)
Fixpoint run (r : regex) (prev : option ascii) (rest : list ascii)
    (pos : nat) (k : cont) {struct r} : option nat :=
  match r with
  | Eps => k prev rest pos
  | Chr p =>
      match rest with
      | c :: rest' => if p c then k (Some c) rest' (S pos) else None
      | [] => None
      end
  | Seq r1 r2 =>
      run r1 prev rest pos (fun prev' rest' pos' => run r2 prev' rest' pos' k)
  | Alt r1 r2 =>
      match run r1 prev rest pos k with
      | Some e => Some e
      | None => run r2 prev rest pos k
      end
  | WordBoundary =>
      if xorb (is_word_opt prev) (is_word_opt (hd_error rest))
      then k prev rest pos else None
  | Rep lo hi r' =>
      (fix rep (fuel lo : nat) (hi : option nat) (prev : option ascii)
           (rest : list ascii) (pos : nat) {struct fuel} : option nat :=
         match fuel with
         | O => None
         | S fuel' =>
             let more :=
               match hi with
               | Some O => None
               | _ =>
                   run r' prev rest pos
                     (fun prev' rest' pos' =>
                        if (pos' =? pos)%nat then None
                        else rep fuel' (Nat.pred lo) (option_map Nat.pred hi)
                                 prev' rest' pos')
               end in
             match more with
             | Some e => Some e
             | None => if (lo =? 0)%nat then k prev rest pos else None
             end
         end) (S (List.length rest)) lo hi prev rest pos
  end.

(** The matches from offset [pos] on, without overlap; [skip] counts the
    characters of the last match still to pass. *)
Fixpoint scan (r : regex) (prev : option ascii) (rest : list ascii)
    (pos skip : nat) : list (nat * nat) :=
  let here :=
    match skip with
    | O => run r prev rest pos (fun _ _ e => Some e)
    | S _ => None
    end in
  match rest with
  | [] => match here with Some e => [(pos, e)] | None => [] end
  | c :: rest' =>
      match here with
      | Some e => (pos, e) :: scan r (Some c) rest' (S pos) (e - pos - 1)
      | None => scan r (Some c) rest' (S pos) (Nat.pred skip)
      end
  end.

(** *** Reading a pattern *)

Definition is_char (a b : ascii) : bool := (ord a =? ord b)%N.

Definition literal (c : ascii) : regex := Chr (ignore_case (is_char c)).

(** A backslash escape, as a set of characters. *)
Definition escape_set (c : ascii) : ascii -> bool :=
  if is_char c "d" then isdecimal
  else if is_char c "s" then isspace
  else if is_char c "w" then is_word
  else is_char c.

Fixpoint read_nat (s : list ascii) (acc : nat) : nat * list ascii :=
  match s with
  | c :: s' =>
      if isdecimal c then read_nat s' (10 * acc + N.to_nat (ord c - 48))
      else (acc, s)
  | [] => (acc, s)
  end.

(** The items of a class [[...]], up to the closing bracket. *)
Fixpoint read_class (s : list ascii) (acc : ascii -> bool)
  : option ((ascii -> bool) * list ascii) :=
  match s with
  | [] => None
  | c :: s1 =>
      if is_char c "]" then Some (acc, s1)
      else if is_char c "\" then
        match s1 with
        | e :: s2 => read_class s2 (fun x => acc x || escape_set e x)
        | [] => None
        end
      else
        match s1 with
        | d :: hi :: s3 =>
            if is_char d "-" && negb (is_char hi "]")
            then read_class s3
                   (fun x => acc x || ((ord c <=? ord x) && (ord x <=? ord hi))%N)
            else read_class s1 (fun x => acc x || is_char c x)
        | _ => read_class s1 (fun x => acc x || is_char c x)
        end
  end.

(** A quantifier after the atom [a], if there is one. *)
Definition read_quantifier (a : regex) (s : list ascii) : regex * list ascii :=
  match s with
  | c :: s1 =>
      if is_char c "+" then (Rep 1 None a, s1)
      else if is_char c "*" then (Rep 0 None a, s1)
      else if is_char c "?" then (Rep 0 (Some 1) a, s1)
      else if is_char c "{" then
        let '(lo, s2) := read_nat s1 0 in
        match s2 with
        | d :: s3 =>
            if is_char d "}" then (Rep lo (Some lo) a, s3)
            else if is_char d "," then
              match s3 with
              | e :: s4 =>
                  if is_char e "}" then (Rep lo None a, s4)
                  else
                    let '(hi, s5) := read_nat s3 0 in
                    match s5 with
                    | _ :: s6 => (Rep lo (Some hi) a, s6)
                    | [] => (a, s)
                    end
              | [] => (a, s)
              end
            else (a, s)
        | [] => (a, s)
        end
      else (a, s)
  | [] => (a, s)
  end.

Fixpoint read_alt (fuel : nat) (s : list ascii) : option (regex * list ascii) :=
  match fuel with
  | O => None
  | S fuel' =>
      match read_seq fuel' s with
      | Some (r1, c :: s1) =>
          if is_char c "|" then
            match read_alt fuel' s1 with
            | Some (r2, s2) => Some (Alt r1 r2, s2)
            | None => None
            end
          else Some (r1, c :: s1)
      | other => other
      end
  end
with read_seq (fuel : nat) (s : list ascii) : option (regex * list ascii) :=
  match fuel with
  | O => None
  | S fuel' =>
      match s with
      | [] => Some (Eps, s)
      | c :: s1 =>
          if is_char c "|" || is_char c ")" then Some (Eps, s)
          else
            match read_atom fuel' s with
            | Some (a, s2) =>
                let '(a', s3) := read_quantifier a s2 in
                match read_seq fuel' s3 with
                | Some (r, s4) => Some (Seq a' r, s4)
                | None => None
                end
            | None => None
            end
      end
  end
with read_atom (fuel : nat) (s : list ascii) : option (regex * list ascii) :=
  match fuel with
  | O => None
  | S fuel' =>
      match s with
      | [] => None
      | c :: s1 =>
          if is_char c "(" then
            let body :=
              match s1 with
              | q :: k :: s2 =>
                  if is_char q "?" && is_char k ":" then s2 else s1
              | _ => s1
              end in
            match read_alt fuel' body with
            | Some (r, d :: s3) => if is_char d ")" then Some (r, s3) else None
            | _ => None
            end
          else if is_char c "[" then
            match read_class s1 (fun _ => false) with
            | Some (p, s2) => Some (Chr (ignore_case p), s2)
            | None => None
            end
          else if is_char c "\" then
            match s1 with
            | e :: s2 =>
                if is_char e "b" then Some (WordBoundary, s2)
                else Some (Chr (ignore_case (escape_set e)), s2)
            | [] => None
            end
          else Some (literal c, s1)
      end
  end.

Definition compile (pattern : string) : option regex :=
  match read_alt (3 * String.length pattern + 3) (chars pattern) with
  | Some (r, []) => Some r
  | _ => None
  end.

Definition finditer (pattern text : string) : list (nat * nat) :=
  match compile pattern with
  | Some r => scan r None (chars text) 0 0
  | None => []
  end.

End Re.

(* ================================================================== *)
(** ** Request values and [float()] *)
(* ================================================================== *)

(** A value of a decoded JSON body: what the entries of a redaction area,
    typed [Dict] by the request model, can hold. *)
Inductive pyval : Type :=
| PyNone
| PyBool (b : bool)
| PyInt (n : Z)
| PyFloat (f : float)
| PyStr (s : string)
| PyList (l : list pyval)
| PyDict (d : list (string * pyval)).

(** [d.get(key, default)]. *)
Definition get_default (d : list (string * pyval)) (key : string)
    (default : pyval) : pyval :=
  match dict_get d key with
  | Some v => v
  | None => default
  end.

(** [d[key]]. *)
Definition getitem (d : list (string * pyval)) (key : string) : result pyval :=
  match dict_get d key with
  | Some v => Ok v
  | None => Raise KeyError
  end.

(** [float(n)] of an [int]: the nearest binary64, [OverflowError] when that
    is beyond the largest one. *)
Definition py_float_of_int (n : Z) : result float :=
  match binary_normalize prec emax n 0 false with
  | S754_infinity _ => Raise OverflowError
  | sf => Ok (SF2Prim sf)
  end.

(** *** [float(s)] of a [str] *)

(** The whitespace [float] strips: the ASCII whitespace, and the other
    whitespace characters, which it first turns into spaces. *)
Definition float_space (c : ascii) : bool :=
  between 9 13 c || is_cp 32 c || is_cp 133 c || is_cp 160 c.

Definition is_underscore (c : ascii) : bool := is_cp 95 c.

(** Underscores are allowed between two digits only; they are dropped. *)
Fixpoint drop_underscores (prev : option ascii) (s : list ascii)
  : option (list ascii) :=
  let prev_is (p : ascii -> bool) :=
    match prev with Some c => p c | None => false end in
  match s with
  | [] => if prev_is is_underscore then None else Some []
  | c :: s' =>
      if is_underscore c then
        if prev_is isdecimal then drop_underscores (Some c) s' else None
      else if prev_is is_underscore && negb (isdecimal c) then None
      else option_map (cons c) (drop_underscores (Some c) s')
  end.

(** The longest prefix of decimal digits, and what follows it. *)
Fixpoint span_digits (s : list ascii) : list ascii * list ascii :=
  match s with
  | c :: s' =>
      if isdecimal c
      then let '(ds, rest) := span_digits s' in (c :: ds, rest)
      else ([], s)
  | [] => ([], [])
  end.

Definition digits_value (ds : list ascii) : Z :=
  fold_left (fun acc c => (10 * acc + (Z.of_N (ord c) - 48))%Z) ds 0%Z.

(** An optional sign: whether it is a minus, and what follows it. *)
Definition read_sign (s : list ascii) : bool * list ascii :=
  match s with
  | c :: s' =>
      if is_cp 45 c then (true, s')
      else if is_cp 43 c then (false, s')
      else (false, s)
  | [] => (false, s)
  end.

(** [p / q] for positive [p] and [q], rounded to the nearest binary64 (ties
    to even): the quotient is taken with more bits than the format keeps,
    and a last bit that says whether anything was left. *)
Definition round_quotient (sign : bool) (p q : Z) : spec_float :=
  let sh := Z.max 0 (Z.log2 q - Z.log2 p + 60) in
  let num := Z.shiftl p sh in
  let quo := (num / q)%Z in
  let sticky := if (num mod q =? 0)%Z then 0%Z else 1%Z in
  binary_round prec emax sign (Z.to_pos (2 * quo + sticky)) (- sh - 1).

(** The digits [m] scaled by [10^e], rounded to the nearest binary64. *)
Definition round_decimal (sign : bool) (m e : Z) : spec_float :=
  if (m =? 0)%Z then S754_zero sign
  else if (0 <=? e)%Z then binary_round prec emax sign (Z.to_pos (m * 10 ^ e)) 0
  else round_quotient sign m (10 ^ (- e)).

(** The exponent part, if [s] starts one: its value, and nothing after. *)
Definition read_exponent (s : list ascii) : option Z :=
  match s with
  | [] => Some 0%Z
  | c :: s1 =>
      if is_cp 101 c || is_cp 69 c then
        let '(neg, s2) := read_sign s1 in
        match span_digits s2 with
        | ((_ :: _) as ds, []) =>
            Some (if neg then (- digits_value ds)%Z else digits_value ds)
        | _ => None
        end
      else None
  end.

Definition float_of_chars (s : list ascii) : option spec_float :=
  match drop_underscores None s with
  | None => None
  | Some s0 =>
      let '(neg, s1) := read_sign s0 in
      let word := string_of_list_ascii (map lower_char s1) in
      if (word =? "inf") || (word =? "infinity") then Some (S754_infinity neg)
      else if word =? "nan" then Some S754_nan
      else
        let '(int_part, s2) := span_digits s1 in
        let '(frac_part, s3) :=
          match s2 with
          | c :: s2' => if is_cp 46 c then span_digits s2' else ([], s2)
          | [] => ([], s2)
          end in
        match int_part ++ frac_part with
        | [] => None
        | mantissa =>
            match read_exponent s3 with
            | Some e =>
                Some (round_decimal neg (digits_value mantissa)
                        (e - Z.of_nat (List.length frac_part)))
            | None => None
            end
        end
  end.

(** [float(s)]: [ValueError] when [s] is not a number. *)
Definition py_float_of_str (s : string) : result float :=
  match float_of_chars
          (chars (rstrip_by float_space (lstrip_by float_space s))) with
  | Some sf => Ok (SF2Prim sf)
  | None => Raise ValueError
  end.

(** [float(v)]. *)
Definition py_float (v : pyval) : result float :=
  match v with
  | PyFloat f => Ok f
  | PyInt n => py_float_of_int n
  | PyBool b => Ok (if b then 1%float else 0%float)
  | PyStr s => py_float_of_str s
  | PyNone | PyList _ | PyDict _ => Raise TypeError
  end.

(** *** Comparing a value with an [int] *)

(** The order of a binary64 and an integer, taken exactly, as Python does:
    [Lt], [Eq] or [Gt], and [None] for a NaN, which is in no order. *)
Definition compare_float_int (f : float) (n : Z) : option comparison :=
  match Prim2SF f with
  | S754_nan => None
  | S754_infinity neg => Some (if neg then Lt else Gt)
  | S754_zero _ => Some (0 ?= n)%Z
  | S754_finite neg m e =>
      let v := if neg then Z.neg m else Z.pos m in
      Some (if (0 <=? e)%Z then (v * 2 ^ e ?= n)%Z
            else (v ?= n * 2 ^ (- e))%Z)
  end.

(** [v < n] and [v > n] for an [int] [n]: a [TypeError] unless [v] is a
    number. *)
Definition py_lt_int (v : pyval) (n : Z) : result bool :=
  match v with
  | PyInt k => Ok (k <? n)%Z
  | PyBool b => Ok ((if b then 1 else 0) <? n)%Z
  | PyFloat f =>
      Ok (match compare_float_int f n with Some Lt => true | _ => false end)
  | PyNone | PyStr _ | PyList _ | PyDict _ => Raise TypeError
  end.

Definition py_gt_int (v : pyval) (n : Z) : result bool :=
  match v with
  | PyInt k => Ok (n <? k)%Z
  | PyBool b => Ok (n <? (if b then 1 else 0))%Z
  | PyFloat f =>
      Ok (match compare_float_int f n with Some Gt => true | _ => false end)
  | PyNone | PyStr _ | PyList _ | PyDict _ => Raise TypeError
  end.

(** [v - 1]. *)
Definition py_pred (v : pyval) : result pyval :=
  match v with
  | PyInt k => Ok (PyInt (k - 1))
  | PyBool b => Ok (PyInt ((if b then 1 else 0) - 1))
  | PyFloat f => Ok (PyFloat (f - 1)%float)
  | PyNone | PyStr _ | PyList _ | PyDict _ => Raise TypeError
  end.

(* ================================================================== *)
(** ** [validate_redaction_area] *)
(* ================================================================== *)

(** The body of the [try] block. *)
Definition validate_redaction_area_body (area : list (string * pyval))
    (page_count : Z) : result bool :=
  let page := get_default area "page" (PyInt 1) in
  x <- py_float (get_default area "x" (PyInt 0)) ;;
  y <- py_float (get_default area "y" (PyInt 0)) ;;
  width <- py_float (get_default area "width" (PyInt 0)) ;;
  height <- py_float (get_default area "height" (PyInt 0)) ;;
  below <- py_lt_int page 1 ;;
  outside <- (if below then Ok true else py_gt_int page page_count) ;;
  if outside then Ok false
  else if ((x <? 0) || (y <? 0) || (width <=? 0) || (height <=? 0))%float
  then Ok false
  else if ((10000 <? width) || (10000 <? height))%float
  then Ok false
  else Ok true.

(** [try: ... except (ValueError, TypeError): return False]; any other
    exception leaves the function. *)
Definition validate_redaction_area (area : list (string * pyval))
    (page_count : Z) : result bool :=
  match validate_redaction_area_body area page_count with
  | Ok b => Ok b
  | Raise ValueError | Raise TypeError => Ok false
  | Raise e => Raise e
  end.

(* ================================================================== *)
(** ** The redaction loop of [redact_pdf] *)
(* ================================================================== *)

(** [fitz.Rect(x0, y0, x1, y1)]. *)
Record Rect : Set := mkRect { rx0 : float; ry0 : float; rx1 : float; ry1 : float }.

(** A page of the open document: the width and height of [page.rect], and
    the redaction annotations added to it so far. *)
Record Page : Set := mkPage {
  page_width : float;
  page_height : float;
  redact_annots : list Rect
}.

Inductive log_level : Set := INFO | WARNING.

(** The messages the loop logs, with the values they print. *)
Inductive log_message : Type :=
| ProcessingArea (item : list (string * pyval))
| InvalidArea (item : list (string * pyval))
| ApplyingOnPage (page_number : pyval)
| PageDimensions (width height : float)
| RedactionRectangle (rect : Rect)
| RectangleBounds (rect : Rect)
| BeyondPageBounds (width height : float) (rect : Rect)
| AddedAnnotation (count : Z).

(** What the loop changes: the document, the counter and the log. *)
Record redaction_state : Type := mkState {
  doc : list Page;
  redactions_applied : Z;
  log : list (log_level * log_message)
}.

(** [doc[i]]: the page and its position.  A negative [int] counts from the
    end; anything that is not an [int] below the page count is not a page
    of the document. *)
Definition doc_getitem (d : list Page) (i : pyval) : result (nat * Page) :=
  match i with
  | PyInt k =>
      let n := Z.of_nat (List.length d) in
      if (k <? n)%Z && (0 <? n)%Z then
        let idx := Z.to_nat (if (k <? 0)%Z then k mod n else k)%Z in
        match nth_error d idx with
        | Some pg => Ok (idx, pg)
        | None => Raise IndexError
        end
      else Raise IndexError
  | _ => Raise IndexError
  end.

(** The list [l] with [f] applied to its element at [idx]. *)
Fixpoint update_nth {A : Type} (idx : nat) (f : A -> A) (l : list A) : list A :=
  match l, idx with
  | [], _ => []
  | x :: l', O => f x :: l'
  | x :: l', S k => x :: update_nth k f l'
  end.

(** [page.add_redact_annot(rect, fill=(0, 0, 0))]. *)
Definition add_redact_annot (rect : Rect) (pg : Page) : Page :=
  {| page_width := page_width pg;
     page_height := page_height pg;
     redact_annots := redact_annots pg ++ [rect] |}.

(** Line 401: the rectangle is not within the page. *)
Definition beyond_page_bounds (rect : Rect) (pg : Page) : bool :=
  ((rx0 rect <? 0) || (ry0 rect <? 0)
   || (page_width pg <? rx1 rect) || (page_height pg <? ry1 rect))%float.

(** The body of [for item in areas_list]. *)
Definition redact_area (page_count : Z) (st : redaction_state)
    (item : list (string * pyval)) : result redaction_state :=
  let log1 := log st ++ [(INFO, ProcessingArea item)] in
  valid <- validate_redaction_area item page_count ;;
  if negb valid then
    Ok {| doc := doc st;
          redactions_applied := redactions_applied st;
          log := log1 ++ [(WARNING, InvalidArea item)] |}
  else
    page_number <- py_pred (get_default item "page" (PyInt 1)) ;;
    let log2 := log1 ++ [(INFO, ApplyingOnPage page_number)] in
    found <- doc_getitem (doc st) page_number ;;
    let '(idx, page) := found in
    let log3 :=
      log2 ++ [(INFO, PageDimensions (page_width page) (page_height page))] in
    vx <- getitem item "x" ;; x <- py_float vx ;;
    vy <- getitem item "y" ;; y <- py_float vy ;;
    vx' <- getitem item "x" ;; x' <- py_float vx' ;;
    vw <- getitem item "width" ;; width <- py_float vw ;;
    vy' <- getitem item "y" ;; y' <- py_float vy' ;;
    vh <- getitem item "height" ;; height <- py_float vh ;;
    let rect := mkRect x y (x' + width)%float (y' + height)%float in
    let log4 :=
      log3 ++ [(INFO, RedactionRectangle rect); (INFO, RectangleBounds rect)] in
    let log5 :=
      if beyond_page_bounds rect page
      then log4 ++ [(WARNING,
                     BeyondPageBounds (page_width page) (page_height page) rect)]
      else log4 in
    let applied := (redactions_applied st + 1)%Z in
    Ok {| doc := update_nth idx (add_redact_annot rect) (doc st);
          redactions_applied := applied;
          log := log5 ++ [(INFO, AddedAnnotation applied)] |}.

(** The loop over [areas_list]: an exception ends it. *)
Fixpoint redact_loop (page_count : Z) (st : redaction_state)
    (areas_list : list (list (string * pyval))) : result redaction_state :=
  match areas_list with
  | [] => Ok st
  | item :: rest =>
      st' <- redact_area page_count st item ;;
      redact_loop page_count st' rest
  end.

(** Lines 371-407 of [redact_pdf], on the open document [d]. *)
Definition redact_areas (d : list Page)
    (areas_list : list (list (string * pyval))) : result redaction_state :=
  let page_count := Z.of_nat (List.length d) in
  redact_loop page_count {| doc := d; redactions_applied := 0; log := [] |}
    areas_list.

(* ================================================================== *)
(** ** [PIIDetector.calculate_statistics] *)
(* ================================================================== *)

(** [d[key] = value] on a dictionary written as its items: a key that is
    there keeps its place, a new one goes to the end. *)
Fixpoint dict_set {V : Type} (d : list (string * V)) (key : string) (value : V)
  : list (string * V) :=
  match d with
  | [] => [(key, value)]
  | (k, v) :: d' =>
      if k =? key then (key, value) :: d' else (k, v) :: dict_set d' key value
  end.

(** The dictionary [statistics] that the function returns. *)
Record Statistics : Set := mkStatistics {
  stat_total : nat;
  stat_by_category : list (string * nat);
  stat_high : nat;
  stat_medium : nat;
  stat_low : nat
}.

(** The body of [for finding in findings]. *)
Definition count_category (by_category : list (string * nat)) (finding : Finding)
  : list (string * nat) :=
  let category := f_category finding in
  dict_set by_category category
    (match dict_get by_category category with Some n => n | None => 0 end + 1).

Definition calculate_statistics (findings : list Finding) : Statistics :=
  {| stat_total := List.length findings;
     stat_by_category := fold_left count_category findings [];
     stat_high :=
       List.length (filter (fun f => (0.9 <=? f_confidence f)%float) findings);
     stat_medium :=
       List.length
         (filter (fun f => (0.7 <=? f_confidence f)%float
                           && (f_confidence f <? 0.9)%float) findings);
     stat_low :=
       List.length (filter (fun f => (f_confidence f <? 0.7)%float) findings) |}.

(* ================================================================== *)
(** ** The detection loop of [detect_pii] *)
(* ================================================================== *)

(** The dictionary of [page.get_text("dict")], as far as the loop reads it.
    A key that the loop reads with [get] may be absent. *)
Record Span : Set := mkSpan {
  span_text : option string;
  span_bbox : option BBox
}.

Record Line : Set := mkLine { line_spans : option (list Span) }.

Record Block : Set := mkBlock {
  block_type : option Z;
  block_lines : option (list Line)
}.

Record TextDict : Set := mkTextDict { text_blocks : option (list Block) }.

(** [d.get(key, [])]. *)
Definition get_list {A : Type} (v : option (list A)) : list A :=
  match v with Some l => l | None => [] end.

Section DetectPII.

Variable finditer : string -> string -> list (nat * nat).
Variable uuid_hex8 : nat -> string.
Variable categories : list string.
Variable confidence_threshold : float.

(** The body of [for span in line.get("spans", [])]: the findings of the
    span are appended to those of the document. *)
Definition span_step (page_num : Z) (st : detect_state) (span : Span)
  : detect_state :=
  let '(findings, drawn) := st in
  let text := match span_text span with Some t => t | None => "" end in
  let bbox :=
    match span_bbox span with Some b => b | None => mkBBox 0 0 0 0 end in
  let '(span_findings, drawn') :=
    detect_in_text_from finditer uuid_hex8 text bbox (page_num + 1)
      confidence_threshold categories drawn in
  (findings ++ span_findings, drawn').

Definition line_step (page_num : Z) (st : detect_state) (line : Line)
  : detect_state :=
  fold_left (span_step page_num) (get_list (line_spans line)) st.

(** The body of [for block in text_instances.get("blocks", [])]: only a
    block of type 0, a text block, is read. *)
Definition block_step (page_num : Z) (st : detect_state) (block : Block)
  : detect_state :=
  match block_type block with
  | Some 0%Z => fold_left (line_step page_num) (get_list (block_lines block)) st
  | _ => st
  end.

(** The body of [for page_num in range(page_count)], for the page
    [page_num] with the text [text_instances]. *)
Definition page_step (st : detect_state) (numbered : nat * TextDict)
  : detect_state :=
  let '(page_num, text_instances) := numbered in
  fold_left (block_step (Z.of_nat page_num))
    (get_list (text_blocks text_instances)) st.

(** Lines 1107-1134 of [detect_pii], on the texts of the pages of the open
    document. *)
Definition detect_pii_from (pdf_doc : list TextDict) (drawn : nat)
  : detect_state :=
  let page_count := List.length pdf_doc in
  fold_left page_step (combine (seq 0 page_count) pdf_doc) ([], drawn).

Definition detect_pii_findings (pdf_doc : list TextDict) (drawn : nat)
  : list Finding :=
  fst (detect_pii_from pdf_doc drawn).

(** The findings and their statistics, as the response holds them. *)
Definition detect_pii_response (pdf_doc : list TextDict) (drawn : nat)
  : list Finding * Statistics :=
  let findings := detect_pii_findings pdf_doc drawn in
  (findings, calculate_statistics findings).

End DetectPII.

(* ================================================================== *)
(** ** [sanitize_filename] *)
(* ================================================================== *)

(** Whether a character of [s] satisfies [p]. *)
Fixpoint str_exists (p : ascii -> bool) (s : string) : bool :=
  match s with
  | EmptyString => false
  | String c s' => p c || str_exists p s'
  end.

Definition is_slash (c : ascii) : bool := is_cp 47 c.

(** [os.path.basename(p)] of [posixpath]: what follows the last slash. *)
Fixpoint basename (p : string) : string :=
  match p with
  | EmptyString => EmptyString
  | String c p' =>
      if str_exists is_slash p' then basename p'
      else if is_slash c then p' else p
  end.

(** A character of the class [[\w\-\.]]. *)
Definition safe_char (c : ascii) : bool :=
  Re.is_word c || is_cp 45 c || is_cp 46 c.

(** [re.match(r'^[\w\-\.]+$', s)]: one or more characters of the class up to
    the end of [s], where [$] also matches before a newline that ends [s].
    [seen] says that a character of the class was read. *)
Fixpoint safe_name_from (s : string) (seen : bool) : bool :=
  match s with
  | EmptyString => seen
  | String c s' =>
      if safe_char c then safe_name_from s' true
      else seen && is_cp 10 c && (s' =? "")
  end.

Definition safe_name (s : string) : bool := safe_name_from s false.

Definition sanitize_filename (filename : string) : result string :=
  let filename := basename filename in
  if negb (safe_name filename) then Raise ValueError
  else Ok filename.

(* ================================================================== *)
(** ** [int()] of a string, [range] and the outcome of a request *)
(* ================================================================== *)

(** The most digits [int] converts ([sys.int_info.default_max_str_digits]). *)
Definition max_str_digits : nat := 4300.

Definition int_of_chars (s : list ascii) : option Z :=
  match drop_underscores None s with
  | None => None
  | Some s0 =>
      let '(neg, s1) := read_sign s0 in
      match span_digits s1 with
      | ((_ :: _) as ds, []) =>
          if (max_str_digits <? List.length ds)%nat then None
          else Some (if neg then (- digits_value ds)%Z else digits_value ds)
      | _ => None
      end
  end.

(** [int(s)] of a [str]: whitespace around, a sign, decimal digits with
    single underscores between them; [ValueError] for anything else. *)
Definition py_int_of_str (s : string) : result Z :=
  match int_of_chars
          (chars (rstrip_by float_space (lstrip_by float_space s))) with
  | Some n => Ok n
  | None => Raise ValueError
  end.

(** [range(start, stop, step)] for a positive [step]. *)
Fixpoint range_from (fuel : nat) (start stop step : Z) : list Z :=
  match fuel with
  | O => []
  | S fuel' =>
      if (start <? stop)%Z
      then start :: range_from fuel' (start + step)%Z stop step
      else []
  end.

Definition py_range (start stop step : Z) : list Z :=
  range_from (Z.to_nat (stop - start)) start stop step.

(** What a request handler ends with: the body of the response, or an
    [HTTPException] with its status code.  The handlers below are taken
    from the point where the input file has been found and accepted, and
    the calls to PyMuPDF and to the storage are taken to succeed: an
    exception of theirs ends the request with status 500. *)
Inductive http (A : Type) : Type :=
| Response (body : A)
| HTTPException (status_code : Z).
Arguments Response {A} body.
Arguments HTTPException {A} status_code.

Definition http_bind {A B} (m : http A) (k : A -> http B) : http B :=
  match m with
  | Response a => k a
  | HTTPException code => HTTPException code
  end.

(** [try: ... except ValueError: raise HTTPException(400)] inside the
    handler's [except Exception: raise HTTPException(500)]. *)
Definition bad_request_on_value_error {A} (m : result A) : http A :=
  match m with
  | Ok a => Response a
  | Raise ValueError => HTTPException 400
  | Raise _ => HTTPException 500
  end.

(** [s.endswith(suffix)], [s[:-n]] and [s.split(sep, 1)] for a separator
    of one character. *)
Definition endswith (suffix s : string) : bool :=
  let n := String.length s in
  let k := String.length suffix in
  (k <=? n)%nat && (substring (n - k) k s =? suffix)%string.

Definition drop_last (n : nat) (s : string) : string :=
  substring 0 (String.length s - n) s.

Fixpoint split_once (sep : ascii) (s : string) : list string :=
  match s with
  | EmptyString => [EmptyString]
  | String c s' =>
      if (ord c =? ord sep)%N then [EmptyString; s']
      else
        match split_once sep s' with
        | head :: rest => String c head :: rest
        | [] => [String c EmptyString]
        end
  end.

Definition dash : ascii := "-"%char.

(** [sorted(list(set(l)))] of a list of integers. *)
Fixpoint insert_sorted (x : Z) (l : list Z) : list Z :=
  match l with
  | [] => [x]
  | y :: l' =>
      if (x <? y)%Z then x :: l
      else if (x =? y)%Z then l
      else y :: insert_sorted x l'
  end.

Definition sorted_set (l : list Z) : list Z := fold_right insert_sorted [] l.

(** A document made with [fitz.open()] is the list of the calls
    [insert_pdf(pdf_doc, from_page=a, to_page=b)] made on it, in order. *)
Definition insert_pdf (doc : list (Z * Z)) (from_page to_page : Z)
    : list (Z * Z) :=
  doc ++ [(from_page, to_page)].

(** What a handler saves under a name: the source document as it is, or
    a document assembled with [insert_pdf]. *)
Inductive content : Set :=
| WholeDocument
| NewDocument (inserts : list (Z * Z)).

Record OutputFile : Set := mkOutputFile {
  out_name : string;
  out_content : content
}.

(** "Determine base output name" of the split handlers: the sanitized
    [outputName] without a final [.pdf], or [fresh], the name made with
    [uuid4] when the field is absent or empty. *)
Definition base_output_name (outputName : option string) (fresh : string)
    : http string :=
  match outputName with
  | None => Response fresh
  | Some name =>
      if (name =? "")%string then Response fresh
      else
        match sanitize_filename name with
        | Ok safe_output_name =>
            Response (if endswith ".pdf" safe_output_name
                      then drop_last 4 safe_output_name
                      else safe_output_name)
        | Raise ValueError => HTTPException 400
        | Raise _ => HTTPException 500
        end
  end.

(** "Determine output name" of [extract_pdf_pages] (lines 1490-1503):
    here the final [.pdf] is added when it is missing. *)
Definition extract_output_name (outputName : option string) (fresh : string)
    : http string :=
  match outputName with
  | None => Response fresh
  | Some name =>
      if (name =? "")%string then Response fresh
      else
        match sanitize_filename name with
        | Ok safe_output_name =>
            Response (if negb (endswith ".pdf" safe_output_name)
                      then (safe_output_name ++ ".pdf")%string
                      else safe_output_name)
        | Raise ValueError => HTTPException 400
        | Raise _ => HTTPException 500
        end
  end.

Definition is_dot (c : ascii) : bool := is_cp 46 c.

(** [s.rsplit('.', 1)[0]]: what stands before the last dot, or all of [s]
    when it has no dot. *)
Fixpoint before_last_dot (s : string) : option string :=
  match s with
  | EmptyString => None
  | String c s' =>
      match before_last_dot s' with
      | Some head => Some (String c head)
      | None => if is_dot c then Some EmptyString else None
      end
  end.

Definition rsplit_head (s : string) : string :=
  match before_last_dot s with
  | Some head => head
  | None => s
  end.

(** "Determine output name" of [compress_pdf] (lines 930-943): an
    extension other than [.pdf] is replaced. *)
Definition compress_output_name (outputName : option string) (fresh : string)
    : http string :=
  match outputName with
  | None => Response fresh
  | Some name =>
      if (name =? "")%string then Response fresh
      else
        match sanitize_filename name with
        | Ok safe_output_name =>
            Response (if negb (endswith ".pdf" safe_output_name)
                      then (rsplit_head safe_output_name ++ ".pdf")%string
                      else safe_output_name)
        | Raise ValueError => HTTPException 400
        | Raise _ => HTTPException 500
        end
  end.

(* ================================================================== *)
(** ** [split_pdf_by_pattern] *)
(* ================================================================== *)

(** Lines 1203-1211: the number of pages per file. *)
Definition parse_split_pattern (splitByPattern : string) : http Z :=
  bad_request_on_value_error
    (pages_per_split <- py_int_of_str splitByPattern ;;
     if (pages_per_split <=? 0)%Z then Raise ValueError
     else Ok pages_per_split).

(** The body of [for start_page in range(0, page_count, pages_per_split)]. *)
Definition pattern_chunk (safe_output_name : string)
    (page_count pages_per_split start_page : Z) : OutputFile :=
  let end_page := Z.min (start_page + pages_per_split - 1) (page_count - 1) in
  let chunk_doc := insert_pdf [] start_page end_page in
  let chunk_number := (start_page / pages_per_split + 1)%Z in
  {| out_name :=
       (safe_output_name ++ "-" ++ str_of_int chunk_number ++ ".pdf")%string;
     out_content := NewDocument chunk_doc |}.

(** Lines 1203-1275 of [split_pdf_by_pattern], for a source document of
    [page_count] pages. *)
Definition split_by_pattern (splitByPattern : string)
    (outputName : option string) (fresh : string) (page_count : Z)
    : http (list OutputFile) :=
  http_bind (parse_split_pattern splitByPattern) (fun pages_per_split =>
  http_bind (base_output_name outputName fresh) (fun safe_output_name =>
  if (page_count <=? pages_per_split)%Z then
    Response [ {| out_name := (safe_output_name ++ ".pdf")%string;
                  out_content := WholeDocument |} ]
  else
    Response
      (map (pattern_chunk safe_output_name page_count pages_per_split)
         (py_range 0 page_count pages_per_split)))).

(* ================================================================== *)
(** ** [split_pdf_by_range] *)
(* ================================================================== *)

(** One turn of the loop of lines 1332-1346: the 0-based range that an
    item of [splitByRange] names. *)
Definition parse_range_item (range_str : string) : result (Z * Z) :=
  let range_str := strip range_str in
  if contains "-" range_str then
    match split_once dash range_str with
    | [start; end_] =>
        start_number <- py_int_of_str (strip start) ;;
        end_number <- py_int_of_str (strip end_) ;;
        let start_page := (start_number - 1)%Z in
        let end_page := (end_number - 1)%Z in
        if (start_page <? 0)%Z || (end_page <? start_page)%Z
        then Raise ValueError
        else Ok (start_page, end_page)
    | _ => Raise ValueError
    end
  else
    number <- py_int_of_str range_str ;;
    let page_num := (number - 1)%Z in
    if (page_num <? 0)%Z then Raise ValueError
    else Ok (page_num, page_num).

Definition parse_ranges (splitByRange : string) : http (list (Z * Z)) :=
  bad_request_on_value_error (mapM parse_range_item (split "," splitByRange)).

Definition range_filename (safe_output_name : string)
    (start_page end_page : Z) : string :=
  if (start_page =? end_page)%Z
  then (safe_output_name ++ "-page" ++ str_of_int (start_page + 1)
          ++ ".pdf")%string
  else (safe_output_name ++ "-pages" ++ str_of_int (start_page + 1) ++ "-"
          ++ str_of_int (end_page + 1) ++ ".pdf")%string.

(** The body of the loop of lines 1376-1399. *)
Definition range_step (safe_output_name : string) (page_count : Z)
    (output_files : list OutputFile) (r : Z * Z) : list OutputFile :=
  let '(start_page, end_page) := r in
  if (page_count <=? start_page)%Z || (page_count <=? end_page)%Z
  then output_files
  else
    let range_doc := insert_pdf [] start_page end_page in
    output_files
      ++ [ {| out_name := range_filename safe_output_name start_page end_page;
              out_content := NewDocument range_doc |} ].

(** Lines 1330-1406 of [split_pdf_by_range]. *)
Definition split_by_range (splitByRange : string)
    (outputName : option string) (fresh : string) (page_count : Z)
    : http (list OutputFile) :=
  http_bind (parse_ranges splitByRange) (fun ranges =>
  http_bind (base_output_name outputName fresh) (fun safe_output_name =>
  Response (fold_left (range_step safe_output_name page_count) ranges []))).

(* ================================================================== *)
(** ** [extract_pdf_pages] *)
(* ================================================================== *)

(** What the process can hold: [sys.maxsize], beyond which the length of
    a [range] raises [OverflowError], and the number of items for which a
    list can be given room, beyond which [extend] and [append] raise
    [MemoryError]. *)
Record memory : Set := mkMemory {
  maxsize : Z;
  list_capacity : Z
}.

(** [pages.extend(range(start, stop))]. *)
Definition extend_range (mem : memory) (pages : list Z) (start stop : Z)
    : result (list Z) :=
  let n := Z.max 0 (stop - start) in
  if (maxsize mem <? n)%Z then Raise OverflowError
  else if (list_capacity mem <? Z.of_nat (List.length pages) + n)%Z
  then Raise MemoryError
  else Ok (pages ++ py_range start stop 1).

(** [pages.append(page_num)]. *)
Definition append_page (mem : memory) (pages : list Z) (page_num : Z)
    : result (list Z) :=
  if (list_capacity mem <? Z.of_nat (List.length pages) + 1)%Z
  then Raise MemoryError
  else Ok (pages ++ [page_num]).

(** One turn of the loop of lines 1463-1478: the 0-based pages that an
    item of [extractPages] adds to [pages_to_extract]. *)
Definition parse_page_item (mem : memory) (pages_to_extract : list Z)
    (page_str : string) : result (list Z) :=
  let page_str := strip page_str in
  if contains "-" page_str then
    match split_once dash page_str with
    | [start; end_] =>
        start_number <- py_int_of_str (strip start) ;;
        end_number <- py_int_of_str (strip end_) ;;
        let start_page := (start_number - 1)%Z in
        let end_page := (end_number - 1)%Z in
        if (start_page <? 0)%Z || (end_page <? start_page)%Z
        then Raise ValueError
        else extend_range mem pages_to_extract start_page (end_page + 1)
    | _ => Raise ValueError
    end
  else
    number <- py_int_of_str page_str ;;
    let page_num := (number - 1)%Z in
    if (page_num <? 0)%Z then Raise ValueError
    else append_page mem pages_to_extract page_num.

(** The loop of lines 1462-1478, which stops at the first exception. *)
Fixpoint parse_page_items (mem : memory) (items : list string)
    (pages_to_extract : list Z) : result (list Z) :=
  match items with
  | [] => Ok pages_to_extract
  | page_str :: rest =>
      pages <- parse_page_item mem pages_to_extract page_str ;;
      parse_page_items mem rest pages
  end.

(** Lines 1461-1487: the pages asked for, sorted and without repeats.
    Only a [ValueError] is answered with status 400. *)
Definition parse_pages (mem : memory) (extractPages : string)
    : http (list Z) :=
  bad_request_on_value_error
    (pages_to_extract <-
       parse_page_items mem (split "," extractPages) [] ;;
     Ok (sorted_set pages_to_extract)).

(** Lines 1461-1535 of [extract_pdf_pages]. *)
Definition extract_pages (mem : memory) (extractPages : string)
    (outputName : option string) (fresh : string) (page_count : Z)
    : http (list OutputFile) :=
  http_bind (parse_pages mem extractPages) (fun pages_to_extract =>
  http_bind (extract_output_name outputName fresh) (fun safe_output_name =>
  let valid_pages := filter (fun p => (p <? page_count)%Z) pages_to_extract in
  match valid_pages with
  | [] => HTTPException 400
  | _ :: _ =>
      let extracted_doc :=
        fold_left (fun doc page_num => insert_pdf doc page_num page_num)
          valid_pages [] in
      Response [ {| out_name := safe_output_name;
                    out_content := NewDocument extracted_doc |} ]
  end)).

(* ================================================================== *)
(** ** [split_pdf_by_size] *)
(* ================================================================== *)

(** The variables of the loop of lines 1618-1675. *)
Record size_state : Set := mkSizeState {
  output_files : list OutputFile;
  current_doc : list (Z * Z);
  current_pages : Z;
  chunk_number : Z
}.

Section SplitBySize.

(** [saved_size doc] is the size in bytes of the file that
    [doc.save(...)] writes, as [stat().st_size] reports it. *)
Variable saved_size : list (Z * Z) -> Z.

Variable safe_output_name : string.
Variables page_count max_size_bytes : Z.

Definition size_chunk (st : size_state) (doc : list (Z * Z)) : OutputFile :=
  {| out_name :=
       (safe_output_name ++ "-" ++ str_of_int (chunk_number st)
          ++ ".pdf")%string;
     out_content := NewDocument doc |}.

(** The body of [for page_num in range(page_count)]. *)
Definition size_step (st : size_state) (page_num : Z) : size_state :=
  let doc := insert_pdf (current_doc st) page_num page_num in
  let pages := (current_pages st + 1)%Z in
  let current_size := saved_size doc in
  if (max_size_bytes <? current_size)%Z || (page_num =? page_count - 1)%Z then
    if (max_size_bytes <? current_size)%Z && (1 <? pages)%Z then
      let rebuilt :=
        fold_left (fun d p => insert_pdf d p p)
          (py_range (page_num - pages + 1) page_num 1) [] in
      {| output_files := output_files st ++ [size_chunk st rebuilt];
         current_doc := insert_pdf [] page_num page_num;
         current_pages := 1;
         chunk_number := chunk_number st + 1 |}
    else
      {| output_files := output_files st ++ [size_chunk st doc];
         current_doc := [];
         current_pages := 0;
         chunk_number := chunk_number st + 1 |}
  else
    {| output_files := output_files st;
       current_doc := doc;
       current_pages := pages;
       chunk_number := chunk_number st |}.

Definition size_loop (pages : list Z) : size_state :=
  fold_left size_step pages
    {| output_files := []; current_doc := []; current_pages := 0;
       chunk_number := 1 |}.

End SplitBySize.

(** Lines 1589-1686 of [split_pdf_by_size]. *)
Definition split_by_size (saved_size : list (Z * Z) -> Z) (maxSizeKB : Z)
    (outputName : option string) (fresh : string) (page_count : Z)
    : http (list OutputFile) :=
  if (maxSizeKB <=? 0)%Z then HTTPException 400
  else
    let max_size_bytes := (maxSizeKB * 1024)%Z in
    http_bind (base_output_name outputName fresh) (fun safe_output_name =>
    Response
      (output_files
         (size_loop saved_size safe_output_name page_count max_size_bytes
            (py_range 0 page_count 1)))).

(* ================================================================== *)
(** ** Inputs for the examples *)
(* ================================================================== *)

Definition hex_digit (n : nat) : ascii :=
  nth n (chars "0123456789abcdef") "0"%char.

(** [k] in [width] hexadecimal digits. *)
Fixpoint hex_of (width k : nat) : string :=
  match width with
  | O => EmptyString
  | S w => (hex_of w (k / 16) ++ String (hex_digit (k mod 16)) EmptyString)%string
  end.

(** A source of identifiers that counts: the [k]-th is [k] in eight
    hexadecimal digits. *)
Definition counting_hex8 (k : nat) : string := hex_of 8 k.

(** A span 200 wide and 10 high at the origin. *)
Definition span_box : BBox := mkBBox 0 0 200 10.

(** A valid card number behind three superscript digits (U+00B2, U+00B3,
    U+00B2). *)
Definition superscript_card : string :=
  String "178"%char (String "179"%char (String "178"%char "4532015112830366")).

(** A redaction area with the five entries of the data model. *)
Definition area_of (page x y width height : pyval) : list (string * pyval) :=
  [("page", page); ("x", x); ("y", y); ("width", width); ("height", height)].

(** An area whose [x] is an integer beyond the range of binary64. *)
Definition area_with_huge_x : list (string * pyval) :=
  area_of (PyInt 1) (PyInt (10 ^ 400)) (PyInt 0) (PyInt 50) (PyInt 50).


(** A page in US Letter format with no annotation yet. *)
Definition letter_page : Page := mkPage 612 792 [].

(** The state of the loop before the first area of a request. *)
Definition fresh_state (d : list Page) : redaction_state :=
  {| doc := d; redactions_applied := 0; log := [] |}.

(* ================================================================== *)
(** ** What the specification says, in its own words *)
(* ================================================================== *)

(** A finding without its identifier. *)
Definition erase_id (f : Finding) : Finding :=
  {| f_id := "";
     f_category := f_category f;
     f_name := f_name f;
     f_text := f_text f;
     f_confidence := f_confidence f;
     f_page := f_page f;
     f_bbox := f_bbox f |}.

(** The projected box of the specification: the horizontal extent of the
    span divided evenly over its characters, the vertical one copied; the
    box of the span itself when the text is empty. *)
Definition claimed_projection (text : string) (bbox : BBox)
    (start_offset end_offset : nat) : BBox :=
  let len := String.length text in
  match len with
  | O => bbox
  | S _ =>
      let start_ratio := int_truediv start_offset len in
      let end_ratio := int_truediv end_offset len in
      {| bx1 := (bx1 bbox + (bx2 bbox - bx1 bbox) * start_ratio)%float;
         by1 := by1 bbox;
         bx2 := (bx1 bbox + (bx2 bbox - bx1 bbox) * end_ratio)%float;
         by2 := by2 bbox |}
  end.

(** *** The Luhn check of the specification *)

(** The value of a digit character, under two readings of "digit
    character": the decimal digits 0-9 only, or every character that
    [isdigit] accepts, the superscripts with the digit they show. *)
Definition decimal_value (c : ascii) : option Z :=
  if isdecimal c then Some (Z.of_N (ord c) - 48)%Z else None.

Definition unicode_digit_value (c : ascii) : option Z :=
  if isdecimal c then Some (Z.of_N (ord c) - 48)%Z
  else if is_cp 178 c then Some 2%Z
  else if is_cp 179 c then Some 3%Z
  else if is_cp 185 c then Some 1%Z
  else None.

(** "Extract only digit characters." *)
Fixpoint digit_values (value : ascii -> option Z) (l : list ascii) : list Z :=
  match l with
  | [] => []
  | c :: l' =>
      match value c with
      | Some d => d :: digit_values value l'
      | None => digit_values value l'
      end
  end.

(** The share of the digit [d] at position [i] from the right: doubled at
    the positions 1, 3, 5, ..., less 9 when the double exceeds 9. *)
Definition luhn_term (i : nat) (d : Z) : Z :=
  if Nat.odd i
  then (if (9 <? 2 * d)%Z then 2 * d - 9 else 2 * d)%Z
  else d.

Definition Zsum (l : list Z) : Z := fold_right Z.add 0%Z l.

(** "Sum all digits (doubled-and-adjusted plus untouched)", the position
    [i] counted from the rightmost digit. *)
Definition claimed_luhn_sum (ds : list Z) : Z :=
  let n := List.length ds in
  Zsum (map (fun i => luhn_term i (nth (n - 1 - i) ds 0%Z)) (seq 0 n)).

(** The Luhn validator as the specification states it. *)
Definition claimed_luhn (value : ascii -> option Z) (s : string) : bool :=
  let ds := digit_values value (chars s) in
  if ((List.length ds <? 13) || (19 <? List.length ds))%nat then false
  else (claimed_luhn_sum ds mod 10 =? 0)%Z.

(** Every character that [isdigit] accepts is a decimal digit. *)
Definition digits_are_decimal (s : string) : bool :=
  forallb (fun c => implb (isdigit c) (isdecimal c)) (chars s).

(** *** The Luhn check of the specification on every string *)

(** "Extract only digit characters", for the decimal digits of every
    script, each with its value. *)
Fixpoint point_values (l : list N) : list Z :=
  match l with
  | [] => []
  | c :: l' =>
      match Unicode.decimal c with
      | Some d => d :: point_values l'
      | None => point_values l'
      end
  end.

Definition claimed_luhn_points (card_number : list N) : bool :=
  let ds := point_values card_number in
  if ((List.length ds <? 13) || (19 <? List.length ds))%nat then false
  else (claimed_luhn_sum ds mod 10 =? 0)%Z.

(** Every character that [isdigit] accepts is a decimal digit. *)
Definition points_are_decimal (card_number : list N) : bool :=
  forallb (fun c => implb (Unicode.isdigit c) (Unicode.isdecimal c))
    card_number.

(** The digits of a number in the script whose zero is [zero]. *)
Definition in_script (zero : N) (number : string) : list N :=
  map (fun c => (zero + (ord c - 48))%N) (chars number).

(** *** The confidence of an e-mail address in the specification *)

(** The domain of an address: what follows its first at-sign. *)
Fixpoint email_domain (s : string) : string :=
  match s with
  | EmptyString => EmptyString
  | String c s' => if is_cp 64 c then s' else email_domain s'
  end.

(** "EMAIL 0.90, boosted to 0.95 if the domain matches a small fixed list of
    major free-mail providers." *)
Definition claimed_email_confidence (text : string) : float :=
  if existsb (String.eqb (lower (email_domain text))) free_mail_domains
  then 0.95%float else 0.90%float.

(** *** The name heuristic of the specification *)

(** The text after the first occurrence of [sep] in [s]. *)
Fixpoint after_first (sep s : string) : string :=
  match s with
  | EmptyString => EmptyString
  | String _ s' =>
      if prefix sep s then drop (String.length sep) s else after_first sep s'
  end.

(** The text before the first occurrence of [sep] in [s]; all of [s] when
    there is none. *)
Fixpoint before_first (sep s : string) : string :=
  match s with
  | EmptyString => EmptyString
  | String c s' =>
      if prefix sep s then EmptyString else String c (before_first sep s')
  end.

(** "Starts with an uppercase letter." *)
Definition starts_upper (token : string) : bool :=
  match token with
  | EmptyString => false
  | String c _ => isupper c
  end.

(** The matched text of the name candidate of an indicator, as the
    specification states it: up to three whitespace-delimited tokens after
    the first occurrence of the indicator, at least two, all capitalized. *)
Definition claimed_name_candidate (indicator text : string) : option string :=
  if contains indicator text then
    let tokens := firstn 3 (words (after_first indicator text)) in
    if (2 <=? List.length tokens)%nat && forallb starts_upper tokens
    then Some (indicator ++ " " ++ join " " tokens)%string
    else None
  else None.

(** The same with the two conditions of the code: the tokens are read up to
    the next occurrence of the indicator, and the confidence of a name,
    0.75, has to reach the threshold. *)
Definition name_candidate (threshold : float) (indicator text : string)
  : option string :=
  if contains indicator text then
    let segment := before_first indicator (after_first indicator text) in
    let tokens := firstn 3 (words segment) in
    if (2 <=? List.length tokens)%nat && forallb starts_upper tokens
       && (threshold <=? 0.75)%float
    then Some (indicator ++ " " ++ join " " tokens)%string
    else None
  else None.

(** The finding of a name candidate, without identifier. *)
Definition name_finding_of (page_num : Z) (bbox : BBox) (matched : string)
  : Finding :=
  {| f_id := "";
     f_category := "NAME";
     f_name := "Name";
     f_text := matched;
     f_confidence := 0.75%float;
     f_page := page_num;
     f_bbox := bbox |}.

Definition is_name (f : Finding) : bool := f_category f =? "NAME".

(* ================================================================== *)
(** ** Auxiliary definitions for the proofs *)
(* ================================================================== *)

Section DetectorSteps.

Variable finditer : string -> string -> list (nat * nat).
Variable uuid_hex8 : nat -> string.
Variable text : string.
Variable bbox : BBox.
Variable page_num : Z.
Variable threshold : float.

(** The finding [match_step] builds for a match. *)
Definition pattern_finding (category : string) (m : nat * nat) (drawn : nat)
  : Finding :=
  let group := slice (fst m) (snd m) text in
  {| f_id := (category ++ "_" ++ str_of_int page_num ++ "_" ++ uuid_hex8 drawn)%string;
     f_category := category;
     f_name := display_name category;
     f_text := group;
     f_confidence := calculate_confidence category group;
     f_page := page_num;
     f_bbox := match_bbox text bbox (fst m) (snd m) |}.

(** A match is kept when its confidence reaches the threshold. *)
Definition pattern_kept (category : string) (m : nat * nat) : bool :=
  (threshold <=? calculate_confidence category (slice (fst m) (snd m) text))%float.

(** The words [name_step] reads after an indicator. *)
Definition words_after_indicator (indicator : string) : list string :=
  firstn 3 (words (strip (nth 1 (split indicator text) ""))).

(** The finding [name_step] builds for an indicator. *)
Definition name_finding (indicator : string) (drawn : nat) : Finding :=
  let name_text := join " " (words_after_indicator indicator) in
  {| f_id := ("NAME_" ++ str_of_int page_num ++ "_" ++ uuid_hex8 drawn)%string;
     f_category := "NAME";
     f_name := "Name";
     f_text := (indicator ++ " " ++ name_text)%string;
     f_confidence := calculate_confidence "NAME" name_text;
     f_page := page_num;
     f_bbox := bbox |}.

(** The conditions under which [name_step] adds a finding. *)
Definition name_kept (indicator : string) : bool :=
  contains indicator text
  && (1 <? List.length (split indicator text))%nat
  && (2 <=? List.length (words_after_indicator indicator))%nat
  && all_capitalized (words_after_indicator indicator)
  && (threshold <=?
        calculate_confidence "NAME" (join " " (words_after_indicator indicator)))%float.

(** Where a finding of the result comes from: a kept match of the pattern
    of a requested category, or a kept indicator. *)
Definition from_pattern (categories : list string) (f : Finding) : Prop :=
  exists category pattern m drawn,
    In category categories /\
    dict_get PATTERNS category = Some pattern /\
    In m (finditer pattern text) /\
    pattern_kept category m = true /\
    f = pattern_finding category m drawn.

Definition from_indicator (f : Finding) : Prop :=
  exists indicator drawn,
    In indicator NAME_INDICATORS /\
    name_kept indicator = true /\
    f = name_finding indicator drawn.

Definition explained (categories : list string) (f : Finding) : Prop :=
  from_pattern categories f \/ from_indicator f.

(** What an indicator adds to the findings, identifiers apart. *)
Definition name_contribution (indicator : string) : list Finding :=
  if name_kept indicator
  then [erase_id (name_finding indicator 0)]
  else [].

End DetectorSteps.

(** Two states hold the same findings, identifiers apart. *)
Definition same_findings (st st' : detect_state) : Prop :=
  map erase_id (fst st) = map erase_id (fst st').

(** The numbers of an area that the validator accepts. *)
Definition accepted_numbers (area : list (string * pyval)) (page_count : Z)
    (x y width height : float) : Prop :=
  py_float (get_default area "x" (PyInt 0)) = Ok x
  /\ py_float (get_default area "y" (PyInt 0)) = Ok y
  /\ py_float (get_default area "width" (PyInt 0)) = Ok width
  /\ py_float (get_default area "height" (PyInt 0)) = Ok height
  /\ py_lt_int (get_default area "page" (PyInt 1)) 1 = Ok false
  /\ py_gt_int (get_default area "page" (PyInt 1)) page_count = Ok false
  /\ (x <? 0)%float = false
  /\ (y <? 0)%float = false
  /\ (width <=? 0)%float = false
  /\ (height <=? 0)%float = false
  /\ (10000 <? width)%float = false
  /\ (10000 <? height)%float = false.

(** The value of a count in a dictionary of counts: 0 for an absent key. *)
Definition count_of (d : list (string * nat)) (key : string) : nat :=
  match dict_get d key with Some n => n | None => 0 end.

(** What the loop over the findings keeps: no key twice and no count of 0. *)
Definition counts_invariant (d : list (string * nat)) : Prop :=
  NoDup (map fst d)
  /\ forall key n, dict_get d key = Some n -> 0 < n.

(** How many findings have the category [category]. *)
Definition findings_of_category (findings : list Finding) (category : string)
  : nat :=
  List.length (filter (fun f => f_category f =? category) findings).

(** The text spans of a document in reading order, each with the 1-based
    number of its page: the spans of the lines of the text blocks. *)
Definition spans_of_line (page_num : Z) (line : Line)
  : list (Z * string * BBox) :=
  map (fun span =>
         ((page_num + 1)%Z,
          match span_text span with Some t => t | None => "" end,
          match span_bbox span with Some b => b | None => mkBBox 0 0 0 0 end))
    (get_list (line_spans line)).

Definition spans_of_block (page_num : Z) (block : Block)
  : list (Z * string * BBox) :=
  match block_type block with
  | Some 0%Z => flat_map (spans_of_line page_num) (get_list (block_lines block))
  | _ => []
  end.

Definition spans_of_page (numbered : nat * TextDict)
  : list (Z * string * BBox) :=
  flat_map (spans_of_block (Z.of_nat (fst numbered)))
    (get_list (text_blocks (snd numbered))).

Definition document_spans (pdf_doc : list TextDict)
  : list (Z * string * BBox) :=
  flat_map spans_of_page (combine (seq 0 (List.length pdf_doc)) pdf_doc).

(** Whether all characters of [s] satisfy [p]. *)
Fixpoint str_forall (p : ascii -> bool) (s : string) : bool :=
  match s with
  | EmptyString => true
  | String c s' => p c && str_forall p s'
  end.

(** The string of one newline. *)
Definition newline : string := String "010"%char EmptyString.

(** A non-empty string of word characters, dashes and dots, with or without
    one newline after it. *)
Definition plain_name (name : string) : Prop :=
  exists body,
    body <> "" /\ str_forall safe_char body = true
    /\ (name = body \/ name = (body ++ newline)%string).

(** Whether the validator accepts an area. *)
Definition is_valid_area (page_count : Z) (item : list (string * pyval)) : bool :=
  match validate_redaction_area item page_count with
  | Ok true => true
  | _ => false
  end.

(** Width and height of the pages of a document. *)
Definition page_sizes (d : list Page) : list (float * float) :=
  map (fun pg => (page_width pg, page_height pg)) d.

(** The annotations on all the pages of a document. *)
Definition annotation_count (d : list Page) : nat :=
  list_sum (map (fun pg => List.length (redact_annots pg)) d).

(** The pages of the source that a document assembled with [insert_pdf]
    holds, in order, when every call names pages [a <= b] of the source. *)
Definition inserted_pages (inserts : list (Z * Z)) : list Z :=
  flat_map (fun call => py_range (fst call) (snd call + 1) 1) inserts.

(** The pages of a source of [page_count] pages that a file holds. *)
Definition pages_of (page_count : Z) (file : OutputFile) : list Z :=
  match out_content file with
  | WholeDocument => py_range 0 page_count 1
  | NewDocument inserts => inserted_pages inserts
  end.

(** A call [insert_pdf(pdf_doc, from_page=a, to_page=b)] that names pages
    of the source in increasing order. *)
Definition call_in_document (page_count : Z) (call : Z * Z) : Prop :=
  (0 <= fst call <= snd call)%Z /\ (snd call < page_count)%Z.

Definition calls_in_document (page_count : Z) (file : OutputFile) : Prop :=
  match out_content file with
  | WholeDocument => True
  | NewDocument inserts => Forall (call_in_document page_count) inserts
  end.

(** The document made by inserting the pages [a], ..., [b - 1] one by one. *)
Definition single_pages (a b : Z) : list (Z * Z) :=
  map (fun p => (p, p)) (py_range a b 1).

(** The name of the file of a chunk. *)
Definition chunk_name (safe_output_name : string) (number : Z) : string :=
  (safe_output_name ++ "-" ++ str_of_int number ++ ".pdf")%string.

(** A document that respects the size limit as far as it can: it is within
    the limit, or it holds one page only. *)
Definition fits (saved_size : list (Z * Z) -> Z) (max_size_bytes : Z)
    (doc : list (Z * Z)) : Prop :=
  List.length doc = 1%nat \/ (saved_size doc <= max_size_bytes)%Z.

(** A saved document that takes the same number of bytes for every page. *)
Definition size_of_pages (bytes_per_page : Z) (doc : list (Z * Z)) : Z :=
  (bytes_per_page * Z.of_nat (List.length doc))%Z.




(** The memory of a 64-bit process that has room for lists of a million
    items. *)
Definition small_memory : memory :=
  {| maxsize := 9223372036854775807; list_capacity := 1000000 |}.

(** The [outputName] of a request when it counts as given: present and
    not empty. *)
Definition given_name (outputName : option string) : option string :=
  match outputName with
  | Some name => if (name =? "")%string then None else Some name
  | None => None
  end.

(** What is expected of the name of an output file: the fresh name when
    none is given; otherwise the sanitized name, ending in [.pdf] and
    free of slashes, or status 400 when the given name is refused. *)
Definition well_named (outputName : option string) (fresh : string)
    (outcome : http string) : Prop :=
  match given_name outputName, outcome with
  | None, Response name => name = fresh
  | None, HTTPException _ => False
  | Some given, Response name =>
      exists safe,
        sanitize_filename given = Ok safe
        /\ endswith ".pdf" name = true
        /\ str_exists is_slash name = false
        /\ (endswith ".pdf" safe = true -> name = safe)
  | Some given, HTTPException code =>
      code = 400%Z /\ sanitize_filename given = Raise ValueError
  end.

(** The share of a digit in the checksum of [luhn_loop], at the index [i]
    from the right. *)
Definition loop_term (i : nat) (digit : Z) : Z :=
  if (Nat.modulo i 2 =? 1)%nat
  then let digit := (digit * 2)%Z in
       if (digit >? 9)%Z then (digit - 9)%Z else digit
  else digit.

Section SizeInvariant.

Variable saved_size : list (Z * Z) -> Z.
Variable safe_output_name : string.
Variables page_count max_size_bytes : Z.

Definition good_chunk (first : Z) (file : OutputFile) (next : Z) : Prop :=
  (first < next)%Z
  /\ out_content file = NewDocument (single_pages first next)
  /\ fits saved_size max_size_bytes (single_pages first next).

(** [chunks_from first files next]: the files hold the pages from [first]
    to [next - 1], each file a run of consecutive pages. *)
Inductive chunks_from : Z -> list OutputFile -> Z -> Prop :=
| chunks_none (first : Z) : chunks_from first [] first
| chunks_more (first middle next : Z) (files : list OutputFile)
    (file : OutputFile) :
    chunks_from first files middle ->
    good_chunk middle file next ->
    chunks_from first (files ++ [file]) next.

(** The state of the loop of [split_pdf_by_size] before the turn of page
    [k], when the pages from [j] on are in the current document. *)
Definition size_invariant_at (j k : Z) (st : size_state) : Prop :=
  (0 <= j <= k)%Z
  /\ current_doc st = single_pages j k
  /\ current_pages st = (k - j)%Z
  /\ ((k - j <= 1)%Z \/ (saved_size (current_doc st) <= max_size_bytes)%Z)
  /\ chunks_from 0%Z (output_files st) j
  /\ chunk_number st = (1 + Z.of_nat (List.length (output_files st)))%Z
  /\ map out_name (output_files st)
     = map (chunk_name safe_output_name) (py_range 1 (chunk_number st) 1).

(** What the turn for the last page [k] leaves: every page written, or
    the last page left in a document that is never saved, because it did
    not fit with the pages of the last file. *)
Definition last_turn (j k : Z) (st : size_state) : Prop :=
  j = (k + 1)%Z
  \/ (j = k
      /\ exists files file doc,
           output_files st = files ++ [file]
           /\ out_content file = NewDocument doc
           /\ (max_size_bytes < saved_size (insert_pdf doc k k))%Z).

End SizeInvariant.


(* ================================================================== *)
(** ** Properties of [detect_in_text] *)
(* ================================================================== *)

(** Folding a step that keeps an invariant keeps it. *)
Lemma fold_left_keeps {A B : Type} (P : A -> Prop) (f : A -> B -> A)
    (l : list B) :
  (forall a b, In b l -> P a -> P (f a b)) ->
  forall a, P a -> P (fold_left f l a).
Proof.
  induction l as [|b l IH]; intros Hstep a Ha; simpl; [exact Ha|].
  apply IH.
  - intros a' b' Hin. apply Hstep. now right.
  - apply Hstep; [now left | exact Ha].
Qed.

(** Two folds over one list, step by step in a relation, end in it. *)
Lemma fold_left_related {A B C : Type} (R : A -> B -> Prop)
    (f : A -> C -> A) (g : B -> C -> B) (l : list C) :
  (forall a b c, R a b -> R (f a c) (g b c)) ->
  forall a b, R a b -> R (fold_left f l a) (fold_left g l b).
Proof.
  intros Hstep. induction l as [|c l IH]; intros a b Hab; simpl; auto.
Qed.

Section DetectorProperties.

Variable finditer : string -> string -> list (nat * nat).
Variable uuid_hex8 : nat -> string.
Variable text : string.
Variable bbox : BBox.
Variable page_num : Z.
Variable threshold : float.

Local Abbreviation pattern_finding :=
  (pattern_finding uuid_hex8 text bbox page_num).
Local Abbreviation pattern_kept := (pattern_kept text threshold).
Local Abbreviation words_after_indicator := (words_after_indicator text).
Local Abbreviation name_finding := (name_finding uuid_hex8 text bbox page_num).
Local Abbreviation name_kept := (name_kept text threshold).
Local Abbreviation explained :=
  (explained finditer uuid_hex8 text bbox page_num threshold).

Lemma match_step_eq category findings drawn m :
  match_step uuid_hex8 text bbox page_num threshold category (findings, drawn) m
  = if pattern_kept category m
    then (findings ++ [pattern_finding category m drawn], S drawn)
    else (findings, drawn).
Proof. destruct m as [s e]. reflexivity. Qed.

Lemma name_step_eq findings drawn indicator :
  name_step uuid_hex8 text bbox page_num threshold (findings, drawn) indicator
  = if name_kept indicator
    then (findings ++ [name_finding indicator drawn], S drawn)
    else (findings, drawn).
Proof.
  unfold name_step, name_kept, name_finding, words_after_indicator.
  destruct (contains indicator text); [|reflexivity].
  destruct (1 <? _)%nat; [|reflexivity].
  destruct (2 <=? _)%nat; [|reflexivity].
  destruct (all_capitalized _); [|reflexivity].
  destruct (threshold <=? _)%float; reflexivity.
Qed.

Local Abbreviation mstep := (match_step uuid_hex8 text bbox page_num threshold).
Local Abbreviation cstep :=
  (category_step finditer uuid_hex8 text bbox page_num threshold).
Local Abbreviation nstep := (name_step uuid_hex8 text bbox page_num threshold).
Local Abbreviation detect_from :=
  (detect_in_text_from finditer uuid_hex8 text bbox page_num threshold).
Local Abbreviation detect :=
  (detect_in_text finditer uuid_hex8 text bbox page_num threshold).

Lemma match_fold_explained categories category pattern ms st :
  In category categories ->
  dict_get PATTERNS category = Some pattern ->
  incl ms (finditer pattern text) ->
  Forall (explained categories) (fst st) ->
  Forall (explained categories) (fst (fold_left (mstep category) ms st)).
Proof.
  intros Hc Hp Hincl.
  apply (fold_left_keeps (fun st => Forall (explained categories) (fst st))).
  intros [fs k] m Hm Hfs. rewrite match_step_eq.
  destruct (pattern_kept category m) eqn:Hk; [|exact Hfs].
  simpl in *. apply Forall_app. split; [exact Hfs|].
  constructor; [|constructor].
  left. exists category, pattern, m, k. auto.
Qed.

Lemma category_fold_explained categories cs st :
  incl cs categories ->
  Forall (explained categories) (fst st) ->
  Forall (explained categories) (fst (fold_left cstep cs st)).
Proof.
  intros Hincl.
  apply (fold_left_keeps (fun st => Forall (explained categories) (fst st))).
  intros st' c Hc Hst'. unfold category_step.
  destruct (dict_get PATTERNS c) as [pattern|] eqn:Hp; [|exact Hst'].
  apply match_fold_explained with (pattern := pattern); auto.
  apply incl_refl.
Qed.

Lemma name_fold_explained categories inds st :
  incl inds NAME_INDICATORS ->
  Forall (explained categories) (fst st) ->
  Forall (explained categories) (fst (fold_left nstep inds st)).
Proof.
  intros Hincl.
  apply (fold_left_keeps (fun st => Forall (explained categories) (fst st))).
  intros [fs k] ind Hind Hfs. rewrite name_step_eq.
  destruct (name_kept ind) eqn:Hk; [|exact Hfs].
  simpl in *. apply Forall_app. split; [exact Hfs|].
  constructor; [|constructor].
  right. exists ind, k. auto.
Qed.

(** Every finding of the result is explained. *)
Lemma detect_explained categories drawn :
  Forall (explained categories) (detect categories drawn).
Proof.
  unfold detect_in_text, detect_in_text_from.
  assert (H : Forall (explained categories)
                (fst (fold_left cstep categories ([], drawn)))).
  { apply category_fold_explained; [apply incl_refl | constructor]. }
  destruct (existsb (String.eqb "NAME") categories); [|exact H].
  apply name_fold_explained; [apply incl_refl | exact H].
Qed.

(** The steps only add findings. *)
Lemma match_fold_keeps_findings category ms st f :
  In f (fst st) -> In f (fst (fold_left (mstep category) ms st)).
Proof.
  apply (fold_left_keeps (fun st => In f (fst st))).
  intros [fs k] m _ Hf. rewrite match_step_eq.
  destruct (pattern_kept category m); simpl in *; [|exact Hf].
  apply in_or_app. now left.
Qed.

Lemma category_fold_keeps_findings cs st f :
  In f (fst st) -> In f (fst (fold_left cstep cs st)).
Proof.
  apply (fold_left_keeps (fun st => In f (fst st))).
  intros st' c _ Hf. unfold category_step.
  destruct (dict_get PATTERNS c); [|exact Hf].
  now apply match_fold_keeps_findings.
Qed.

Lemma name_fold_keeps_findings inds st f :
  In f (fst st) -> In f (fst (fold_left nstep inds st)).
Proof.
  apply (fold_left_keeps (fun st => In f (fst st))).
  intros [fs k] ind _ Hf. rewrite name_step_eq.
  destruct (name_kept ind); simpl in *; [|exact Hf].
  apply in_or_app. now left.
Qed.

(** A kept match of a scanned pattern is among the findings. *)
Lemma match_fold_complete category m :
  pattern_kept category m = true ->
  forall ms st, In m ms ->
  exists drawn,
    In (pattern_finding category m drawn) (fst (fold_left (mstep category) ms st)).
Proof.
  intros Hk. induction ms as [|m' ms IH]; intros [fs k] Hin; [destruct Hin|].
  cbn [fold_left]. destruct Hin as [->|Hin].
  - exists k. apply match_fold_keeps_findings.
    rewrite match_step_eq, Hk. simpl. apply in_or_app. right. now left.
  - apply IH. exact Hin.
Qed.

Lemma category_fold_complete category pattern m :
  dict_get PATTERNS category = Some pattern ->
  In m (finditer pattern text) ->
  pattern_kept category m = true ->
  forall cs st, In category cs ->
  exists drawn,
    In (pattern_finding category m drawn) (fst (fold_left cstep cs st)).
Proof.
  intros Hp Hm Hk. induction cs as [|c cs IH]; intros st Hin; [destruct Hin|].
  cbn [fold_left]. destruct Hin as [->|Hin].
  - destruct (match_fold_complete category m Hk (finditer pattern text) st Hm)
      as [k Hf].
    exists k. apply category_fold_keeps_findings.
    unfold category_step. rewrite Hp. exact Hf.
  - apply IH. exact Hin.
Qed.

Lemma detect_complete categories drawn category pattern m :
  In category categories ->
  dict_get PATTERNS category = Some pattern ->
  In m (finditer pattern text) ->
  pattern_kept category m = true ->
  exists k, In (pattern_finding category m k) (detect categories drawn).
Proof.
  intros Hc Hp Hm Hk.
  destruct (category_fold_complete category pattern m Hp Hm Hk categories
              ([], drawn) Hc) as [k Hf].
  exists k. unfold detect_in_text, detect_in_text_from.
  destruct (existsb (String.eqb "NAME") categories); [|exact Hf].
  now apply name_fold_keeps_findings.
Qed.

(** The confidence of "NAME" does not depend on the text. *)
Lemma name_confidence (s : string) : calculate_confidence "NAME" s = 0.75%float.
Proof. reflexivity. Qed.

Lemma name_is_no_pattern : dict_get PATTERNS "NAME" = None.
Proof. reflexivity. Qed.

Lemma explained_confidence categories f :
  explained categories f ->
  f_confidence f = calculate_confidence (f_category f) (f_text f)
  /\ (threshold <=? f_confidence f)%float = true.
Proof.
  intros [(c & p & m & k & _ & _ & _ & Hk & ->) | (ind & k & _ & Hk & ->)].
  - split; [reflexivity | exact Hk].
  - split.
    + simpl. now rewrite !name_confidence.
    + unfold name_kept in Hk. simpl.
      apply andb_true_iff in Hk. exact (proj2 Hk).
Qed.

Lemma explained_name_bbox categories f :
  explained categories f -> f_category f = "NAME" -> f_bbox f = bbox.
Proof.
  intros [(c & p & m & k & _ & Hp & _ & _ & ->) | (ind & k & _ & _ & ->)] Hc.
  - simpl in Hc. subst c. rewrite name_is_no_pattern in Hp. discriminate.
  - reflexivity.
Qed.

Lemma match_bbox_claimed s e :
  match_bbox text bbox s e = claimed_projection text bbox s e.
Proof.
  unfold match_bbox, claimed_projection.
  destruct (String.length text); reflexivity.
Qed.

End DetectorProperties.

(** C1: every finding that [detect_in_text] returns carries the confidence
    that [calculate_confidence] gives its category and text, and that
    confidence is at least the threshold of the call; a match that scores
    below the threshold is therefore not in the result. *)
Theorem detect_in_text_confidence_reaches_threshold :
  forall finditer uuid_hex8 text bbox page_num threshold categories drawn,
    Forall (fun f =>
              f_confidence f = calculate_confidence (f_category f) (f_text f)
              /\ (threshold <=? f_confidence f)%float = true)
      (detect_in_text finditer uuid_hex8 text bbox page_num threshold
         categories drawn).
Proof.
  intros. eapply Forall_impl; [|apply detect_explained].
  intros f Hf. eapply explained_confidence. exact Hf.
Qed.

(** C10: every finding of category "NAME" in the result carries the box of
    the whole span, whatever the text and wherever the name stands in it. *)
Theorem name_findings_carry_span_bbox :
  forall finditer uuid_hex8 text bbox page_num threshold categories drawn,
    Forall (fun f => f_category f = "NAME" -> f_bbox f = bbox)
      (detect_in_text finditer uuid_hex8 text bbox page_num threshold
         categories drawn).
Proof.
  intros. eapply Forall_impl; [|apply detect_explained].
  intros f Hf. eapply explained_name_bbox. exact Hf.
Qed.

(** A name in the middle of a span: its finding has the box of the span,
    the finding of the pattern match beside it a projected one. *)
Example name_bbox_in_mid_span :
  map (fun f => (f_category f, f_text f, f_bbox f))
    (detect_in_text Re.finditer counting_hex8
       "SSN 123-45-6789 belongs to Dr. Jo Smith." span_box 1 0.7
       ["SSN"; "NAME"] 0)
  = [ ("SSN", "123-45-6789", mkBBox 20 0 75 10);
      ("NAME", "Dr. Jo Smith.", span_box) ].
Proof. vm_compute. reflexivity. Qed.

Lemma match_step_same_findings u u' text bbox page_num threshold category :
  forall st st' m,
    same_findings st st' ->
    same_findings
      (match_step u text bbox page_num threshold category st m)
      (match_step u' text bbox page_num threshold category st' m).
Proof.
  intros [fs k] [fs' k'] m H. unfold same_findings in *.
  rewrite !match_step_eq.
  destruct (pattern_kept text threshold category m); simpl in *; [|exact H].
  rewrite !map_app, H. reflexivity.
Qed.

Lemma name_step_same_findings u u' text bbox page_num threshold :
  forall st st' indicator,
    same_findings st st' ->
    same_findings
      (name_step u text bbox page_num threshold st indicator)
      (name_step u' text bbox page_num threshold st' indicator).
Proof.
  intros [fs k] [fs' k'] ind H. unfold same_findings in *.
  rewrite !name_step_eq.
  destruct (name_kept text threshold ind); simpl in *; [|exact H].
  rewrite !map_app, H. reflexivity.
Qed.

(** C9: two runs of [detect_in_text] on the same text, box, page,
    categories and threshold return the same findings in the same order,
    whatever identifiers the random source hands out in each run: with the
    identifiers erased, the two results are equal. *)
Theorem detect_in_text_same_up_to_ids :
  forall finditer uuid_hex8 uuid_hex8' text bbox page_num threshold
         categories drawn drawn',
    map erase_id
      (detect_in_text finditer uuid_hex8 text bbox page_num threshold
         categories drawn)
    = map erase_id
        (detect_in_text finditer uuid_hex8' text bbox page_num threshold
           categories drawn').
Proof.
  intros. unfold detect_in_text, detect_in_text_from.
  assert (H : same_findings
                (fold_left
                   (category_step finditer uuid_hex8 text bbox page_num threshold)
                   categories ([], drawn))
                (fold_left
                   (category_step finditer uuid_hex8' text bbox page_num threshold)
                   categories ([], drawn'))).
  { apply fold_left_related; [|reflexivity].
    intros st st' c Hst. unfold category_step.
    destruct (dict_get PATTERNS c); [|exact Hst].
    apply fold_left_related; [|exact Hst].
    intros a b m. apply match_step_same_findings. }
  destruct (existsb (String.eqb "NAME") categories); [|exact H].
  apply (fold_left_related same_findings); [|exact H].
  intros a b ind. apply name_step_same_findings.
Qed.

(** The identifiers do differ between two runs that draw differently. *)
Example ids_differ_between_runs :
  map f_id
    (detect_in_text Re.finditer counting_hex8 "SSN: 123-45-6789 end" span_box
       3 0.7 ["SSN"] 0) = ["SSN_3_00000000"]
  /\ map f_id
       (detect_in_text Re.finditer counting_hex8 "SSN: 123-45-6789 end" span_box
          3 0.7 ["SSN"] 2748) = ["SSN_3_00000abc"].
Proof. split; vm_compute; reflexivity. Qed.

(** C8: a requested category that is no key of [PATTERNS] and is not "NAME"
    changes nothing: the run with it returns what the run without it
    returns (findings and identifiers drawn), and no finding has that
    category.  The function is total, so no error arises. *)
Theorem unknown_category_is_skipped :
  forall finditer uuid_hex8 text bbox page_num threshold before unknown after drawn,
    dict_get PATTERNS unknown = None ->
    unknown <> "NAME" ->
    detect_in_text_from finditer uuid_hex8 text bbox page_num threshold
      (before ++ unknown :: after) drawn
    = detect_in_text_from finditer uuid_hex8 text bbox page_num threshold
        (before ++ after) drawn
    /\ Forall (fun f => f_category f <> unknown)
         (detect_in_text finditer uuid_hex8 text bbox page_num threshold
            (before ++ unknown :: after) drawn).
Proof.
  intros finditer u text bbox page t before c after drawn Hp Hn. split.
  - unfold detect_in_text_from.
    assert (Hskip : forall st,
               category_step finditer u text bbox page t st c = st).
    { intros st. unfold category_step. now rewrite Hp. }
    rewrite !fold_left_app. cbn [fold_left]. rewrite Hskip.
    rewrite !existsb_app. cbn [existsb].
    replace ("NAME" =? c) with false; [reflexivity|].
    symmetry. apply String.eqb_neq. congruence.
  - eapply Forall_impl; [|apply detect_explained].
    intros f [(c' & p & m & k & _ & Hp' & _ & _ & ->) | (ind & k & _ & _ & ->)];
      simpl; intros Heq.
    + subst c'. rewrite Hp in Hp'. discriminate.
    + apply Hn. now symmetry.
Qed.

(** C8 on a run: "PASSPORT" between "SSN" and "NAME". *)
Lemma unknown_category_is_skipped_witness :
  detect_in_text_from Re.finditer counting_hex8
    "Dr. John Smith has SSN 123-45-6789" span_box 1 0.7
    (["SSN"] ++ "PASSPORT" :: ["NAME"]) 0
  = detect_in_text_from Re.finditer counting_hex8
      "Dr. John Smith has SSN 123-45-6789" span_box 1 0.7
      (["SSN"] ++ ["NAME"]) 0
  /\ Forall (fun f => f_category f <> "PASSPORT")
       (detect_in_text Re.finditer counting_hex8
          "Dr. John Smith has SSN 123-45-6789" span_box 1 0.7
          (["SSN"] ++ "PASSPORT" :: ["NAME"]) 0).
Proof.
  apply (unknown_category_is_skipped Re.finditer counting_hex8
           "Dr. John Smith has SSN 123-45-6789" span_box 1 0.7
           ["SSN"] "PASSPORT" ["NAME"] 0).
  - reflexivity.
  - discriminate.
Defined.

(** C6: the box of a pattern finding is the projection of its match.
    Every finding of a pattern category comes from a match [(s, e)] of the
    pattern of its category, has the matched text, and has the box
    [[x0 + (x1 - x0) * (s / len), y0, x0 + (x1 - x0) * (e / len), y1]] in
    binary64 arithmetic, or the box of the span when the text is empty; and
    every match of a requested pattern that reaches the threshold has such
    a finding.  A text of length 10 in the box [[0, 0, 100, 10]] projects
    the offsets (2, 5) to [[20, 0, 50, 10]]. *)
Theorem pattern_finding_bbox_is_projection :
  forall finditer uuid_hex8 text bbox page_num threshold categories drawn,
    (forall f,
        In f (detect_in_text finditer uuid_hex8 text bbox page_num threshold
                categories drawn) ->
        f_category f <> "NAME" ->
        exists pattern s e,
          dict_get PATTERNS (f_category f) = Some pattern
          /\ In (s, e) (finditer pattern text)
          /\ f_text f = slice s e text
          /\ f_bbox f = claimed_projection text bbox s e)
    /\ (forall category pattern s e,
           In category categories ->
           dict_get PATTERNS category = Some pattern ->
           In (s, e) (finditer pattern text) ->
           (threshold <=? calculate_confidence category (slice s e text))%float
           = true ->
           exists f,
             In f (detect_in_text finditer uuid_hex8 text bbox page_num
                     threshold categories drawn)
             /\ f_category f = category
             /\ f_text f = slice s e text
             /\ f_bbox f = claimed_projection text bbox s e)
    /\ match_bbox "0123456789" (mkBBox 0 0 100 10) 2 5 = mkBBox 20 0 50 10
    /\ (forall s e, match_bbox "" bbox s e = bbox).
Proof.
  intros finditer u text bbox page t categories drawn.
  split; [|split; [|split]].
  - intros f Hin Hcat.
    pose proof (detect_explained finditer u text bbox page t categories drawn)
      as Hall.
    rewrite Forall_forall in Hall.
    destruct (Hall f Hin)
      as [(c & p & [s e] & k & _ & Hp & Hm & _ & ->) | (ind & k & _ & _ & ->)].
    + exists p, s, e. simpl. repeat split; auto. apply match_bbox_claimed.
    + now elim Hcat.
  - intros c p s e Hc Hp Hm Hk.
    destruct (detect_complete finditer u text bbox page t categories drawn
                c p (s, e) Hc Hp Hm Hk) as [k Hf].
    eexists. split; [exact Hf|]. simpl. repeat split. apply match_bbox_claimed.
  - vm_compute. reflexivity.
  - reflexivity.
Qed.

(** The second part of C6 on a run: the match (5, 16) of the SSN pattern in
    a text of 20 characters, in a span 200 wide, lies between 50 and 160. *)
Lemma pattern_finding_bbox_witness :
  exists f,
    In f (detect_in_text Re.finditer counting_hex8 "SSN: 123-45-6789 end"
            span_box 1 0.7 ["SSN"] 0)
    /\ f_category f = "SSN"
    /\ f_text f = "123-45-6789"
    /\ f_bbox f = mkBBox 50 0 160 10.
Proof.
  exact (proj1 (proj2 (pattern_finding_bbox_is_projection Re.finditer
                         counting_hex8 "SSN: 123-45-6789 end" span_box 1 0.7
                         ["SSN"] 0))
           "SSN" "\b\d{3}-\d{2}-\d{4}\b" 5 16
           (or_introl eq_refl) eq_refl (or_introl eq_refl) eq_refl).
Defined.

(* ================================================================== *)
(** ** Properties of [luhn_check] *)
(* ================================================================== *)

Lemma odd_mod2 (i : nat) : Nat.odd i = (i mod 2 =? 1)%nat.
Proof.
  rewrite <- Nat.bit0_mod, Nat.bit0_odd. now destruct (Nat.odd i).
Qed.

Lemma luhn_loop_sum (l : list Z) :
  forall i checksum,
    luhn_loop l i checksum
    = (checksum
       + Zsum (map (fun j => luhn_term (i + j) (nth j l 0%Z))
                 (seq 0 (List.length l))))%Z.
Proof.
  induction l as [|d l IH]; intros i acc.
  - simpl. lia.
  - cbn [luhn_loop List.length]. rewrite IH.
    rewrite <- cons_seq, <- seq_shift. cbn [map]. rewrite map_map.
    cbn [Zsum fold_right nth].
    replace (i + 0)%nat with i by lia.
    assert (Hterm :
      (if (i mod 2 =? 1)%nat
       then (if (d * 2 >? 9)%Z then d * 2 - 9 else d * 2)%Z
       else d) = luhn_term i d).
    { unfold luhn_term. rewrite odd_mod2.
      destruct (i mod 2 =? 1)%nat; [|reflexivity].
      rewrite Z.gtb_ltb, (Z.mul_comm d 2). reflexivity. }
    rewrite Hterm.
    assert (Hmap :
      map (fun j => luhn_term (S i + j) (nth j l 0%Z)) (seq 0 (List.length l))
      = map (fun j => luhn_term (i + S j) (nth j l 0%Z)) (seq 0 (List.length l))).
    { apply map_ext. intros j. now rewrite Nat.add_succ_r. }
    rewrite Hmap. fold (Zsum (map (fun j => luhn_term (i + S j) (nth j l 0%Z))
                                (seq 0 (List.length l)))).
    lia.
Qed.

(** The loop over the reversed digits computes the sum of the
    specification. *)
Lemma luhn_loop_claimed (ds : list Z) :
  luhn_loop (rev ds) 0 0%Z = claimed_luhn_sum ds.
Proof.
  rewrite luhn_loop_sum. unfold claimed_luhn_sum.
  rewrite length_rev. cbn [Z.add]. f_equal.
  apply map_ext_in. intros j Hj. apply in_seq in Hj.
  cbn [Nat.add]. rewrite rev_nth by lia.
  f_equal. f_equal. lia.
Qed.

Lemma isdecimal_isdigit (c : ascii) : isdecimal c = true -> isdigit c = true.
Proof. unfold isdigit. now intros ->. Qed.

Lemma luhn_digits_of_decimal (l : list ascii) :
  forallb (fun c => implb (isdigit c) (isdecimal c)) l = true ->
  mapM int_of_char (filter isdigit l) = Ok (digit_values decimal_value l).
Proof.
  induction l as [|c l IH]; intros H; [reflexivity|].
  cbn [forallb] in H. apply andb_true_iff in H. destruct H as [Hc Hl].
  cbn [filter digit_values]. unfold decimal_value at 1.
  destruct (isdigit c) eqn:Hd; cbn [implb] in Hc.
  - rewrite Hc. cbn [mapM]. unfold int_of_char at 1. rewrite Hc.
    cbn [bind]. rewrite (IH Hl). reflexivity.
  - destruct (isdecimal c) eqn:He.
    + apply isdecimal_isdigit in He. congruence.
    + apply IH, Hl.
Qed.

Lemma luhn_digits_of_other (l : list ascii) :
  forallb (fun c => implb (isdigit c) (isdecimal c)) l = false ->
  mapM int_of_char (filter isdigit l) = Raise ValueError.
Proof.
  induction l as [|c l IH]; intros H; [discriminate|].
  cbn [forallb] in H. cbn [filter].
  destruct (isdigit c) eqn:Hd; cbn [implb] in H.
  - cbn [mapM]. unfold int_of_char at 1.
    destruct (isdecimal c); cbn [andb] in H; cbn [bind]; [|reflexivity].
    now rewrite (IH H).
  - apply IH, H.
Qed.

Lemma unicode_isdigit_latin1 (c : ascii) : Unicode.isdigit (ord c) = isdigit c.
Proof.
  destruct c as [[] [] [] [] [] [] [] []]; vm_compute; reflexivity.
Qed.

Lemma unicode_decimal_latin1 (c : ascii) :
  Unicode.decimal (ord c) = decimal_value c.
Proof.
  destruct c as [[] [] [] [] [] [] [] []]; vm_compute; reflexivity.
Qed.

Lemma unicode_luhn_digits_latin1 (l : list ascii) :
  mapM Unicode.int_of_char (filter Unicode.isdigit (map ord l))
  = mapM int_of_char (filter isdigit l).
Proof.
  induction l as [|c l IH]; [reflexivity|].
  cbn [map filter]. rewrite unicode_isdigit_latin1.
  destruct (isdigit c); [|exact IH].
  cbn [mapM]. rewrite IH. f_equal.
  unfold Unicode.int_of_char, int_of_char.
  rewrite unicode_decimal_latin1. unfold decimal_value.
  now destruct (isdecimal c).
Qed.

(** On a string of code points up to U+00FF, the check on all code points
    is the check of the strings above. *)
Lemma unicode_luhn_check_latin1 (s : string) :
  Unicode.luhn_check (code_points s) = luhn_check s.
Proof.
  unfold Unicode.luhn_check, Unicode.luhn_check_body, Unicode.luhn_digits,
    luhn_check, luhn_check_body, luhn_digits, code_points.
  now rewrite unicode_luhn_digits_latin1.
Qed.

Lemma unicode_isdecimal_isdigit (c : N) :
  Unicode.isdecimal c = true -> Unicode.isdigit c = true.
Proof. unfold Unicode.isdigit. now intros ->. Qed.

Lemma unicode_digits_of_decimal (l : list N) :
  points_are_decimal l = true ->
  mapM Unicode.int_of_char (filter Unicode.isdigit l) = Ok (point_values l).
Proof.
  unfold points_are_decimal.
  induction l as [|c l IH]; intros H; [reflexivity|].
  cbn [forallb] in H. apply andb_true_iff in H. destruct H as [Hc Hl].
  cbn [filter point_values].
  destruct (Unicode.isdigit c) eqn:Hd; cbn [implb] in Hc.
  - cbn [mapM]. unfold Unicode.int_of_char at 1.
    unfold Unicode.isdecimal in Hc.
    destruct (Unicode.decimal c) as [v|]; [|discriminate].
    cbn [bind]. now rewrite (IH Hl).
  - destruct (Unicode.decimal c) as [v|] eqn:He; [|apply IH, Hl].
    assert (Unicode.isdecimal c = true)
      by (unfold Unicode.isdecimal; now rewrite He).
    apply unicode_isdecimal_isdigit in H. congruence.
Qed.

Lemma unicode_digits_of_other (l : list N) :
  points_are_decimal l = false ->
  mapM Unicode.int_of_char (filter Unicode.isdigit l) = Raise ValueError.
Proof.
  unfold points_are_decimal.
  induction l as [|c l IH]; intros H; [discriminate|].
  cbn [forallb] in H. cbn [filter].
  destruct (Unicode.isdigit c) eqn:Hd; cbn [implb] in H.
  - cbn [mapM]. unfold Unicode.int_of_char at 1.
    unfold Unicode.isdecimal in H.
    destruct (Unicode.decimal c) as [v|]; cbn [andb] in H; cbn [bind];
      [|reflexivity].
    now rewrite (IH H).
  - apply IH, H.
Qed.

(** C2, amended: on every string, [luhn_check] keeps the characters that
    [isdigit] accepts.  When all of them are decimal digits, those of 0-9
    or of another script such as the Arabic-Indic or the fullwidth digits,
    each with its value, it returns false for fewer than 13 or more than
    19 digits and otherwise says whether the Luhn sum (every second digit
    from the right doubled, less 9 above 9) is divisible by 10; when one
    of them is not a decimal digit (a superscript, a subscript, a circled
    digit), its conversion fails and the function returns false.  On the
    strings of code points up to U+00FF this is the check of the other
    theorems, where the decimal digits are 0-9.  "4532015112830366" is
    valid, in Arabic-Indic digits too, and "4532015112830367" is not, in
    fullwidth digits either; a subscript two in front of a valid number
    makes it invalid.  The result is always a boolean: no exception
    leaves the function. *)
Theorem luhn_check_on_decimal_digits :
  (forall card_number : list N,
      Unicode.luhn_check card_number
      = if points_are_decimal card_number
        then claimed_luhn_points card_number else false)
  /\ (forall s : string,
         Unicode.luhn_check (code_points s) = luhn_check s
         /\ luhn_check s
            = if digits_are_decimal s then claimed_luhn decimal_value s
              else false)
  /\ luhn_check "4532015112830366" = true
  /\ luhn_check "4532015112830367" = false
  /\ Unicode.luhn_check (in_script 1632 "4532015112830366") = true
  /\ Unicode.luhn_check (in_script 65296 "4532015112830367") = false
  /\ Unicode.luhn_check (8322%N :: code_points "4532015112830366") = false.
Proof.
  split; [|split; [|repeat split; vm_compute; reflexivity]].
  - intros l. unfold Unicode.luhn_check, Unicode.luhn_check_body,
      Unicode.luhn_digits.
    destruct (points_are_decimal l) eqn:H.
    + rewrite (unicode_digits_of_decimal _ H). cbn [bind].
      unfold claimed_luhn_points.
      destruct ((_ <? 13)%nat || _); [reflexivity|].
      now rewrite luhn_loop_claimed.
    + now rewrite (unicode_digits_of_other _ H).
  - intros s. split; [apply unicode_luhn_check_latin1|].
    unfold luhn_check, luhn_check_body, luhn_digits, digits_are_decimal.
    destruct (forallb _ (chars s)) eqn:H.
    + rewrite (luhn_digits_of_decimal _ H). cbn [bind].
      unfold claimed_luhn.
      destruct ((_ <? 13)%nat || _); [reflexivity|].
      now rewrite luhn_loop_claimed.
    + now rewrite (luhn_digits_of_other _ H).
Qed.

(** C2 as stated fails on a string with superscript digits: sixteen decimal
    digits that pass the Luhn check remain, and the superscripts counted as
    the digits 2, 3, 2 leave the sum divisible by 10 too, yet the result is
    false. *)
Lemma luhn_check_rejects_superscript_digits :
  luhn_check superscript_card = false
  /\ claimed_luhn decimal_value superscript_card = true
  /\ claimed_luhn unicode_digit_value superscript_card = true
  /\ Unicode.luhn_check (code_points superscript_card) = false.
Proof. repeat split; vm_compute; reflexivity. Qed.

(* ================================================================== *)
(** ** Splitting, stripping and words *)
(* ================================================================== *)

Lemma string_of_list_app (l1 l2 : list ascii) :
  string_of_list_ascii (l1 ++ l2)
  = (string_of_list_ascii l1 ++ string_of_list_ascii l2)%string.
Proof. induction l1 as [|c l1 IH]; simpl; [reflexivity | now rewrite IH]. Qed.

Lemma append_empty_r (s : string) : (s ++ "")%string = s.
Proof. induction s as [|c s IH]; simpl; [reflexivity | now rewrite IH]. Qed.

Lemma append_assoc (a b c : string) :
  ((a ++ b) ++ c)%string = (a ++ (b ++ c))%string.
Proof. induction a as [|x a IH]; simpl; [reflexivity | now rewrite IH]. Qed.

Lemma prefix_length (p : string) :
  forall s, prefix p s = true -> String.length p <= String.length s.
Proof.
  induction p as [|a p IH]; intros s H; simpl; [lia|].
  destruct s as [|b s]; simpl in H; [discriminate|].
  destruct (ascii_dec a b); [|discriminate].
  apply IH in H. simpl. lia.
Qed.

Lemma split_from_skip (sep : string) :
  forall s skip cur,
    skip <= String.length s ->
    split_from sep s skip cur = split_from sep (drop skip s) 0 cur.
Proof.
  induction s as [|c s IH]; intros skip cur H.
  - simpl in H. assert (skip = 0) as -> by lia. reflexivity.
  - destruct skip as [|k]; [reflexivity|].
    simpl in H. cbn [split_from drop]. apply IH. lia.
Qed.

Lemma before_first_absent (sep : string) :
  forall s, contains sep s = false -> before_first sep s = s.
Proof.
  induction s as [|c s IH]; intros H; [reflexivity|].
  cbn [contains] in H. apply orb_false_iff in H. destruct H as [Hp Hc].
  cbn [before_first]. rewrite Hp, (IH Hc). reflexivity.
Qed.

(** The first piece of a split, and where the split goes on. *)
Lemma split_from_first (a : ascii) (sep' : string) :
  let sep := String a sep' in
  forall s cur,
    split_from sep s 0 cur
    = if contains sep s
      then (string_of_list_ascii (rev cur) ++ before_first sep s)%string
             :: split_from sep (after_first sep s) 0 []
      else [(string_of_list_ascii (rev cur) ++ s)%string].
Proof.
  intros sep. induction s as [|c s IH]; intros cur.
  - cbn. now rewrite append_empty_r.
  - cbn [split_from contains before_first after_first].
    destruct (prefix sep (String c s)) eqn:Hp; cbn [orb].
    + rewrite append_empty_r. f_equal.
      assert (Hlen : String.length sep' <= String.length s).
      { apply prefix_length in Hp. simpl in Hp. lia. }
      change (String.length sep) with (S (String.length sep')).
      cbn [drop].
      replace (S (String.length sep') - 1) with (String.length sep') by lia.
      now apply split_from_skip.
    + rewrite IH. cbn [rev]. rewrite string_of_list_app. cbn.
      destruct (contains sep s); now rewrite append_assoc.
Qed.

(** The second piece of a split by an indicator that occurs: the text
    between its first occurrence and the next one. *)
Lemma split_second_piece (a : ascii) (sep' text : string) :
  contains (String a sep') text = true ->
  (1 <? List.length (split (String a sep') text))%nat = true
  /\ nth 1 (split (String a sep') text) ""
     = before_first (String a sep') (after_first (String a sep') text).
Proof.
  intros H. unfold split.
  pose proof (split_from_first a sep' text []) as E1.
  pose proof (split_from_first a sep'
                (after_first (String a sep') text) []) as E2.
  cbv zeta in E1, E2. rewrite E1, H, E2.
  destruct (contains (String a sep') (after_first (String a sep') text)) eqn:H2.
  - split; reflexivity.
  - split; [reflexivity|]. cbn. now rewrite before_first_absent.
Qed.

Lemma words_lstrip (s : string) :
  words_from (lstrip_by isspace s) [] = words_from s [].
Proof.
  induction s as [|c s IH]; [reflexivity|].
  cbn [lstrip_by]. destruct (isspace c) eqn:Hc; [|reflexivity].
  rewrite IH. cbn [words_from]. now rewrite Hc.
Qed.

Lemma words_rstrip (s : string) :
  forall cur, words_from (rstrip_by isspace s) cur = words_from s cur.
Proof.
  induction s as [|c s IH]; intros cur; [reflexivity|].
  cbn [rstrip_by].
  destruct (rstrip_by isspace s) as [|b r] eqn:Hr.
  - destruct (isspace c) eqn:Hc.
    + cbn [words_from]. rewrite Hc, <- IH. reflexivity.
    + cbn [words_from]. rewrite Hc, <- IH. reflexivity.
  - cbn [words_from]. destruct (isspace c); now rewrite <- IH.
Qed.

(** Stripping first does not change the words. *)
Lemma words_strip (s : string) : words (strip s) = words s.
Proof. unfold words, strip. now rewrite words_rstrip, words_lstrip. Qed.

Lemma string_of_list_nonempty (l : list ascii) :
  l <> [] -> string_of_list_ascii l <> "".
Proof. destruct l; [congruence | discriminate]. Qed.

Lemma words_from_nonempty (s : string) :
  forall cur, Forall (fun w => w <> "") (words_from s cur).
Proof.
  assert (Hflush : forall (cur : list ascii) rest,
             Forall (fun w => w <> "") rest ->
             Forall (fun w => w <> "")
               match cur with
               | [] => rest
               | _ => string_of_list_ascii (rev cur) :: rest
               end).
  { intros [|c cur] rest Hrest; [exact Hrest|].
    constructor; [|exact Hrest].
    apply string_of_list_nonempty. cbn [rev].
    intros E. apply app_eq_nil in E. destruct E. discriminate. }
  induction s as [|c s IH]; intros cur.
  - cbn [words_from]. apply Hflush. constructor.
  - cbn [words_from]. destruct (isspace c); [apply Hflush|]; apply IH.
Qed.

Lemma Forall_firstn {A : Type} (P : A -> Prop) (n : nat) :
  forall l, Forall P l -> Forall P (firstn n l).
Proof.
  induction n as [|n IH]; intros l H; [constructor|].
  destruct H; cbn [firstn]; constructor; auto.
Qed.

Lemma all_capitalized_starts_upper (l : list string) :
  Forall (fun w => w <> "") l ->
  all_capitalized l = forallb starts_upper l.
Proof.
  induction 1 as [|w l Hw _ IH]; [reflexivity|].
  unfold all_capitalized in *. cbn [forallb]. rewrite IH.
  destruct w; [congruence | reflexivity].
Qed.

(* ================================================================== *)
(** ** The name heuristic of [detect_in_text] *)
(* ================================================================== *)

Lemma filter_none {A : Type} (p : A -> bool) (l : list A) :
  Forall (fun x => p x = false) l -> filter p l = [].
Proof.
  induction 1 as [|x l Hx _ IH]; [reflexivity|].
  cbn [filter]. now rewrite Hx.
Qed.

Lemma filter_erase_id (l : list Finding) :
  map erase_id (filter is_name l) = filter is_name (map erase_id l).
Proof.
  induction l as [|f l IH]; [reflexivity|].
  cbn [filter map]. change (is_name (erase_id f)) with (is_name f).
  destruct (is_name f); cbn [map]; now rewrite IH.
Qed.

Lemma flat_map_ext_in {A B : Type} (f g : A -> list B) (l : list A) :
  (forall x, In x l -> f x = g x) -> flat_map f l = flat_map g l.
Proof.
  induction l as [|x l IH]; intros H; [reflexivity|].
  cbn [flat_map]. rewrite (H x (or_introl eq_refl)), IH; [reflexivity|].
  intros y Hy. apply H. now right.
Qed.

Lemma indicators_nonempty (indicator : string) :
  In indicator NAME_INDICATORS -> exists a rest, indicator = String a rest.
Proof.
  intros H. repeat (destruct H as [<-|H]; [eexists; eexists; reflexivity|]).
  destruct H.
Qed.

Section NameHeuristic.

Variable finditer : string -> string -> list (nat * nat).
Variable uuid_hex8 : nat -> string.
Variable text : string.
Variable bbox : BBox.
Variable page_num : Z.
Variable threshold : float.

Local Abbreviation name_contribution :=
  (name_contribution uuid_hex8 text bbox page_num threshold).

Lemma name_fold_erased (inds : list string) :
  forall fs drawn,
    map erase_id
      (fst (fold_left (name_step uuid_hex8 text bbox page_num threshold) inds
              (fs, drawn)))
    = map erase_id fs ++ flat_map name_contribution inds.
Proof.
  induction inds as [|ind inds IH]; intros fs k.
  - cbn. now rewrite app_nil_r.
  - cbn [fold_left flat_map]. rewrite name_step_eq.
    unfold name_contribution at 1.
    destruct (name_kept text threshold ind).
    + rewrite IH, map_app, <- app_assoc. reflexivity.
    + now rewrite IH.
Qed.

Lemma name_contribution_is_name (inds : list string) :
  filter is_name (flat_map name_contribution inds)
  = flat_map name_contribution inds.
Proof.
  induction inds as [|ind inds IH]; [reflexivity|].
  cbn [flat_map]. rewrite filter_app, IH. f_equal.
  unfold name_contribution. now destruct (name_kept text threshold ind).
Qed.

Lemma pattern_part_has_no_name (categories : list string) (drawn : nat) :
  Forall (fun f => is_name f = false)
    (fst (fold_left
            (category_step finditer uuid_hex8 text bbox page_num threshold)
            categories ([], drawn))).
Proof.
  apply (fold_left_keeps (fun st => Forall (fun f => is_name f = false) (fst st)));
    [|constructor].
  intros st c _ Hst. unfold category_step.
  destruct (dict_get PATTERNS c) as [pattern|] eqn:Hp; [|exact Hst].
  apply (fold_left_keeps (fun st => Forall (fun f => is_name f = false) (fst st)));
    [|exact Hst].
  intros [fs k] m _ Hfs. rewrite match_step_eq.
  destruct (pattern_kept text threshold c m); [|exact Hfs].
  cbn [fst] in *. apply Forall_app. split; [exact Hfs|].
  constructor; [|constructor].
  unfold is_name. cbn [pattern_finding f_category].
  apply String.eqb_neq. intros ->. rewrite name_is_no_pattern in Hp. discriminate.
Qed.

(** The contribution of an indicator is the name candidate of the
    specification, read up to the next occurrence and kept by the
    threshold. *)
Lemma name_contribution_candidate (a : ascii) (rest : string) :
  name_contribution (String a rest)
  = match name_candidate threshold (String a rest) text with
    | Some matched => [name_finding_of page_num bbox matched]
    | None => []
    end.
Proof.
  unfold name_contribution, name_kept, name_candidate, name_finding,
    words_after_indicator.
  destruct (contains (String a rest) text) eqn:Hc; [|reflexivity].
  destruct (split_second_piece a rest text Hc) as [Hlen Hnth].
  rewrite Hlen, Hnth, words_strip, !name_confidence.
  rewrite all_capitalized_starts_upper
    by (apply Forall_firstn, words_from_nonempty).
  cbn [andb].
  destruct (2 <=? _)%nat; [|reflexivity].
  destruct (forallb starts_upper _); [|reflexivity].
  cbn [andb]. destruct (threshold <=? 0.75)%float; reflexivity.
Qed.

End NameHeuristic.

(** C7, amended: the findings of category "NAME" in the result are, in the
    order of [NAME_INDICATORS] and identifiers apart, at most one per
    indicator.  An indicator contributes one exactly when "NAME" is
    requested, the indicator occurs in the text, the first three
    whitespace-delimited tokens between its first occurrence and its next
    one (or the end of the text) are at least two and all start with an
    uppercase letter, and the confidence of a name, 0.75, reaches the
    threshold; the matched text is the indicator, a space, and those tokens
    joined by spaces. *)
Theorem name_findings_of_detect_in_text :
  forall finditer uuid_hex8 text bbox page_num threshold categories drawn,
    map erase_id
      (filter is_name
         (detect_in_text finditer uuid_hex8 text bbox page_num threshold
            categories drawn))
    = if existsb (String.eqb "NAME") categories
      then flat_map
             (fun indicator =>
                match name_candidate threshold indicator text with
                | Some matched => [name_finding_of page_num bbox matched]
                | None => []
                end) NAME_INDICATORS
      else [].
Proof.
  intros finditer u text bbox page t categories drawn.
  pose proof (pattern_part_has_no_name finditer u text bbox page t categories
                drawn) as Hpat.
  unfold detect_in_text, detect_in_text_from.
  destruct (fold_left (category_step finditer u text bbox page t) categories
              ([], drawn)) as [fs k].
  cbn [fst] in Hpat.
  destruct (existsb (String.eqb "NAME") categories).
  - rewrite filter_erase_id, name_fold_erased, filter_app.
    rewrite <- filter_erase_id, (filter_none _ _ Hpat).
    cbn [map app]. rewrite name_contribution_is_name.
    apply flat_map_ext_in. intros ind Hind.
    destruct (indicators_nonempty ind Hind) as (a & rest & ->).
    apply name_contribution_candidate.
  - cbn [fst]. now rewrite (filter_none _ _ Hpat).
Qed.

(** C7 as stated fails in two ways.  With the threshold 0.8 the candidate
    of "Dr. John Smith" is not reported; and in "Dr. Alice Dr. Bob Carol"
    the three tokens after the first "Dr." are capitalized, yet nothing is
    reported, because only the text up to the second "Dr." is read. *)
Lemma name_heuristic_counterexample :
  claimed_name_candidate "Dr." "Dr. John Smith" = Some "Dr. John Smith"
  /\ detect_in_text Re.finditer counting_hex8 "Dr. John Smith" span_box 1 0.8
       ["NAME"] 0 = []
  /\ claimed_name_candidate "Dr." "Dr. Alice Dr. Bob Carol"
     = Some "Dr. Alice Dr. Bob"
  /\ detect_in_text Re.finditer counting_hex8 "Dr. Alice Dr. Bob Carol"
       span_box 1 0.7 ["NAME"] 0 = [].
Proof. repeat split; vm_compute; reflexivity. Qed.

(** Three tokens are read when there are three: in "Dr. John Smith has
    SSN 123-45-6789" the third one, "has", is not capitalized, so only the
    SSN is reported. *)
Example third_token_counts :
  map (fun f => (f_category f, f_text f))
    (detect_in_text Re.finditer counting_hex8
       "Dr. John Smith has SSN 123-45-6789" span_box 1 0.7 ["SSN"; "NAME"] 0)
  = [("SSN", "123-45-6789")].
Proof. vm_compute. reflexivity. Qed.

(** With the threshold 0.7 the name is reported. *)
Example name_reported :
  map (fun f => (f_id f, f_text f, f_confidence f))
    (detect_in_text Re.finditer counting_hex8 "Dr. John Smith" span_box 1 0.7
       ["NAME"] 0)
  = [("NAME_1_00000000", "Dr. John Smith", 0.75%float)].
Proof. vm_compute. reflexivity. Qed.

(* ================================================================== *)
(** ** Properties of [validate_redaction_area] *)
(* ================================================================== *)

(** The examples of the specification: a sane area is valid; a page beyond
    the page count, a width above 10,000 and a negative width are not; an
    entry that is no number is not either. *)
Example validate_examples :
  validate_redaction_area
    (area_of (PyInt 1) (PyInt 10) (PyInt 10) (PyInt 50) (PyInt 50)) 3 = Ok true
  /\ validate_redaction_area
       (area_of (PyInt 5) (PyInt 10) (PyInt 10) (PyInt 50) (PyInt 50)) 3 = Ok false
  /\ validate_redaction_area
       (area_of (PyInt 1) (PyInt 10) (PyInt 10) (PyInt 20000) (PyInt 10)) 3 = Ok false
  /\ validate_redaction_area
       (area_of (PyInt 1) (PyInt 10) (PyInt 10) (PyInt (-5)) (PyInt 10)) 3 = Ok false
  /\ validate_redaction_area
       (area_of (PyInt 1) (PyStr "ten") (PyInt 10) (PyInt 50) (PyInt 50)) 3 = Ok false
  /\ validate_redaction_area
       (area_of (PyStr "1") (PyInt 10) (PyInt 10) (PyInt 50) (PyInt 50)) 3 = Ok false
  /\ validate_redaction_area
       (area_of (PyInt 1) (PyStr " 1e1 ") (PyFloat 0.5) (PyStr "50") (PyBool true)) 3
     = Ok true.
Proof. repeat split; vm_compute; reflexivity. Qed.

(** C4 at the failing input: an area whose [x] is the integer 10^400 makes
    [float] raise [OverflowError], which the handler for [ValueError] and
    [TypeError] does not catch: the function raises instead of returning
    false, and the redaction loop ends with that exception. *)
Theorem validate_redaction_area_raises_overflow :
  validate_redaction_area area_with_huge_x 3 = Raise OverflowError
  /\ redact_areas [letter_page] [area_with_huge_x] = Raise OverflowError.
Proof. split; vm_compute; reflexivity. Qed.

(** What [float] can raise. *)
Lemma py_float_raises (v : pyval) (e : exn) :
  py_float v = Raise e -> e = ValueError \/ e = TypeError \/ e = OverflowError.
Proof.
  destruct v; cbn [py_float]; intros H; try discriminate;
    try (injection H as <-; auto; fail).
  - unfold py_float_of_int in H.
    destruct (binary_normalize prec emax n 0 false); try discriminate.
    injection H as <-. auto.
  - unfold py_float_of_str in H.
    destruct (float_of_chars _); [discriminate|]. injection H as <-. auto.
Qed.

Lemma py_lt_int_raises (v : pyval) (n : Z) (e : exn) :
  py_lt_int v n = Raise e -> e = TypeError.
Proof. destruct v; cbn; intros H; try discriminate; now injection H. Qed.

Lemma py_gt_int_raises (v : pyval) (n : Z) (e : exn) :
  py_gt_int v n = Raise e -> e = TypeError.
Proof. destruct v; cbn; intros H; try discriminate; now injection H. Qed.

(** An area is valid exactly when its four numbers convert and none of the
    rejecting comparisons holds. *)
Lemma validate_true_iff (area : list (string * pyval)) (page_count : Z) :
  validate_redaction_area area page_count = Ok true
  <-> exists x y width height, accepted_numbers area page_count x y width height.
Proof.
  unfold validate_redaction_area, validate_redaction_area_body, accepted_numbers.
  split.
  - intros H.
    destruct (py_float (get_default area "x" (PyInt 0))) as [x|e];
      [|destruct e; discriminate].
    destruct (py_float (get_default area "y" (PyInt 0))) as [y|e];
      [|destruct e; discriminate].
    destruct (py_float (get_default area "width" (PyInt 0))) as [w|e];
      [|destruct e; discriminate].
    destruct (py_float (get_default area "height" (PyInt 0))) as [h|e];
      [|destruct e; discriminate].
    cbn [bind] in H.
    destruct (py_lt_int (get_default area "page" (PyInt 1)) 1) as [[|]|e];
      [discriminate| |destruct e; discriminate].
    cbn [bind] in H.
    destruct (py_gt_int (get_default area "page" (PyInt 1)) page_count)
      as [[|]|e]; [discriminate| |destruct e; discriminate].
    cbn [bind] in H.
    exists x, y, w, h.
    destruct (x <? 0)%float; [discriminate|].
    destruct (y <? 0)%float; [discriminate|].
    destruct (w <=? 0)%float; [discriminate|].
    destruct (h <=? 0)%float; [discriminate|].
    destruct (10000 <? w)%float; [discriminate|].
    destruct (10000 <? h)%float; [discriminate|].
    repeat split; reflexivity.
  - intros (x & y & w & h & Hx & Hy & Hw & Hh & Hlt & Hgt
            & H1 & H2 & H3 & H4 & H5 & H6).
    rewrite Hx, Hy, Hw, Hh. cbn [bind]. rewrite Hlt. cbn [bind].
    rewrite Hgt. cbn [bind]. rewrite H1, H2, H3, H4, H5, H6. reflexivity.
Qed.

(** The validator returns a boolean or raises [OverflowError], and that
    only for an entry beyond the range of [float]. *)
Lemma validate_outcomes (area : list (string * pyval)) (page_count : Z) :
  (exists valid, validate_redaction_area area page_count = Ok valid)
  \/ (validate_redaction_area area page_count = Raise OverflowError
      /\ exists key,
           In key ["x"; "y"; "width"; "height"]
           /\ py_float (get_default area key (PyInt 0)) = Raise OverflowError).
Proof.
  unfold validate_redaction_area, validate_redaction_area_body.
  destruct (py_float (get_default area "x" (PyInt 0))) as [x|e] eqn:Hx.
  2:{ destruct (py_float_raises _ _ Hx) as [-> | [-> | ->]]; cbn; eauto.
      right. split; [reflexivity|]. exists "x". cbn. auto 10. }
  destruct (py_float (get_default area "y" (PyInt 0))) as [y|e] eqn:Hy.
  2:{ destruct (py_float_raises _ _ Hy) as [-> | [-> | ->]]; cbn; eauto.
      right. split; [reflexivity|]. exists "y". cbn. auto 10. }
  destruct (py_float (get_default area "width" (PyInt 0))) as [w|e] eqn:Hw.
  2:{ destruct (py_float_raises _ _ Hw) as [-> | [-> | ->]]; cbn; eauto.
      right. split; [reflexivity|]. exists "width". cbn. auto 10. }
  destruct (py_float (get_default area "height" (PyInt 0))) as [h|e] eqn:Hh.
  2:{ destruct (py_float_raises _ _ Hh) as [-> | [-> | ->]]; cbn; eauto.
      right. split; [reflexivity|]. exists "height". cbn. auto 10. }
  left. cbn [bind].
  destruct (py_lt_int (get_default area "page" (PyInt 1)) 1) as [below|e] eqn:Hlt.
  2:{ rewrite (py_lt_int_raises _ _ _ Hlt). cbn. eauto. }
  cbn [bind]. destruct below.
  { cbn. eauto. }
  destruct (py_gt_int (get_default area "page" (PyInt 1)) page_count)
    as [above|e] eqn:Hgt.
  2:{ rewrite (py_gt_int_raises _ _ _ Hgt). cbn. eauto. }
  cbn [bind]. destruct above; [cbn; eauto|].
  destruct (_ || _ || _ || _); [eauto|].
  destruct (_ || _); eauto.
Qed.

(** *** Comparisons that a NaN passes *)

Lemma SFcompare_antisym (x y : spec_float) :
  SFcompare y x = option_map CompOpp (SFcompare x y).
Proof.
  destruct x as [s1|s1| |s1 m1 e1], y as [s2|s2| |s2 m2 e2]; cbn;
    try reflexivity; try (destruct s1; reflexivity);
    try (destruct s2; reflexivity);
    try (destruct s1, s2; reflexivity).
  destruct s1, s2; try reflexivity; cbn;
    rewrite (Z.compare_antisym e1 e2);
    destruct (e1 ?= e2)%Z; cbn; try reflexivity;
    change (PosDef.Pos.compare_cont Eq m1 m2) with (m1 ?= m2)%positive;
    change (PosDef.Pos.compare_cont Eq m2 m1) with (m2 ?= m1)%positive;
    rewrite (Pos.compare_antisym m1 m2);
    now destruct (m1 ?= m2)%positive.
Qed.

Lemma SFcompare_none (x y : spec_float) :
  SFcompare x y = None ->
  SFcompare x x = None \/ SFcompare y y = None.
Proof.
  destruct x as [s1|s1| |s1 m1 e1], y as [s2|s2| |s2 m2 e2]; cbn;
    try discriminate; auto.
Qed.

(** A comparison [a < b] that fails: [b <= a], or one of the two is a
    NaN. *)
Lemma not_ltb (a b : float) :
  (a <? b)%float = false ->
  is_nan a = true \/ is_nan b = true \/ (b <=? a)%float = true.
Proof.
  unfold is_nan. rewrite ltb_spec, leb_spec, !eqb_spec.
  unfold SFltb, SFleb, SFeqb.
  rewrite (SFcompare_antisym (Prim2SF a) (Prim2SF b)).
  destruct (SFcompare (Prim2SF a) (Prim2SF b)) as [c|] eqn:E.
  - destruct c; cbn; auto; discriminate.
  - intros _. destruct (SFcompare_none _ _ E) as [-> | ->]; auto.
Qed.

Lemma not_leb (a b : float) :
  (a <=? b)%float = false ->
  is_nan a = true \/ is_nan b = true \/ (b <? a)%float = true.
Proof.
  unfold is_nan. rewrite ltb_spec, leb_spec, !eqb_spec.
  unfold SFltb, SFleb, SFeqb.
  rewrite (SFcompare_antisym (Prim2SF a) (Prim2SF b)).
  destruct (SFcompare (Prim2SF a) (Prim2SF b)) as [c|] eqn:E.
  - destruct c; cbn; auto; discriminate.
  - intros _. destruct (SFcompare_none _ _ E) as [-> | ->]; auto.
Qed.

(** The numbers that the validator accepts are in the ranges of the
    rules, or are NaN. *)
Lemma accepted_numbers_ranges area page_count x y width height :
  accepted_numbers area page_count x y width height ->
  (is_nan x = true \/ (0 <=? x)%float = true)
  /\ (is_nan y = true \/ (0 <=? y)%float = true)
  /\ (is_nan width = true
      \/ ((0 <? width)%float = true /\ (width <=? 10000)%float = true))
  /\ (is_nan height = true
      \/ ((0 <? height)%float = true /\ (height <=? 10000)%float = true)).
Proof.
  intros (_ & _ & _ & _ & _ & _ & Hx & Hy & Hw0 & Hh0 & Hw & Hh).
  assert (Hzero : is_nan 0%float = true -> False) by (vm_compute; discriminate).
  assert (Hmax : is_nan 10000%float = true -> False)
    by (vm_compute; discriminate).
  repeat split.
  - destruct (not_ltb _ _ Hx) as [H | [H | H]]; auto; now destruct Hzero.
  - destruct (not_ltb _ _ Hy) as [H | [H | H]]; auto; now destruct Hzero.
  - destruct (not_leb _ _ Hw0) as [H | [H | H]]; auto;
      try (now destruct Hzero).
    destruct (not_ltb _ _ Hw) as [H' | [H' | H']]; auto;
      now destruct Hmax.
  - destruct (not_leb _ _ Hh0) as [H | [H | H]]; auto;
      try (now destruct Hzero).
    destruct (not_ltb _ _ Hh) as [H' | [H' | H']]; auto;
      now destruct Hmax.
Qed.

(** X1: what [validate_redaction_area] decides.  It accepts an area
    exactly when the four numbers convert, the page is neither below 1 nor
    above the page count, and none of the rejecting comparisons holds:
    [x < 0], [y < 0], [width <= 0], [height <= 0], [width > 10000],
    [height > 10000].  A NaN fails every comparison: the accepted [x] and
    [y] are not negative or are NaN, the accepted width and height are
    above 0 and not above 10,000 or are NaN, and an area whose four
    numbers are the string "nan" is accepted.  The function never raises
    anything but the [OverflowError] of an integer entry too large for a
    [float]. *)
Theorem validate_redaction_area_decides :
  forall area page_count,
    (validate_redaction_area area page_count = Ok true
     <-> exists x y width height,
           accepted_numbers area page_count x y width height)
    /\ (forall x y width height,
           accepted_numbers area page_count x y width height ->
           (is_nan x = true \/ (0 <=? x)%float = true)
           /\ (is_nan y = true \/ (0 <=? y)%float = true)
           /\ (is_nan width = true
               \/ ((0 <? width)%float = true
                   /\ (width <=? 10000)%float = true))
           /\ (is_nan height = true
               \/ ((0 <? height)%float = true
                   /\ (height <=? 10000)%float = true)))
    /\ validate_redaction_area
         (area_of (PyInt 1) (PyStr "nan") (PyStr "nan") (PyStr "nan")
            (PyStr "nan")) 1 = Ok true
    /\ ((exists valid, validate_redaction_area area page_count = Ok valid)
        \/ (validate_redaction_area area page_count = Raise OverflowError
            /\ exists key,
                 In key ["x"; "y"; "width"; "height"]
                 /\ py_float (get_default area key (PyInt 0))
                    = Raise OverflowError)).
Proof.
  intros. split; [apply validate_true_iff|].
  split; [apply accepted_numbers_ranges|].
  split; [vm_compute; reflexivity | apply validate_outcomes].
Qed.

(* ================================================================== *)
(** ** Properties of the redaction loop *)
(* ================================================================== *)



(** An area that reaches beyond the page is applied all the same: the
    annotation is added, the counter goes up, and a warning is logged. *)
Example area_beyond_page_is_applied :
  match redact_areas [letter_page]
          [area_of (PyInt 1) (PyInt 600) (PyInt 700) (PyInt 100) (PyInt 200)] with
  | Ok st =>
      map redact_annots (doc st) = [[mkRect 600 700 700 900]]
      /\ redactions_applied st = 1%Z
      /\ map fst (log st) = [INFO; INFO; INFO; INFO; INFO; WARNING; INFO]
  | Raise _ => False
  end.
Proof. vm_compute. repeat split; reflexivity. Qed.




(* ================================================================== *)
(** ** Properties of [calculate_confidence] *)
(* ================================================================== *)

Lemma email_confidence_eq (text : string) :
  calculate_confidence "EMAIL" text
  = if existsb (fun domain => contains domain (lower text)) free_mail_domains
    then 0.95%float else 0.90%float.
Proof. reflexivity. Qed.

Lemma lower_append (a b : string) :
  lower (a ++ b)%string = (lower a ++ lower b)%string.
Proof.
  unfold lower. induction a as [|c a IH]; cbn; [reflexivity | now rewrite IH].
Qed.

Lemma prefix_refl (s : string) : prefix s s = true.
Proof.
  induction s as [|c s IH]; cbn; [reflexivity|].
  destruct (ascii_dec c c); [exact IH | congruence].
Qed.

Lemma contains_at_end (sub a : string) : contains sub (a ++ sub)%string = true.
Proof.
  induction a as [|c a IH].
  - cbn [append]. destruct sub; cbn [contains]; now rewrite prefix_refl.
  - cbn [append contains]. rewrite IH. apply orb_true_r.
Qed.

(** The half of C3 that holds: an address whose domain is one of the
    free-mail providers, in any case, scores 0.95. *)
Theorem email_confidence_of_free_mail_domain :
  forall local_part domain,
    In (lower domain) free_mail_domains ->
    calculate_confidence "EMAIL" (local_part ++ "@" ++ domain)%string
    = 0.95%float.
Proof.
  intros local_part domain H. rewrite email_confidence_eq.
  replace (existsb _ free_mail_domains) with true; [reflexivity|].
  symmetry. apply existsb_exists. exists (lower domain). split; [exact H|].
  rewrite <- append_assoc, lower_append. apply contains_at_end.
Qed.

(** The boost on an address with a provider in mixed case. *)
Lemma email_confidence_of_free_mail_domain_witness :
  calculate_confidence "EMAIL" ("Jane.Doe" ++ "@" ++ "GMail.COM")%string
  = 0.95%float.
Proof.
  apply (email_confidence_of_free_mail_domain "Jane.Doe" "GMail.COM").
  vm_compute. auto.
Defined.

(** C3 at the failing input: the address "gmail.com@example.org" has the
    domain "example.org", which is none of the free-mail providers, so the
    specification scores it 0.90; the code finds "gmail.com" in the text
    and scores it 0.95.  The two examples of the specification agree. *)
Theorem email_confidence_matches_anywhere :
  calculate_confidence "EMAIL" "gmail.com@example.org" = 0.95%float
  /\ email_domain "gmail.com@example.org" = "example.org"
  /\ claimed_email_confidence "gmail.com@example.org" = 0.90%float
  /\ calculate_confidence "EMAIL" "user@gmail.com" = 0.95%float
  /\ calculate_confidence "EMAIL" "user@unknown-domain.xyz" = 0.90%float.
Proof. repeat split; vm_compute; reflexivity. Qed.

(** The table of [calculate_confidence]: the fixed score of each category,
    the score of a card number by its Luhn check, and 0.80 for every other
    category. *)
Lemma calculate_confidence_table :
  forall text,
    calculate_confidence "SSN" text = 0.95%float
    /\ calculate_confidence "PHONE" text = 0.88%float
    /\ calculate_confidence "DATE_OF_BIRTH" text = 0.85%float
    /\ calculate_confidence "ADDRESS" text = 0.80%float
    /\ calculate_confidence "ZIP_CODE" text = 0.82%float
    /\ calculate_confidence "NAME" text = 0.75%float
    /\ calculate_confidence "CREDIT_CARD" text
       = (if luhn_check (strip_separators text) then 0.95 else 0.70)%float
    /\ (forall category,
           ~ In category
               ["SSN"; "EMAIL"; "CREDIT_CARD"; "PHONE"; "DATE_OF_BIRTH";
                "ADDRESS"; "ZIP_CODE"; "NAME"] ->
           calculate_confidence category text = 0.80%float).
Proof.
  intros text. repeat split; try reflexivity.
  intros category H. unfold calculate_confidence.
  repeat match goal with
         | |- context [String.eqb category ?k] =>
             replace (String.eqb category k) with false
               by (symmetry; apply String.eqb_neq; intros ->; apply H;
                   cbn; auto 10)
         end.
  reflexivity.
Qed.

(** A character that [isdigit] accepts is neither a dash nor a space. *)
Lemma digit_is_no_separator (c : ascii) :
  isdigit c = true -> negb (is_cp 45 c || isspace c) = true.
Proof.
  destruct c as [[] [] [] [] [] [] [] []]; vm_compute;
    intros H; (reflexivity || discriminate H).
Qed.

(** Removing characters that are no digits leaves the digits. *)
Lemma digits_of_str_filter (p : ascii -> bool) (s : string) :
  (forall c, isdigit c = true -> p c = true) ->
  filter isdigit (chars (str_filter p s)) = filter isdigit (chars s).
Proof.
  intros Hp. unfold chars. induction s as [|c s IH]; [reflexivity|].
  cbn [str_filter list_ascii_of_string filter].
  destruct (p c) eqn:Hc.
  - cbn [list_ascii_of_string filter]. now rewrite IH.
  - destruct (isdigit c) eqn:Hd; [|exact IH].
    rewrite (Hp c Hd) in Hc. discriminate.
Qed.

(** [luhn_check] reads the digit characters of its argument only. *)
Lemma luhn_check_of_digits (s s' : string) :
  filter isdigit (chars s) = filter isdigit (chars s') ->
  luhn_check s = luhn_check s'.
Proof.
  intros H. unfold luhn_check, luhn_check_body, luhn_digits. now rewrite H.
Qed.

(** X4: the score of a card number follows [luhn_check] on the text as it
    stands.  [calculate_confidence] removes dashes and whitespace before
    the check, which changes nothing, since [luhn_check] reads digit
    characters only: the score of "CREDIT_CARD" is 0.95 exactly when
    [luhn_check] accepts the text itself, and 0.70 otherwise, and two
    texts with the same digit characters have the same score. *)
Theorem credit_card_confidence_follows_luhn :
  (forall text,
      calculate_confidence "CREDIT_CARD" text
      = (if luhn_check text then 0.95 else 0.70)%float)
  /\ (forall text text',
         filter isdigit (chars text) = filter isdigit (chars text') ->
         calculate_confidence "CREDIT_CARD" text
         = calculate_confidence "CREDIT_CARD" text')
  /\ calculate_confidence "CREDIT_CARD" "4532-0151 1283-0366" = 0.95%float
  /\ calculate_confidence "CREDIT_CARD" "4532-0151 1283-0367" = 0.70%float.
Proof.
  assert (Hscore : forall text,
             calculate_confidence "CREDIT_CARD" text
             = (if luhn_check text then 0.95 else 0.70)%float).
  { intros text. unfold calculate_confidence. cbn [String.eqb Ascii.eqb].
    change ("CREDIT_CARD" =? "SSN") with false.
    change ("CREDIT_CARD" =? "EMAIL") with false.
    change ("CREDIT_CARD" =? "CREDIT_CARD") with true.
    cbv iota zeta.
    rewrite (luhn_check_of_digits (strip_separators text) text);
      [reflexivity|].
    apply digits_of_str_filter, digit_is_no_separator. }
  split; [exact Hscore|]. split; [|split; vm_compute; reflexivity].
  intros text text' H. rewrite !Hscore.
  now rewrite (luhn_check_of_digits text text' H).
Qed.

(** Every confidence lies between 0 and 1. *)
Theorem calculate_confidence_in_unit_interval :
  forall category text,
    (0 <=? calculate_confidence category text)%float = true
    /\ (calculate_confidence category text <=? 1)%float = true.
Proof.
  intros category text. unfold calculate_confidence.
  repeat match goal with
         | |- context [if ?b then _ else _] => destruct b
         end; split; reflexivity.
Qed.

(* ================================================================== *)
(** ** Properties of [calculate_statistics] *)
(* ================================================================== *)

Lemma dict_get_set_same {V : Type} (d : list (string * V)) (key : string) (v : V) :
  dict_get (dict_set d key v) key = Some v.
Proof.
  induction d as [|[k w] d IH]; cbn [dict_set dict_get].
  - now rewrite String.eqb_refl.
  - destruct (k =? key) eqn:E; cbn [dict_get].
    + now rewrite String.eqb_refl.
    + now rewrite E.
Qed.

Lemma dict_get_set_other {V : Type} (d : list (string * V))
    (key other : string) (v : V) :
  other <> key -> dict_get (dict_set d key v) other = dict_get d other.
Proof.
  intros Hne. induction d as [|[k w] d IH]; cbn [dict_set dict_get].
  - replace (key =? other) with false; [reflexivity|].
    symmetry. apply String.eqb_neq. congruence.
  - destruct (k =? key) eqn:E; cbn [dict_get].
    + apply String.eqb_eq in E. subst k.
      replace (key =? other) with false; [reflexivity|].
      symmetry. apply String.eqb_neq. congruence.
    + destruct (k =? other); [reflexivity | exact IH].
Qed.

Lemma dict_set_keys {V : Type} (d : list (string * V)) (key : string) (v : V) :
  map fst (dict_set d key v)
  = if existsb (String.eqb key) (map fst d) then map fst d
    else map fst d ++ [key].
Proof.
  induction d as [|[k w] d IH]; [reflexivity|].
  cbn [dict_set map fst existsb].
  rewrite (String.eqb_sym key k).
  destruct (k =? key) eqn:E; cbn [orb map fst].
  - apply String.eqb_eq in E. now subst k.
  - rewrite IH. now destruct (existsb (String.eqb key) (map fst d)).
Qed.

Lemma dict_set_sum (d : list (string * nat)) (key : string) :
  list_sum (map snd (dict_set d key (count_of d key + 1)))
  = S (list_sum (map snd d)).
Proof.
  unfold count_of. induction d as [|[k w] d IH]; [reflexivity|].
  cbn [dict_set dict_get].
  destruct (k =? key) eqn:E; unfold list_sum in *;
    cbn [map snd fold_right] in *; lia.
Qed.

Lemma existsb_eqb_In (key : string) (l : list string) :
  existsb (String.eqb key) l = true <-> In key l.
Proof.
  rewrite existsb_exists. split.
  - intros (x & Hx & E). apply String.eqb_eq in E. now subst.
  - intros H. exists key. split; [exact H | apply String.eqb_refl].
Qed.

Lemma count_category_count (d : list (string * nat)) (f : Finding)
    (category : string) :
  count_of (count_category d f) category
  = count_of d category + (if f_category f =? category then 1 else 0).
Proof.
  unfold count_category, count_of at 1.
  destruct (f_category f =? category) eqn:E.
  - apply String.eqb_eq in E. subst category.
    rewrite dict_get_set_same. reflexivity.
  - apply String.eqb_neq in E.
    rewrite dict_get_set_other by congruence.
    unfold count_of. lia.
Qed.

Lemma count_category_invariant (d : list (string * nat)) (f : Finding) :
  counts_invariant d -> counts_invariant (count_category d f).
Proof.
  intros [Hnd Hpos]. unfold count_category. split.
  - rewrite dict_set_keys.
    destruct (existsb _ (map fst d)) eqn:E; [exact Hnd|].
    apply NoDup_app; [exact Hnd | repeat constructor; intros [] | ].
    intros x Hx [<-|[]].
    apply existsb_eqb_In in Hx. congruence.
  - intros key n H.
    destruct (String.eqb_spec key (f_category f)) as [->|Hne].
    + rewrite dict_get_set_same in H. injection H as <-. lia.
    + rewrite dict_get_set_other in H by exact Hne. eapply Hpos, H.
Qed.

Lemma count_fold (findings : list Finding) :
  forall d,
    counts_invariant d ->
    counts_invariant (fold_left count_category findings d)
    /\ (forall category,
           count_of (fold_left count_category findings d) category
           = count_of d category + findings_of_category findings category)
    /\ list_sum (map snd (fold_left count_category findings d))
       = list_sum (map snd d) + List.length findings.
Proof.
  induction findings as [|f fs IH]; intros d Hd.
  - cbn. repeat split; try apply Hd; auto; intros; unfold findings_of_category;
      cbn; lia.
  - cbn [fold_left].
    destruct (IH _ (count_category_invariant d f Hd)) as (Hinv & Hcount & Hsum).
    split; [exact Hinv|]. split.
    + intros category. rewrite Hcount, count_category_count.
      unfold findings_of_category. cbn [filter].
      destruct (f_category f =? category); cbn [List.length]; lia.
    + rewrite Hsum. unfold count_category. rewrite dict_set_sum.
      cbn [List.length]. lia.
Qed.

(** X6: the counts by category of [calculate_statistics].  A category has
    an entry exactly when a finding has it, and the entry is the number of
    findings with that category; no category has two entries; and the
    counts add up to the total, which is the number of findings. *)
Theorem statistics_by_category_counts :
  forall findings,
    let statistics := calculate_statistics findings in
    (forall category,
        dict_get (stat_by_category statistics) category
        = match findings_of_category findings category with
          | O => None
          | n => Some n
          end)
    /\ NoDup (map fst (stat_by_category statistics))
    /\ list_sum (map snd (stat_by_category statistics)) = stat_total statistics
    /\ stat_total statistics = List.length findings.
Proof.
  intros findings. cbn [calculate_statistics stat_by_category stat_total].
  assert (H0 : counts_invariant (@nil (string * nat))).
  { split; [constructor | intros key n H; discriminate]. }
  destruct (count_fold findings [] H0) as ([Hnd Hpos] & Hcount & Hsum).
  repeat split; auto.
  intros category. specialize (Hcount category).
  unfold count_of in Hcount. cbn [dict_get] in Hcount.
  destruct (dict_get (fold_left count_category findings []) category)
    as [n|] eqn:E; cbn [Nat.add] in Hcount; rewrite <- Hcount.
  - apply Hpos in E. destruct n; [lia | reflexivity].
  - reflexivity.
Qed.

(* ================================================================== *)
(** ** Properties of the detection loop of [detect_pii] *)
(* ================================================================== *)

(** The findings of a span do not depend on the identifiers drawn. *)
Lemma detect_from_same_findings finditer u u' text bbox page_num threshold
    categories drawn drawn' :
  same_findings
    (detect_in_text_from finditer u text bbox page_num threshold categories drawn)
    (detect_in_text_from finditer u' text bbox page_num threshold categories
       drawn').
Proof.
  unfold detect_in_text_from.
  assert (H : same_findings
                (fold_left (category_step finditer u text bbox page_num threshold)
                   categories ([], drawn))
                (fold_left (category_step finditer u' text bbox page_num threshold)
                   categories ([], drawn'))).
  { apply fold_left_related; [|reflexivity].
    intros st st' c Hst. unfold category_step.
    destruct (dict_get PATTERNS c); [|exact Hst].
    apply fold_left_related; [|exact Hst].
    intros a b m. apply match_step_same_findings. }
  destruct (existsb (String.eqb "NAME") categories); [|exact H].
  apply (fold_left_related same_findings); [|exact H].
  intros a b ind. apply name_step_same_findings.
Qed.

(** A loop whose every step appends findings appends, in all, the findings
    of its steps. *)
Lemma fold_left_appends {A : Type} (step : detect_state -> A -> detect_state)
    (added : A -> list Finding) (l : list A) :
  (forall st a,
      map erase_id (fst (step st a)) = map erase_id (fst st) ++ added a) ->
  forall st,
    map erase_id (fst (fold_left step l st))
    = map erase_id (fst st) ++ flat_map added l.
Proof.
  intros Hstep. induction l as [|a l IH]; intros st; cbn [fold_left flat_map].
  - now rewrite app_nil_r.
  - now rewrite IH, Hstep, app_assoc.
Qed.

Lemma flat_map_flat_map {A B C : Type} (f : A -> list B) (g : B -> list C)
    (l : list A) :
  flat_map g (flat_map f l) = flat_map (fun x => flat_map g (f x)) l.
Proof.
  induction l as [|a l IH]; [reflexivity|].
  cbn [flat_map]. now rewrite flat_map_app, IH.
Qed.

Lemma flat_map_map {A B C : Type} (f : A -> B) (g : B -> list C) (l : list A) :
  flat_map g (map f l) = flat_map (fun x => g (f x)) l.
Proof.
  induction l as [|a l IH]; [reflexivity|].
  cbn [flat_map map]. now rewrite IH.
Qed.

Section DetectPIIProperties.

Variable finditer : string -> string -> list (nat * nat).
Variable uuid_hex8 : nat -> string.
Variable categories : list string.
Variable threshold : float.

Local Abbreviation span_findings :=
  (fun text bbox page_num =>
     map erase_id
       (detect_in_text finditer uuid_hex8 text bbox page_num threshold
          categories 0)).

Lemma span_step_appends (page_num : Z) (st : detect_state) (span : Span) :
  map erase_id
    (fst (span_step finditer uuid_hex8 categories threshold page_num st span))
  = map erase_id (fst st)
    ++ span_findings
         (match span_text span with Some t => t | None => "" end)
         (match span_bbox span with Some b => b | None => mkBBox 0 0 0 0 end)
         (page_num + 1)%Z.
Proof.
  destruct st as [fs k]. unfold span_step, detect_in_text.
  pose proof (detect_from_same_findings finditer uuid_hex8 uuid_hex8
                (match span_text span with Some t => t | None => "" end)
                (match span_bbox span with Some b => b | None => mkBBox 0 0 0 0 end)
                (page_num + 1)%Z threshold categories k 0) as H.
  unfold same_findings in H.
  destruct (detect_in_text_from finditer uuid_hex8 _ _ (page_num + 1)%Z
              threshold categories k) as [fs' k'].
  cbn [fst] in *. now rewrite map_app, H.
Qed.

(** The findings of a document are, identifiers apart, the findings of its
    text spans, one span after the other. *)
Lemma detect_pii_by_spans (pdf_doc : list TextDict) (drawn : nat) :
  map erase_id
    (detect_pii_findings finditer uuid_hex8 categories threshold pdf_doc drawn)
  = flat_map (fun span => span_findings (snd (fst span)) (snd span) (fst (fst span)))
      (document_spans pdf_doc).
Proof.
  set (found := fun span : Z * string * BBox =>
                  span_findings (snd (fst span)) (snd span) (fst (fst span))).
  unfold detect_pii_findings, detect_pii_from, document_spans.
  rewrite flat_map_flat_map.
  rewrite (fold_left_appends _ (fun numbered => flat_map found (spans_of_page numbered)));
    [reflexivity|].
  intros st [i td]. unfold page_step, spans_of_page. cbn [fst snd].
  rewrite flat_map_flat_map.
  apply fold_left_appends.
  intros st' block. unfold block_step, spans_of_block.
  destruct (block_type block) as [[| |]|]; cbn [flat_map];
    try now rewrite app_nil_r.
  rewrite flat_map_flat_map.
  apply fold_left_appends.
  intros st'' line. unfold line_step, spans_of_line.
  rewrite flat_map_map.
  apply fold_left_appends.
  intros st3 span. apply span_step_appends.
Qed.

End DetectPIIProperties.

Lemma StronglySorted_app {A : Type} (R : A -> A -> Prop) (l1 l2 : list A) :
  StronglySorted R l1 -> StronglySorted R l2 ->
  (forall x y, In x l1 -> In y l2 -> R x y) ->
  StronglySorted R (l1 ++ l2).
Proof.
  intros H1 H2 H. induction H1 as [|a l1 Hs IH Ha]; [exact H2|].
  cbn [app]. constructor.
  - apply IH. intros x y Hx. apply H. now right.
  - apply Forall_app. split; [exact Ha|].
    apply Forall_forall. intros y Hy. apply H; [now left | exact Hy].
Qed.

Lemma StronglySorted_constant (z : Z) (l : list Z) :
  (forall y, In y l -> y = z) -> StronglySorted Z.le l.
Proof.
  induction l as [|a l IH]; intros H; constructor.
  - apply IH. intros y Hy. apply H. now right.
  - apply Forall_forall. intros y Hy.
    rewrite (H a (or_introl eq_refl)), (H y (or_intror Hy)). lia.
Qed.

(** Groups with a common key each, taken in the order of their keys, make a
    sorted list. *)
Lemma sorted_flat_map {X : Type} (key : X -> Z) (h : X -> list Z) (l : list X) :
  (forall x z, In x l -> In z (h x) -> z = key x) ->
  StronglySorted Z.le (map key l) ->
  StronglySorted Z.le (flat_map h l).
Proof.
  induction l as [|a l IH]; intros Hkey Hs; [constructor|].
  cbn [flat_map map] in *. inversion Hs as [|? ? Hs' Ha]; subst.
  apply StronglySorted_app.
  - apply (StronglySorted_constant (key a)).
    intros y Hy. apply Hkey; [now left | exact Hy].
  - apply IH; [|exact Hs'].
    intros x z Hx. apply Hkey. now right.
  - intros x y Hx Hy. apply in_flat_map in Hy. destruct Hy as (b & Hb & Hy).
    rewrite (Hkey a x (or_introl eq_refl) Hx), (Hkey b y (or_intror Hb) Hy).
    rewrite Forall_forall in Ha. apply Ha. now apply in_map.
Qed.

Lemma map_flat_map {A B C : Type} (f : A -> list B) (g : B -> C) (l : list A) :
  map g (flat_map f l) = flat_map (fun x => map g (f x)) l.
Proof.
  induction l as [|a l IH]; [reflexivity|].
  cbn [flat_map]. now rewrite map_app, IH.
Qed.

(** The spans of a page carry the number of the page. *)
Lemma spans_of_page_number (numbered : nat * TextDict) (span : Z * string * BBox) :
  In span (spans_of_page numbered) ->
  fst (fst span) = (Z.of_nat (fst numbered) + 1)%Z.
Proof.
  unfold spans_of_page. intros H.
  apply in_flat_map in H. destruct H as (block & _ & H).
  unfold spans_of_block in H.
  destruct (block_type block) as [[| |]|]; try destruct H.
  apply in_flat_map in H. destruct H as (line & _ & H).
  unfold spans_of_line in H. apply in_map_iff in H.
  destruct H as (sp & <- & _). reflexivity.
Qed.

Lemma numbered_pages_sorted (pdf_doc : list TextDict) :
  forall start,
    StronglySorted Z.le
      (map (fun numbered : nat * TextDict => (Z.of_nat (fst numbered) + 1)%Z)
         (combine (seq start (List.length pdf_doc)) pdf_doc)).
Proof.
  induction pdf_doc as [|td pdf_doc IH]; intros start; [constructor|].
  cbn [List.length seq combine map fst]. constructor; [apply IH|].
  apply Forall_forall. intros z Hz. apply in_map_iff in Hz.
  destruct Hz as ([i td'] & <- & Hin). apply in_combine_l in Hin.
  apply in_seq in Hin. cbn [fst]. lia.
Qed.

Lemma document_spans_pages (pdf_doc : list TextDict) (span : Z * string * BBox) :
  In span (document_spans pdf_doc) ->
  (1 <= fst (fst span) <= Z.of_nat (List.length pdf_doc))%Z.
Proof.
  unfold document_spans. intros H.
  apply in_flat_map in H. destruct H as ([i td] & Hin & H).
  apply spans_of_page_number in H. apply in_combine_l in Hin.
  apply in_seq in Hin. cbn [fst] in H. lia.
Qed.

Lemma document_spans_sorted (pdf_doc : list TextDict) :
  StronglySorted Z.le (map (fun span => fst (fst span)) (document_spans pdf_doc)).
Proof.
  unfold document_spans. rewrite map_flat_map.
  apply (sorted_flat_map
           (fun numbered : nat * TextDict => (Z.of_nat (fst numbered) + 1)%Z)).
  - intros numbered z _ Hz. apply in_map_iff in Hz.
    destruct Hz as (span & <- & Hspan). now apply spans_of_page_number.
  - apply numbered_pages_sorted.
Qed.

(** The findings of a span carry its page number. *)
Lemma detect_in_text_page finditer u text bbox page_num threshold categories
    drawn :
  Forall (fun f => f_page f = page_num)
    (detect_in_text finditer u text bbox page_num threshold categories drawn).
Proof.
  eapply Forall_impl; [|apply detect_explained].
  intros f [(c & p & m & k & _ & _ & _ & _ & ->) | (ind & k & _ & _ & ->)];
    reflexivity.
Qed.

(** X7: the findings of a document are those of its text spans.  With the
    identifiers erased, the result of the detection loop is the
    concatenation, in the order of pages, blocks, lines and spans, of what
    [detect_in_text] finds in each span of a text block, called with the
    1-based number of the page; blocks of another type contribute nothing,
    and the identifiers drawn for one span do not change what is found in
    the next. *)
Theorem detect_pii_is_span_by_span :
  forall finditer uuid_hex8 categories threshold pdf_doc drawn,
    map erase_id
      (detect_pii_findings finditer uuid_hex8 categories threshold pdf_doc drawn)
    = flat_map
        (fun span =>
           map erase_id
             (detect_in_text finditer uuid_hex8 (snd (fst span)) (snd span)
                (fst (fst span)) threshold categories 0))
        (document_spans pdf_doc).
Proof. intros. apply detect_pii_by_spans. Qed.

(** X8: the findings of a document come in page order.  Every finding
    carries a page number between 1 and the number of pages, and along the
    list of findings the page numbers never decrease. *)
Theorem detect_pii_findings_in_page_order :
  forall finditer uuid_hex8 categories threshold pdf_doc drawn,
    let findings :=
      detect_pii_findings finditer uuid_hex8 categories threshold pdf_doc drawn in
    Forall (fun f => (1 <= f_page f <= Z.of_nat (List.length pdf_doc))%Z) findings
    /\ StronglySorted Z.le (map f_page findings).
Proof.
  intros finditer u categories t pdf_doc drawn findings.
  assert (Hpages : map f_page findings
                   = flat_map
                       (fun span =>
                          map f_page
                            (map erase_id
                               (detect_in_text finditer u (snd (fst span))
                                  (snd span) (fst (fst span)) t categories 0)))
                       (document_spans pdf_doc)).
  { rewrite <- map_flat_map.
    rewrite <- (detect_pii_by_spans finditer u categories t pdf_doc drawn).
    rewrite map_map. reflexivity. }
  assert (Hkey : forall span z,
             In z (map f_page
                     (map erase_id
                        (detect_in_text finditer u (snd (fst span)) (snd span)
                           (fst (fst span)) t categories 0))) ->
             z = fst (fst span)).
  { intros span z Hz. rewrite map_map in Hz. apply in_map_iff in Hz.
    destruct Hz as (f & <- & Hf).
    pose proof (detect_in_text_page finditer u (snd (fst span)) (snd span)
                  (fst (fst span)) t categories 0) as Hp.
    rewrite Forall_forall in Hp. exact (Hp f Hf). }
  split.
  - apply Forall_forall. intros f Hf.
    assert (Hin : In (f_page f) (map f_page findings)) by now apply in_map.
    rewrite Hpages in Hin. apply in_flat_map in Hin.
    destruct Hin as (span & Hspan & Hz).
    rewrite (Hkey span _ Hz). now apply document_spans_pages.
  - rewrite Hpages.
    apply (sorted_flat_map (fun span : Z * string * BBox => fst (fst span))).
    + intros span z _. apply Hkey.
    + apply document_spans_sorted.
Qed.

(** A confidence of the table is never in the low band, and in exactly one
    of the two others. *)
Lemma confidence_bands (category text : string) :
  let c := calculate_confidence category text in
  (c <? 0.7)%float = false
  /\ ((0.7 <=? c) && (c <? 0.9))%float = negb (0.9 <=? c)%float.
Proof.
  unfold calculate_confidence.
  repeat match goal with
         | |- context [if ?b then _ else _] => destruct b
         end; split; reflexivity.
Qed.

Lemma filter_complement_length {A : Type} (p q : A -> bool) (l : list A) :
  Forall (fun x => q x = negb (p x)) l ->
  List.length (filter p l) + List.length (filter q l) = List.length l.
Proof.
  induction 1 as [|x l Hx _ IH]; [reflexivity|].
  cbn [filter]. rewrite Hx.
  destruct (p x); cbn [negb List.length]; lia.
Qed.

(** Every finding of a document has the confidence of the table, and it
    reaches the threshold. *)
Lemma detect_pii_confidence finditer u categories threshold pdf_doc drawn :
  Forall (fun f =>
            f_confidence f = calculate_confidence (f_category f) (f_text f)
            /\ (threshold <=? f_confidence f)%float = true)
    (detect_pii_findings finditer u categories threshold pdf_doc drawn).
Proof.
  apply Forall_forall. intros f Hf.
  apply (in_map erase_id) in Hf. rewrite detect_pii_by_spans in Hf.
  apply in_flat_map in Hf. destruct Hf as (span & _ & Hf).
  apply in_map_iff in Hf. destruct Hf as (f' & Heq & Hf').
  pose proof (detect_explained finditer u (snd (fst span)) (snd span)
                (fst (fst span)) threshold categories 0) as Hall.
  rewrite Forall_forall in Hall.
  destruct (explained_confidence _ _ _ _ _ _ _ _ (Hall f' Hf')) as [H1 H2].
  assert (Ec : f_confidence f' = f_confidence f)
    by exact (f_equal f_confidence Heq).
  assert (Ek : f_category f' = f_category f)
    by exact (f_equal f_category Heq).
  assert (Et : f_text f' = f_text f) by exact (f_equal f_text Heq).
  rewrite Ec, Ek, Et in H1. rewrite Ec in H2. now split.
Qed.

(** X9: the response of a detection run.  Every finding reaches the
    threshold of the request; the statistics count all the findings; none
    of them is in the low band (below 0.7), whatever the threshold is, so
    the high and medium bands add up to the total. *)
Theorem detect_pii_response_statistics :
  forall finditer uuid_hex8 categories threshold pdf_doc drawn,
    let response :=
      detect_pii_response finditer uuid_hex8 categories threshold pdf_doc drawn in
    Forall (fun f => (threshold <=? f_confidence f)%float = true) (fst response)
    /\ stat_total (snd response) = List.length (fst response)
    /\ stat_low (snd response) = 0
    /\ stat_high (snd response) + stat_medium (snd response)
       = stat_total (snd response).
Proof.
  intros finditer u categories t pdf_doc drawn response.
  pose proof (detect_pii_confidence finditer u categories t pdf_doc drawn) as H.
  subst response. unfold detect_pii_response.
  cbn [fst snd calculate_statistics stat_total stat_low stat_high stat_medium].
  set (findings := detect_pii_findings finditer u categories t pdf_doc drawn) in *.
  split; [|split; [reflexivity|split]].
  - eapply Forall_impl; [|exact H]. now intros f [_ Hf].
  - rewrite filter_none; [reflexivity|].
    eapply Forall_impl; [|exact H]. intros f [Hc _]. rewrite Hc.
    apply confidence_bands.
  - apply filter_complement_length.
    eapply Forall_impl; [|exact H]. intros f [Hc _]. rewrite Hc.
    apply confidence_bands.
Qed.

(* ================================================================== *)
(** ** What the redaction loop counts *)
(* ================================================================== *)

Lemma update_nth_length {A : Type} (f : A -> A) (l : list A) :
  forall idx, List.length (update_nth idx f l) = List.length l.
Proof.
  induction l as [|x l IH]; intros [|k]; cbn; auto.
Qed.

Lemma update_nth_page_sizes (rect : Rect) (d : list Page) :
  forall idx, page_sizes (update_nth idx (add_redact_annot rect) d) = page_sizes d.
Proof.
  unfold page_sizes.
  induction d as [|pg d IH]; intros [|k]; cbn; try reflexivity.
  now rewrite IH.
Qed.

Lemma update_nth_annotation_count (rect : Rect) (d : list Page) :
  forall idx pg,
    nth_error d idx = Some pg ->
    annotation_count (update_nth idx (add_redact_annot rect) d)
    = S (annotation_count d).
Proof.
  unfold annotation_count, list_sum.
  induction d as [|x d IH]; intros [|k] pg H; try discriminate.
  - cbn [update_nth map fold_right add_redact_annot redact_annots].
    rewrite length_app. cbn [List.length]. lia.
  - cbn [nth_error] in H. cbn [update_nth map fold_right].
    rewrite (IH k pg H). lia.
Qed.

(** What one turn of the loop does when it does not raise: it skips an
    area that is not valid, and adds one annotation to one page for a
    valid one. *)
Lemma redact_area_outcome (page_count : Z) (st st' : redaction_state)
    (item : list (string * pyval)) :
  redact_area page_count st item = Ok st' ->
  (is_valid_area page_count item = false
   /\ doc st' = doc st
   /\ redactions_applied st' = redactions_applied st)
  \/ (is_valid_area page_count item = true
      /\ redactions_applied st' = (redactions_applied st + 1)%Z
      /\ exists idx pg rect,
           nth_error (doc st) idx = Some pg
           /\ doc st' = update_nth idx (add_redact_annot rect) (doc st)).
Proof.
  unfold redact_area, is_valid_area. intros H.
  destruct (validate_redaction_area item page_count) as [[|]|e];
    cbn [bind negb] in H; [| |discriminate].
  - right.
    destruct (py_pred (get_default item "page" (PyInt 1))) as [number|];
      cbn [bind] in H; [|discriminate].
    destruct (doc_getitem (doc st) number) as [[idx pg]|] eqn:Hget;
      cbn [bind] in H; [|discriminate].
    repeat match type of H with
           | context [Py.bind ?m _] =>
               destruct m; cbn [bind] in H; [|discriminate]
           end.
    injection H as <-. cbn [doc redactions_applied].
    split; [reflexivity|]. split; [reflexivity|].
    exists idx, pg. eexists. split; [|reflexivity].
    unfold doc_getitem in Hget. destruct number; try discriminate.
    destruct (_ && _); [|discriminate].
    destruct (nth_error (doc st) _) eqn:E; [|discriminate].
    injection Hget as <- <-. exact E.
  - left. injection H as <-. auto.
Qed.

(** X10: what a redaction request that goes through has done.  The
    counter has grown by the number of areas that the validator accepts,
    and so has the number of annotations on the pages; the areas it does
    not accept are skipped without a trace on the document; the document
    keeps its pages and their sizes. *)
Theorem redact_loop_counts_valid_areas :
  forall page_count areas_list st st',
    redact_loop page_count st areas_list = Ok st' ->
    redactions_applied st'
    = (redactions_applied st
       + Z.of_nat (List.length (filter (is_valid_area page_count) areas_list)))%Z
    /\ annotation_count (doc st')
       = annotation_count (doc st)
         + List.length (filter (is_valid_area page_count) areas_list)
    /\ List.length (doc st') = List.length (doc st)
    /\ page_sizes (doc st') = page_sizes (doc st).
Proof.
  intros page_count areas_list.
  induction areas_list as [|item rest IH]; intros st st' H.
  - cbn in H. injection H as <-. cbn. repeat split; lia.
  - cbn [redact_loop] in H.
    destruct (redact_area page_count st item) as [st1|] eqn:Hstep;
      cbn [bind] in H; [|discriminate].
    destruct (IH _ _ H) as (Hc & Ha & Hl & Hs).
    rewrite Hc, Ha, Hl, Hs. cbn [filter].
    destruct (redact_area_outcome _ _ _ _ Hstep)
      as [(Hv & Hd & Hn) | (Hv & Hn & idx & pg & rect & Hpg & Hd)];
      rewrite Hv, Hd, Hn.
    + repeat split; lia.
    + rewrite (update_nth_annotation_count rect _ idx pg Hpg),
        update_nth_length, update_nth_page_sizes.
      cbn [List.length]. repeat split; lia.
Qed.

(** X10 on a request of three areas on a one-page document: the second one
    names a page that does not exist and is skipped. *)
Lemma redact_loop_counts_witness :
  exists st',
    redact_areas [letter_page]
      [area_of (PyInt 1) (PyInt 10) (PyInt 10) (PyInt 50) (PyInt 50);
       area_of (PyInt 2) (PyInt 10) (PyInt 10) (PyInt 50) (PyInt 50);
       area_of (PyInt 1) (PyInt 600) (PyInt 700) (PyInt 100) (PyInt 200)]
    = Ok st'
    /\ redactions_applied st' = 2%Z
    /\ annotation_count (doc st') = 2
    /\ List.length (doc st') = 1
    /\ page_sizes (doc st') = [(612, 792)%float].
Proof.
  eexists. split; [vm_compute; reflexivity|].
  exact (redact_loop_counts_valid_areas 1
           [area_of (PyInt 1) (PyInt 10) (PyInt 10) (PyInt 50) (PyInt 50);
            area_of (PyInt 2) (PyInt 10) (PyInt 10) (PyInt 50) (PyInt 50);
            area_of (PyInt 1) (PyInt 600) (PyInt 700) (PyInt 100) (PyInt 200)]
           (fresh_state [letter_page]) _ eq_refl).
Defined.

(* ================================================================== *)
(** ** Properties of [sanitize_filename] *)
(* ================================================================== *)

Lemma basename_without_slash (p : string) :
  str_exists is_slash p = false -> basename p = p.
Proof.
  destruct p as [|c p]; [reflexivity|]. cbn [str_exists basename].
  intros H. apply orb_false_iff in H. destruct H as [Hc Hp].
  now rewrite Hp, Hc.
Qed.

Lemma basename_has_no_slash (p : string) :
  str_exists is_slash (basename p) = false.
Proof.
  induction p as [|c p IH]; [reflexivity|]. cbn [basename].
  destruct (str_exists is_slash p) eqn:Hp; [exact IH|].
  destruct (is_slash c) eqn:Hc; [exact Hp|].
  cbn [str_exists]. now rewrite Hc, Hp.
Qed.

Lemma str_exists_append (p : ascii -> bool) (a b : string) :
  str_exists p (a ++ b)%string = str_exists p a || str_exists p b.
Proof.
  induction a as [|c a IH]; [reflexivity|].
  cbn [append str_exists]. now rewrite IH, orb_assoc.
Qed.

(** A directory in front of a name does not change its base name. *)
Lemma basename_of_path (dir name : string) :
  basename (dir ++ "/" ++ name)%string = basename name.
Proof.
  induction dir as [|c dir IH].
  - cbn [append basename].
    destruct (str_exists is_slash name) eqn:H; [reflexivity|].
    now rewrite basename_without_slash.
  - cbn [append basename].
    rewrite str_exists_append. cbn [append str_exists].
    change (is_slash "/"%char) with true.
    rewrite orb_true_r. exact IH.
Qed.

Lemma safe_char_not_newline (c : ascii) :
  safe_char c = true -> is_cp 10 c = false.
Proof.
  unfold safe_char, is_cp. intros H.
  destruct (ord c =? 10)%N eqn:E; [|reflexivity].
  apply N.eqb_eq in E.
  assert (Hc : c = ascii_of_N 10).
  { unfold ord in E. rewrite <- E. symmetry. apply ascii_N_embedding. }
  subst c. vm_compute in H. discriminate.
Qed.

Lemma safe_name_from_shape (s : string) :
  forall seen,
    safe_name_from s seen = true ->
    exists body,
      str_forall safe_char body = true
      /\ (s = body \/ s = (body ++ newline)%string)
      /\ (seen = false -> body <> "").
Proof.
  induction s as [|c s IH]; intros seen H.
  - exists "". cbn in H. subst seen. repeat split; auto. discriminate.
  - cbn [safe_name_from] in H. destruct (safe_char c) eqn:Hc.
    + destruct (IH true H) as (body & Hall & Hshape & _).
      exists (String c body). cbn [str_forall]. rewrite Hc, Hall.
      repeat split; [|discriminate].
      destruct Hshape as [->| ->]; [now left | now right].
    + apply andb_true_iff in H. destruct H as [H Hs].
      apply andb_true_iff in H. destruct H as [Hseen Hnl].
      apply String.eqb_eq in Hs. subst s. exists "".
      repeat split; [|congruence].
      right. cbn. unfold newline. f_equal.
      unfold is_cp in Hnl. apply N.eqb_eq in Hnl. unfold ord in Hnl.
      rewrite <- (ascii_N_embedding c), Hnl. reflexivity.
Qed.

Lemma plain_body_is_safe (body : string) :
  str_forall safe_char body = true ->
  forall seen,
    safe_name_from body seen = (seen || negb (body =? "")) /\
    safe_name_from (body ++ newline) seen = (seen || negb (body =? "")).
Proof.
  induction body as [|c body IH]; intros Hall seen.
  - split; destruct seen; reflexivity.
  - cbn [str_forall] in Hall. apply andb_true_iff in Hall.
    destruct Hall as [Hc Hall].
    cbn [safe_name_from append]. rewrite Hc.
    destruct (IH Hall true) as [H1 H2]. rewrite H1, H2.
    cbn. now rewrite orb_true_r.
Qed.

(** The names that the pattern accepts. *)
Lemma safe_name_iff (name : string) : safe_name name = true <-> plain_name name.
Proof.
  unfold safe_name, plain_name. split.
  - intros H. destruct (safe_name_from_shape _ _ H) as (body & Hall & Hs & Hne).
    exists body. auto.
  - intros (body & Hne & Hall & Hs).
    destruct (plain_body_is_safe body Hall false) as [H1 H2].
    assert (Hb : (body =? "") = false) by now apply String.eqb_neq.
    destruct Hs as [-> | ->]; [rewrite H1 | rewrite H2]; now rewrite Hb.
Qed.

(** X11: what [sanitize_filename] returns.  The result is the base name of
    the argument, it holds no slash, and it is a non-empty string of word
    characters, dashes and dots, after which one newline may stand; and
    every argument whose base name is of that form is accepted. *)
Theorem sanitize_filename_result :
  forall filename,
    match sanitize_filename filename with
    | Ok name =>
        name = basename filename
        /\ str_exists is_slash name = false
        /\ plain_name name
    | Raise e => e = ValueError /\ ~ plain_name (basename filename)
    end.
Proof.
  intros filename. unfold sanitize_filename.
  destruct (safe_name (basename filename)) eqn:H; cbn [negb].
  - repeat split; [apply basename_has_no_slash | now apply safe_name_iff].
  - split; [reflexivity|]. intros Hp. apply safe_name_iff in Hp. congruence.
Qed.

(** X12: directories are dropped and the function is idempotent.  A
    directory in front of a name changes nothing, so a path that climbs
    out of a directory is not refused but cut down to its last component;
    and a name that the function returns is returned unchanged when it is
    sanitized again. *)
Theorem sanitize_filename_drops_directories :
  (forall dir name,
      sanitize_filename (dir ++ "/" ++ name)%string = sanitize_filename name)
  /\ (forall filename name,
         sanitize_filename filename = Ok name ->
         sanitize_filename name = Ok name)
  /\ sanitize_filename "../../etc/passwd" = Ok "passwd".
Proof.
  split; [|split; [|reflexivity]].
  - intros dir name. unfold sanitize_filename. now rewrite basename_of_path.
  - intros filename name H. unfold sanitize_filename in *.
    destruct (safe_name (basename filename)) eqn:Hs; [|discriminate].
    cbn [negb] in H. injection H as <-.
    rewrite (basename_without_slash _ (basename_has_no_slash filename)).
    now rewrite Hs.
Qed.

(* ================================================================== *)
(** ** Properties of [range] and of the names of the files *)
(* ================================================================== *)

Local Open Scope Z_scope.

Lemma range_from_enough (fuel1 : nat) :
  forall (fuel2 : nat) (start stop step : Z),
    0 < step ->
    (Z.to_nat (stop - start) <= fuel1)%nat ->
    (Z.to_nat (stop - start) <= fuel2)%nat ->
    range_from fuel1 start stop step = range_from fuel2 start stop step.
Proof.
  induction fuel1 as [|fuel1 IH]; intros [|fuel2] start stop step Hstep H1 H2;
    cbn [range_from]; try reflexivity.
  - destruct (Z.ltb_spec start stop); [lia | reflexivity].
  - destruct (Z.ltb_spec start stop); [lia | reflexivity].
  - destruct (Z.ltb_spec start stop); [|reflexivity].
    f_equal. apply IH; lia.
Qed.

Lemma py_range_nil (start stop step : Z) :
  stop <= start -> py_range start stop step = [].
Proof.
  intros H. unfold py_range.
  replace (Z.to_nat (stop - start)) with 0%nat by lia. reflexivity.
Qed.

Lemma py_range_cons (start stop step : Z) :
  0 < step -> start < stop ->
  py_range start stop step = start :: py_range (start + step) stop step.
Proof.
  intros Hstep H. unfold py_range.
  destruct (Z.to_nat (stop - start)) as [|fuel] eqn:E; [lia|].
  cbn [range_from]. destruct (Z.ltb_spec start stop); [|lia].
  f_equal. apply range_from_enough; lia.
Qed.

(** Induction along [range(start, stop, step)]. *)
Lemma py_range_ind (stop step : Z) (P : Z -> list Z -> Prop) :
  0 < step ->
  (forall start, stop <= start -> P start []) ->
  (forall start, start < stop ->
     P (start + step) (py_range (start + step) stop step) ->
     P start (start :: py_range (start + step) stop step)) ->
  forall start, P start (py_range start stop step).
Proof.
  intros Hstep Hnil Hcons start.
  remember (Z.to_nat (stop - start)) as m eqn:Hm.
  revert start Hm. induction m as [m IH] using lt_wf_ind. intros start Hm.
  destruct (Z.lt_ge_cases start stop) as [Hlt|Hge].
  - rewrite py_range_cons by assumption. apply Hcons; [assumption|].
    apply (IH (Z.to_nat (stop - (start + step)))); [lia | reflexivity].
  - rewrite py_range_nil by assumption. now apply Hnil.
Qed.

Lemma py_range_bounds (stop step : Z) :
  0 < step ->
  forall start p, In p (py_range start stop step) -> start <= p < stop.
Proof.
  intros Hstep start.
  apply (py_range_ind stop step
           (fun start l => forall p, In p l -> start <= p < stop) Hstep).
  - intros s _ p [].
  - intros s Hlt IH p [<-|Hin]; [lia|]. specialize (IH p Hin). lia.
Qed.

Lemma py_range_unit_app (a b c : Z) :
  a <= b -> b <= c -> py_range a c 1 = py_range a b 1 ++ py_range b c 1.
Proof.
  intros Hab Hbc. revert Hab.
  apply (py_range_ind b 1
           (fun a l => a <= b -> py_range a c 1 = l ++ py_range b c 1));
    [lia | |].
  - intros s Hge Hle. assert (s = b) by lia. now subst.
  - intros s Hlt IH _. rewrite py_range_cons by lia.
    cbn [app]. f_equal. apply IH. lia.
Qed.

Lemma py_range_unit_length (a b : Z) :
  List.length (py_range a b 1) = Z.to_nat (b - a).
Proof.
  apply (py_range_ind b 1 (fun a l => List.length l = Z.to_nat (b - a)));
    [lia | |].
  - intros s H. cbn. lia.
  - intros s H IH. cbn [List.length]. rewrite IH. lia.
Qed.

Lemma py_range_unit_last (a b : Z) :
  a <= b -> py_range a (b + 1) 1 = py_range a b 1 ++ [b].
Proof.
  intros H. rewrite (py_range_unit_app a b (b + 1)) by lia.
  f_equal. rewrite py_range_cons by lia. now rewrite py_range_nil by lia.
Qed.

Lemma py_range_unit_sorted (a b : Z) :
  StronglySorted Z.lt (py_range a b 1).
Proof.
  apply (py_range_ind b 1 (fun a l => StronglySorted Z.lt l)); [lia | |].
  - constructor.
  - intros s H IH. constructor; [assumption|].
    apply Forall_forall. intros p Hp.
    apply py_range_bounds in Hp; lia.
Qed.

(** *** Names *)

Lemma append_cancel_l (p a b : string) :
  (p ++ a)%string = (p ++ b)%string -> a = b.
Proof.
  induction p as [|c p IH]; cbn; [trivial|].
  intros H. injection H as H. auto.
Qed.

Lemma append_length (a b : string) :
  String.length (a ++ b) = (String.length a + String.length b)%nat.
Proof. induction a as [|c a IH]; cbn; [reflexivity | now rewrite IH]. Qed.

Lemma append_cancel_r (s : string) :
  forall a b : string, (a ++ s)%string = (b ++ s)%string -> a = b.
Proof.
  induction a as [|c a IH]; intros [|d b] H.
  - reflexivity.
  - apply (f_equal String.length) in H. cbn in H.
    rewrite append_length in H. lia.
  - apply (f_equal String.length) in H. cbn in H.
    rewrite append_length in H. lia.
  - cbn in H. injection H as -> H. f_equal. now apply IH.
Qed.

Lemma str_of_int_injective (a b : Z) : str_of_int a = str_of_int b -> a = b.
Proof.
  unfold str_of_int. intros H.
  assert (Hnonnil : forall z, Z.to_int z <> Decimal.Pos Decimal.Nil
                              /\ Z.to_int z <> Decimal.Neg Decimal.Nil).
  { intros [|p|p]; cbn; split; try discriminate;
      intros E; injection E as E; now apply Unsigned.to_uint_nonnil in E. }
  apply (f_equal NilZero.int_of_string) in H.
  rewrite !NilZero.isi in H by apply Hnonnil.
  injection H as H. apply (f_equal Z.of_int) in H.
  now rewrite !DecimalZ.of_to in H.
Qed.

(* ================================================================== *)
(** ** Properties of [split_pdf_by_pattern] *)
(* ================================================================== *)

Lemma base_output_name_outcome (outputName : option string) (fresh : string) :
  match base_output_name outputName fresh with
  | Response _ => True
  | HTTPException code =>
      code = 400
      /\ exists name, outputName = Some name
                      /\ sanitize_filename name = Raise ValueError
  end.
Proof.
  unfold base_output_name. destruct outputName as [name|]; [|exact I].
  destruct (name =? "")%string; [exact I|].
  destruct (sanitize_filename name) as [safe|e] eqn:E; [exact I|].
  assert (e = ValueError) as ->.
  { unfold sanitize_filename in E.
    destruct (negb (safe_name (basename name))); [|discriminate].
    now injection E as <-. }
  split; [reflexivity|]. now exists name.
Qed.

Lemma parse_split_pattern_outcome (splitByPattern : string) :
  match parse_split_pattern splitByPattern with
  | Response n => py_int_of_str splitByPattern = Ok n /\ 0 < n
  | HTTPException code =>
      code = 400 /\ forall n, py_int_of_str splitByPattern = Ok n -> n <= 0
  end.
Proof.
  unfold parse_split_pattern, bind, py_int_of_str.
  destruct (int_of_chars _) as [n|]; cbn.
  - destruct (Z.leb_spec n 0); cbn.
    + split; [reflexivity|]. intros m Hm. injection Hm as <-. assumption.
    + split; [reflexivity | lia].
  - split; [reflexivity|]. intros m Hm. discriminate.
Qed.

Lemma pattern_chunks_cover (n pc : Z) :
  0 < n ->
  forall start,
    flat_map (fun s => py_range s (Z.min (s + n - 1) (pc - 1) + 1) 1)
      (py_range start pc n)
    = py_range start pc 1.
Proof.
  intros Hn.
  apply (py_range_ind pc n
           (fun start l =>
              flat_map (fun s => py_range s (Z.min (s + n - 1) (pc - 1) + 1) 1) l
              = py_range start pc 1) Hn).
  - intros s H. cbn. now rewrite py_range_nil.
  - intros s H IH. cbn [flat_map]. rewrite IH.
    destruct (Z.le_gt_cases (s + n) pc) as [Hle|Hgt].
    + replace (Z.min (s + n - 1) (pc - 1) + 1) with (s + n) by lia.
      symmetry. apply py_range_unit_app; lia.
    + replace (Z.min (s + n - 1) (pc - 1) + 1) with pc by lia.
      rewrite (py_range_nil (s + n)) by lia. apply app_nil_r.
Qed.

Lemma py_range_count (n pc : Z) :
  0 < n ->
  forall start,
    List.length (py_range start pc n) = Z.to_nat ((pc - start + n - 1) / n).
Proof.
  intros Hn.
  apply (py_range_ind pc n
           (fun start l =>
              List.length l = Z.to_nat ((pc - start + n - 1) / n)) Hn).
  - intros s H. cbn [List.length].
    assert ((pc - s + n - 1) / n <= 0); [|lia].
    apply Z.lt_succ_r. apply Z.div_lt_upper_bound; lia.
  - intros s H IH. cbn [List.length]. rewrite IH.
    replace (pc - s + n - 1) with ((pc - (s + n) + n - 1) + 1 * n) by lia.
    rewrite Z.div_add by lia.
    assert (0 <= (pc - (s + n) + n - 1) / n) by (apply Z.div_pos; lia).
    lia.
Qed.

Lemma py_range_removelast (n pc : Z) :
  0 < n ->
  forall start s, In s (removelast (py_range start pc n)) -> s + n < pc.
Proof.
  intros Hn.
  apply (py_range_ind pc n
           (fun start l => forall s, In s (removelast l) -> s + n < pc) Hn).
  - intros s _ p [].
  - intros s Hlt IH p Hin.
    destruct (Z.lt_ge_cases (s + n) pc) as [Hnext|Hlast].
    + rewrite py_range_cons in Hin, IH by assumption.
      cbn [removelast] in Hin. destruct Hin as [<-|Hin]; [assumption|].
      apply IH. exact Hin.
    + rewrite py_range_nil in Hin by assumption. destruct Hin.
Qed.

Lemma chunk_numbers_distinct (n pc : Z) :
  0 < n ->
  forall start, NoDup (map (fun s => s / n + 1) (py_range start pc n)).
Proof.
  intros Hn.
  apply (py_range_ind pc n
           (fun start l => NoDup (map (fun s => s / n + 1) l)) Hn).
  - constructor.
  - intros s Hlt IH. cbn [map]. constructor; [|assumption].
    intros Hin. apply in_map_iff in Hin as (p & Hp & Hin).
    apply (py_range_bounds pc n Hn) in Hin.
    assert (s / n + 1 <= p / n); [|lia].
    replace (s / n + 1) with ((s + 1 * n) / n) by (rewrite Z.div_add; lia).
    apply Z.div_le_mono; lia.
Qed.

Lemma removelast_map {A B : Type} (f : A -> B) (l : list A) :
  removelast (map f l) = map f (removelast l).
Proof.
  induction l as [|a [|b l] IH]; [reflexivity | reflexivity |].
  cbn [map removelast] in *. now rewrite IH.
Qed.

Lemma removelast_In {A : Type} (x : A) (l : list A) :
  In x (removelast l) -> In x l.
Proof.
  induction l as [|a [|b l] IH]; [intros [] | intros [] |].
  cbn [removelast]. intros [<-|H]; [now left | right; now apply IH].
Qed.

Lemma pattern_names_distinct (name : string) (n pc : Z) :
  0 < n ->
  forall start,
    NoDup (map out_name (map (pattern_chunk name pc n) (py_range start pc n))).
Proof.
  intros Hn start. rewrite map_map.
  pose proof (chunk_numbers_distinct n pc Hn start) as Hnum.
  induction (py_range start pc n) as [|s l IH]; [constructor|].
  cbn [map] in *. inversion Hnum as [|? ? Hnotin Hrest]; subst.
  constructor; [|now apply IH].
  intros Hin. apply Hnotin.
  apply in_map_iff in Hin as (p & Hp & Hin).
  apply in_map_iff. exists p. split; [|assumption].
  unfold pattern_chunk in Hp. cbn [out_name] in Hp.
  apply append_cancel_l in Hp. apply append_cancel_l in Hp.
  apply append_cancel_r in Hp. now apply str_of_int_injective.
Qed.

(** X13: [split_pdf_by_pattern] cuts the document into consecutive chunks.
    Once the input file is accepted, the request is answered with status 400 exactly when [splitByPattern]
    is not a positive integer for [int()] or the output name is refused.
    Otherwise, with [n] the number read: every [insert_pdf] call names
    pages of the source in increasing order; the files, read one after the
    other, hold every page of the source once and in order; there are
    [max 1 (ceil (page_count / n))] files; none holds more than [n] pages
    and all but the last hold exactly [n]; no two files have the same
    name; and the output name was accepted. *)
Theorem split_by_pattern_partitions_pages (splitByPattern : string)
    (outputName : option string) (fresh : string) (page_count : nat) :
  let pc := Z.of_nat page_count in
  match split_by_pattern splitByPattern outputName fresh pc with
  | Response files =>
      exists n,
        py_int_of_str splitByPattern = Ok n /\ 0 < n
        /\ Forall (calls_in_document pc) files
        /\ flat_map (pages_of pc) files = py_range 0 pc 1
        /\ List.length files = Z.to_nat (Z.max 1 ((pc + n - 1) / n))
        /\ Forall (fun f => (List.length (pages_of pc f) <= Z.to_nat n)%nat) files
        /\ (forall f, In f (removelast files) ->
                      List.length (pages_of pc f) = Z.to_nat n)
        /\ NoDup (map out_name files)
        /\ exists base, base_output_name outputName fresh = Response base
  | HTTPException code =>
      code = 400
      /\ ((forall n, py_int_of_str splitByPattern = Ok n -> n <= 0)
          \/ exists name, outputName = Some name
                          /\ sanitize_filename name = Raise ValueError)
  end.
Proof.
  intros pc. assert (Hpc : 0 <= pc) by (unfold pc; lia).
  unfold split_by_pattern, http_bind.
  pose proof (parse_split_pattern_outcome splitByPattern) as Hparse.
  destruct (parse_split_pattern splitByPattern) as [n|code];
    [|now split; [|left]].
  destruct Hparse as [Hint Hn].
  pose proof (base_output_name_outcome outputName fresh) as Hname.
  destruct (base_output_name outputName fresh) as [name|code];
    [|now split; [|right]].
  destruct (Z.leb_spec pc n) as [Hwhole|Hsplit];
    (exists n; split; [assumption|]; split; [assumption|]).
  - (* the source document is saved as it is *)
    repeat split.
    + constructor; [exact I | constructor].
    + cbn. apply app_nil_r.
    + cbn [List.length].
      assert ((pc + n - 1) / n <= 1); [|lia].
      apply Z.lt_succ_r. apply Z.div_lt_upper_bound; lia.
    + constructor; [|constructor]. unfold pages_of. cbn.
      rewrite py_range_unit_length. lia.
    + intros f [].
    + cbn. constructor; [intros [] | constructor].
    + now exists name.
  - repeat split.
    + apply Forall_forall. intros f Hf.
      apply in_map_iff in Hf as (s & <- & Hs).
      apply (py_range_bounds pc n Hn) in Hs.
      unfold calls_in_document, pattern_chunk, insert_pdf. cbn.
      constructor; [|constructor]. unfold call_in_document. cbn. lia.
    + rewrite flat_map_concat_map, map_map, <- flat_map_concat_map.
      rewrite <- (pattern_chunks_cover n pc Hn 0).
      apply flat_map_ext. intros s.
      unfold pages_of, pattern_chunk, insert_pdf, inserted_pages. cbn.
      apply app_nil_r.
    + rewrite length_map, py_range_count by assumption.
      rewrite Z.sub_0_r.
      assert (1 <= (pc + n - 1) / n); [|now rewrite Z.max_r].
      apply Z.div_le_lower_bound; lia.
    + apply Forall_forall. intros f Hf.
      apply in_map_iff in Hf as (s & <- & Hs).
      unfold pages_of, pattern_chunk, insert_pdf, inserted_pages. cbn.
      rewrite app_nil_r, py_range_unit_length. lia.
    + intros f Hf. rewrite removelast_map in Hf.
      apply in_map_iff in Hf as (s & <- & Hs).
      pose proof (py_range_removelast n pc Hn 0 s Hs) as Hnext.
      apply removelast_In in Hs.
      apply (py_range_bounds pc n Hn) in Hs.
      unfold pages_of, pattern_chunk, insert_pdf, inserted_pages. cbn.
      rewrite app_nil_r, py_range_unit_length. lia.
    + now apply pattern_names_distinct.
    + now exists name.
Qed.

(* ================================================================== *)
(** ** Properties of [split_pdf_by_range] *)
(* ================================================================== *)

Lemma mapM_Ok {A B : Type} (f : A -> result B) (l : list A) :
  forall rs, mapM f l = Ok rs -> Forall2 (fun x r => f x = Ok r) l rs.
Proof.
  induction l as [|x l IH]; intros rs H; cbn [mapM] in H.
  - injection H as <-. constructor.
  - unfold bind in H. destruct (f x) as [r|e] eqn:Hx; [|discriminate].
    destruct (mapM f l) as [rs'|e]; [|discriminate].
    injection H as <-. constructor; [assumption | now apply IH].
Qed.

Lemma mapM_Raise {A B : Type} (f : A -> result B) (l : list A) (e : exn) :
  mapM f l = Raise e -> exists x, In x l /\ f x = Raise e.
Proof.
  induction l as [|x l IH]; cbn [mapM]; [discriminate|].
  unfold bind. destruct (f x) as [r|e'] eqn:Hx.
  - destruct (mapM f l) as [rs'|e'']; [discriminate|].
    intros H. injection H as ->. destruct (IH eq_refl) as (y & Hy & Hfy).
    exists y. split; [now right | assumption].
  - intros H. injection H as ->. exists x. split; [now left | assumption].
Qed.

Lemma py_int_of_str_raises (s : string) (e : exn) :
  py_int_of_str s = Raise e -> e = ValueError.
Proof.
  unfold py_int_of_str. destruct (int_of_chars _); [discriminate|].
  now intros H; injection H as <-.
Qed.

Lemma parse_range_item_outcome (range_str : string) :
  match parse_range_item range_str with
  | Ok r => 0 <= fst r <= snd r
  | Raise e => e = ValueError
  end.
Proof.
  unfold parse_range_item, bind.
  destruct (contains "-" (strip range_str)).
  - destruct (split_once dash (strip range_str)) as [|start [|end_ [|]]];
      try reflexivity.
    destruct (py_int_of_str (strip start)) as [a|e] eqn:Ha;
      [|now apply py_int_of_str_raises in Ha].
    destruct (py_int_of_str (strip end_)) as [b|e] eqn:Hb;
      [|now apply py_int_of_str_raises in Hb].
    destruct (Z.ltb_spec (a - 1) 0); [reflexivity|].
    destruct (Z.ltb_spec (b - 1) (a - 1)); [reflexivity|].
    cbn. lia.
  - destruct (py_int_of_str (strip range_str)) as [a|e] eqn:Ha;
      [|now apply py_int_of_str_raises in Ha].
    destruct (Z.ltb_spec (a - 1) 0); [reflexivity|]. cbn. lia.
Qed.

Lemma range_loop_files (name : string) (pc : Z) (ranges : list (Z * Z)) :
  Forall (fun r => 0 <= fst r <= snd r) ranges ->
  forall files,
    map out_content (fold_left (range_step name pc) ranges files)
    = map out_content files
      ++ map (fun r => NewDocument [r]) (filter (fun r => snd r <? pc) ranges).
Proof.
  induction 1 as [|[a b] ranges Hr _ IH]; intros files; cbn [fold_left].
  - cbn. now rewrite app_nil_r.
  - rewrite IH. cbn [fst snd] in Hr. cbn [filter].
    unfold range_step. cbn [snd].
    destruct (Z.leb_spec pc a), (Z.leb_spec pc b), (Z.ltb_spec b pc);
      try lia; cbn [orb]; try reflexivity.
    rewrite map_app, <- app_assoc. reflexivity.
Qed.

(** X14: once the input file is accepted, [split_pdf_by_range] answers
    with status 400 exactly when an item
    of [splitByRange] is refused (it is not a number or a pair of numbers
    [a-b] with [1 <= a <= b]) or the output name is refused.  Otherwise
    the parsed ranges are 0-based with [0 <= start <= end]; there is one
    file for each range that ends within the document, in the order of the
    request, made by a single [insert_pdf] call on pages in the document;
    a range that reaches beyond the last page gives no file and no error,
    so that the list of files can be empty; and no file is empty. *)
Theorem split_by_range_stays_in_document (splitByRange : string)
    (outputName : option string) (fresh : string) (page_count : Z) :
  match split_by_range splitByRange outputName fresh page_count with
  | Response files =>
      exists ranges,
        mapM parse_range_item (split "," splitByRange) = Ok ranges
        /\ Forall (fun r => 0 <= fst r <= snd r) ranges
        /\ map out_content files
           = map (fun r => NewDocument [r])
               (filter (fun r => snd r <? page_count) ranges)
        /\ Forall (calls_in_document page_count) files
        /\ Forall (fun f => pages_of page_count f <> []) files
        /\ exists base, base_output_name outputName fresh = Response base
  | HTTPException code =>
      code = 400
      /\ ((exists item, In item (split "," splitByRange)
                        /\ parse_range_item item = Raise ValueError)
          \/ exists name, outputName = Some name
                          /\ sanitize_filename name = Raise ValueError)
  end.
Proof.
  unfold split_by_range, parse_ranges, http_bind, bad_request_on_value_error.
  destruct (mapM parse_range_item (split "," splitByRange)) as [ranges|e]
    eqn:Hparse.
  - assert (Hranges : Forall (fun r => 0 <= fst r <= snd r) ranges).
    { apply mapM_Ok in Hparse. clear -Hparse.
      induction Hparse as [|item r items rs Hitem _ IH]; constructor;
        [|assumption].
      pose proof (parse_range_item_outcome item) as H.
      now rewrite Hitem in H. }
    pose proof (base_output_name_outcome outputName fresh) as Hname.
    destruct (base_output_name outputName fresh) as [name|code];
      [|now split; [|right]].
    pose proof (range_loop_files name page_count ranges Hranges []) as Hfiles.
    cbn [map app] in Hfiles.
    set (files := fold_left (range_step name page_count) ranges []) in *.
    assert (Hcalls : Forall (fun f => exists r,
                                 out_content f = NewDocument [r]
                                 /\ 0 <= fst r <= snd r
                                 /\ snd r < page_count) files).
    { apply Forall_forall. intros f Hf.
      apply (in_map out_content) in Hf. rewrite Hfiles in Hf.
      apply in_map_iff in Hf as (r & Hr & Hin).
      apply filter_In in Hin as [Hin Hwithin].
      exists r. split; [now symmetry|]. split.
      - now apply (proj1 (Forall_forall _ _) Hranges).
      - lia. }
    exists ranges. repeat split; try assumption.
    + apply Forall_impl with (2 := Hcalls).
      intros f (r & Hf & Hr & Hpc). unfold calls_in_document. rewrite Hf.
      constructor; [|constructor]. unfold call_in_document. lia.
    + apply Forall_impl with (2 := Hcalls).
      intros f (r & Hf & Hr & Hpc). unfold pages_of, inserted_pages.
      rewrite Hf. cbn [flat_map]. rewrite py_range_cons by lia. discriminate.
    + now exists name.
  - pose proof (mapM_Raise _ _ _ Hparse) as (item & Hin & Hitem).
    pose proof (parse_range_item_outcome item) as H. rewrite Hitem in H.
    subst e. split; [reflexivity|]. left. now exists item.
Qed.

(* ================================================================== *)
(** ** Properties of [extract_pdf_pages] *)
(* ================================================================== *)






(** Two lists of integers in increasing order with the same elements are
    the same list. *)
Lemma sorted_lists_equal (l1 : list Z) :
  forall l2,
    StronglySorted Z.lt l1 -> StronglySorted Z.lt l2 ->
    (forall p, In p l1 <-> In p l2) -> l1 = l2.
Proof.
  induction l1 as [|x l1 IH]; intros [|y l2] H1 H2 Hsame.
  - reflexivity.
  - destruct (proj2 (Hsame y)). now left.
  - destruct (proj1 (Hsame x)). now left.
  - inversion H1 as [|? ? Hs1 Hx]; inversion H2 as [|? ? Hs2 Hy]; subst.
    rewrite Forall_forall in Hx, Hy.
    assert (x = y) as ->.
    { destruct (proj1 (Hsame x) (or_introl eq_refl)) as [->|Hxin];
        [reflexivity|].
      destruct (proj2 (Hsame y) (or_introl eq_refl)) as [->|Hyin];
        [reflexivity|].
      specialize (Hx _ Hyin). specialize (Hy _ Hxin). lia. }
    f_equal. apply IH; try assumption.
    intros p. split; intros Hp.
    + destruct (proj1 (Hsame p) (or_intror Hp)) as [<-|H]; [|assumption].
      specialize (Hx _ Hp). lia.
    + destruct (proj2 (Hsame p) (or_intror Hp)) as [<-|H]; [|assumption].
      specialize (Hy _ Hp). lia.
Qed.





Lemma insert_each_page (pages : list Z) :
  forall doc,
    fold_left (fun doc page_num => insert_pdf doc page_num page_num) pages doc
    = doc ++ map (fun p => (p, p)) pages.
Proof.
  induction pages as [|p pages IH]; intros doc; cbn [fold_left map].
  - now rewrite app_nil_r.
  - rewrite IH. unfold insert_pdf. now rewrite <- app_assoc.
Qed.

Lemma inserted_single_pages (pages : list Z) :
  inserted_pages (map (fun p => (p, p)) pages) = pages.
Proof.
  unfold inserted_pages. induction pages as [|p pages IH]; [reflexivity|].
  cbn [map flat_map fst snd]. rewrite IH.
  rewrite py_range_cons by lia. now rewrite py_range_nil by lia.
Qed.

Lemma substring_append_suffix (s suffix : string) :
  substring (String.length s) (String.length suffix) (s ++ suffix) = suffix.
Proof.
  induction s as [|c s IH]; cbn [String.length append substring].
  - induction suffix as [|c suffix IH]; [reflexivity|].
    cbn. now rewrite IH.
  - exact IH.
Qed.

Lemma endswith_append (s suffix : string) :
  endswith suffix (s ++ suffix) = true.
Proof.
  unfold endswith. rewrite append_length.
  replace (String.length s + String.length suffix - String.length suffix)%nat
    with (String.length s) by lia.
  rewrite substring_append_suffix, String.eqb_refl.
  rewrite andb_true_r. apply Nat.leb_le. lia.
Qed.



(* ================================================================== *)
(** ** Properties of [split_pdf_by_size] *)
(* ================================================================== *)

Lemma single_pages_last (a b : Z) :
  a <= b -> insert_pdf (single_pages a b) b b = single_pages a (b + 1).
Proof.
  intros H. unfold insert_pdf, single_pages.
  rewrite py_range_unit_last by assumption. now rewrite map_app.
Qed.

Lemma single_pages_length (a b : Z) :
  List.length (single_pages a b) = Z.to_nat (b - a).
Proof. unfold single_pages. now rewrite length_map, py_range_unit_length. Qed.

Lemma single_pages_rebuilt (a b : Z) :
  fold_left (fun d p => insert_pdf d p p) (py_range a b 1) []
  = single_pages a b.
Proof. now rewrite insert_each_page. Qed.

Section SizeLoop.

Variable saved_size : list (Z * Z) -> Z.
Variable safe_output_name : string.
Variables page_count max_size_bytes : Z.

Local Abbreviation size_step :=
  (size_step saved_size safe_output_name page_count max_size_bytes).
Local Abbreviation size_loop :=
  (size_loop saved_size safe_output_name page_count max_size_bytes).
Local Abbreviation size_invariant_at :=
  (size_invariant_at saved_size safe_output_name max_size_bytes).
Local Abbreviation last_turn := (last_turn saved_size max_size_bytes).
Local Abbreviation chunks_from := (chunks_from saved_size max_size_bytes).
Local Abbreviation good_chunk := (good_chunk saved_size max_size_bytes).

Lemma names_extend (st : size_state) (doc : list (Z * Z)) :
  chunk_number st = 1 + Z.of_nat (List.length (output_files st)) ->
  map out_name (output_files st)
  = map (chunk_name safe_output_name) (py_range 1 (chunk_number st) 1) ->
  map out_name (output_files st ++ [size_chunk safe_output_name st doc])
  = map (chunk_name safe_output_name) (py_range 1 (chunk_number st + 1) 1).
Proof.
  intros Hnum Hnames. rewrite map_app, Hnames.
  rewrite py_range_unit_last by lia. now rewrite map_app.
Qed.

Lemma size_step_invariant (j k : Z) (st : size_state) :
  size_invariant_at j k st ->
  exists j',
    size_invariant_at j' (k + 1) (size_step st k)
    /\ (k = page_count - 1 -> last_turn j' k (size_step st k)).
Proof.
  intros (Hj & Hdoc & Hpages & Hfit & Hchunks & Hnum & Hnames).
  unfold size_step. rewrite Hdoc, Hpages, single_pages_last by lia.
  replace (k - (k - j + 1) + 1) with j by lia.
  rewrite single_pages_rebuilt.
  destruct (Z.ltb_spec max_size_bytes (saved_size (single_pages j (k + 1))))
    as [Hover|Hwithin]; cbn [orb andb].
  - destruct (Z.ltb_spec 1 (k - j + 1)) as [Hmany|Hone].
    + (* the pages before [k] are saved, and [k] starts a new document *)
      exists k. split.
      * unfold size_invariant_at.
        cbn [output_files current_doc current_pages chunk_number].
        repeat split; try lia.
        -- unfold insert_pdf, single_pages. rewrite py_range_cons by lia.
           now rewrite py_range_nil by lia.
        -- apply chunks_more with (middle := j); [assumption|].
           repeat split; [lia|].
           rewrite Hdoc in Hfit. destruct Hfit as [Hshort|Hsize].
           ++ left. rewrite single_pages_length. lia.
           ++ now right.
        -- rewrite length_app. cbn [List.length]. lia.
        -- now apply names_extend.
      * intros _. right. split; [reflexivity|].
        exists (output_files st),
          (size_chunk safe_output_name st (single_pages j k)),
          (single_pages j k).
        repeat split. now rewrite single_pages_last by lia.
    + (* a single page that is too large is saved on its own *)
      exists (k + 1). split; [|intros _; now left].
      unfold size_invariant_at.
      cbn [output_files current_doc current_pages chunk_number].
      repeat split; try lia.
      * unfold single_pages. now rewrite py_range_nil by lia.
      * apply chunks_more with (middle := j); [assumption|].
        repeat split; [lia|].
        left. rewrite single_pages_length. lia.
      * rewrite length_app. cbn [List.length]. lia.
      * now apply names_extend.
  - destruct (Z.eqb_spec k (page_count - 1)) as [Hlast|Hmore].
    + (* the last page fits: the document is saved *)
      exists (k + 1). split; [|intros _; now left].
      unfold size_invariant_at.
      cbn [output_files current_doc current_pages chunk_number].
      repeat split; try lia.
      * unfold single_pages. now rewrite py_range_nil by lia.
      * apply chunks_more with (middle := j); [assumption|].
        repeat split; [lia|]. now right.
      * rewrite length_app. cbn [List.length]. lia.
      * now apply names_extend.
    + (* the page fits and more pages follow *)
      exists j. split; [|intros H; contradiction].
      unfold size_invariant_at.
      cbn [output_files current_doc current_pages chunk_number].
      repeat split; try lia; try assumption.
Qed.

Lemma size_loop_invariant (n : nat) :
  exists j,
    size_invariant_at j (Z.of_nat n) (size_loop (py_range 0 (Z.of_nat n) 1))
    /\ (Z.of_nat n = page_count ->
        j = page_count
        \/ (j = page_count - 1
            /\ exists files file doc,
                 output_files (size_loop (py_range 0 (Z.of_nat n) 1))
                 = files ++ [file]
                 /\ out_content file = NewDocument doc
                 /\ max_size_bytes
                    < saved_size
                        (insert_pdf doc (page_count - 1) (page_count - 1)))).
Proof.
  induction n as [|n IH].
  - exists 0. split; [|intros <-; now left].
    unfold size_loop. cbn.
    unfold size_invariant_at. cbn. repeat split; try lia.
    constructor.
  - destruct IH as (j & Hinv & _).
    replace (Z.of_nat (S n)) with (Z.of_nat n + 1) by lia.
    unfold size_loop in *. rewrite py_range_unit_last by lia.
    rewrite fold_left_app. cbn [fold_left].
    destruct (size_step_invariant j (Z.of_nat n) _ Hinv) as (j' & Hinv' & Hlast).
    exists j'. split; [assumption|].
    intros Hn. destruct (Hlast ltac:(lia)) as [->|(-> & Hfile)];
      [left; lia | right].
    split; [lia|]. replace (page_count - 1) with (Z.of_nat n) by lia.
    exact Hfile.
Qed.

Lemma chunks_from_pages (first next : Z) (files : list OutputFile) :
  chunks_from first files next ->
  0 <= first -> next <= page_count ->
  first <= next
  /\ flat_map (pages_of page_count) files = py_range first next 1
  /\ Forall (calls_in_document page_count) files
  /\ Forall (fun file =>
               exists doc, out_content file = NewDocument doc
                           /\ doc <> []
                           /\ fits saved_size max_size_bytes doc) files.
Proof.
  induction 1 as [first|first middle next files file _ IH (Hlt & Hfile & Hfit)];
    intros Hfirst Hnext.
  - repeat split; [lia | | constructor | constructor].
    cbn. now rewrite py_range_nil by lia.
  - destruct (IH Hfirst ltac:(lia)) as (Hle & Hpages & Hcalls & Hfits).
    repeat split; [lia | | |].
    + rewrite flat_map_app, Hpages. cbn [flat_map]. rewrite app_nil_r.
      unfold pages_of. rewrite Hfile.
      unfold single_pages. rewrite inserted_single_pages.
      symmetry. apply py_range_unit_app; lia.
    + apply Forall_app. split; [assumption|]. constructor; [|constructor].
      unfold calls_in_document. rewrite Hfile. unfold single_pages.
      apply Forall_forall. intros call Hcall.
      apply in_map_iff in Hcall as (p & <- & Hp).
      apply py_range_bounds in Hp; [|lia].
      unfold call_in_document. cbn. lia.
    + apply Forall_app. split; [assumption|]. constructor; [|constructor].
      exists (single_pages middle next). split; [assumption|].
      split; [|assumption].
      unfold single_pages. rewrite py_range_cons by lia. discriminate.
Qed.

End SizeLoop.

(** X16: [split_pdf_by_size], for any function [saved_size] that gives the
    size of a saved document from the pages inserted in it.  Once the
    input file is accepted, the status is 400 exactly when [maxSizeKB]
    is not positive or the output name is refused.  Otherwise the files,
    read one after the other, hold the pages [0 .. written - 1] of the
    source in order, each page once; [written] is the page count, or the
    page count less one, and then the last page is in no file: it did not
    fit with the pages of the last file written.  Every file is made of
    calls on single pages of the document, holds at least one page, and is
    within the limit unless it holds one page only; the files are numbered
    from 1 in their names. *)
Theorem split_by_size_keeps_page_order (saved_size : list (Z * Z) -> Z)
    (maxSizeKB : Z) (outputName : option string) (fresh : string)
    (page_count : nat) :
  let pc := Z.of_nat page_count in
  match split_by_size saved_size maxSizeKB outputName fresh pc with
  | Response files =>
      exists name written,
        0 < maxSizeKB
        /\ base_output_name outputName fresh = Response name
        /\ flat_map (pages_of pc) files = py_range 0 written 1
        /\ (written = pc
            \/ (written = pc - 1
                /\ exists before file doc,
                     files = before ++ [file]
                     /\ out_content file = NewDocument doc
                     /\ maxSizeKB * 1024
                        < saved_size (insert_pdf doc (pc - 1) (pc - 1))))
        /\ Forall (calls_in_document pc) files
        /\ Forall (fun file =>
                     exists doc,
                       out_content file = NewDocument doc
                       /\ doc <> []
                       /\ (List.length doc = 1%nat
                           \/ saved_size doc <= maxSizeKB * 1024)) files
        /\ map out_name files
           = map (chunk_name name)
               (py_range 1 (1 + Z.of_nat (List.length files)) 1)
  | HTTPException code =>
      code = 400
      /\ (maxSizeKB <= 0
          \/ exists name, outputName = Some name
                          /\ sanitize_filename name = Raise ValueError)
  end.
Proof.
  intros pc. unfold split_by_size, http_bind.
  destruct (Z.leb_spec maxSizeKB 0) as [Hbad|Hpos];
    [now split; [|left]|].
  pose proof (base_output_name_outcome outputName fresh) as Hname.
  destruct (base_output_name outputName fresh) as [name|code];
    [|now split; [|right]].
  destruct (size_loop_invariant saved_size name pc (maxSizeKB * 1024)
              page_count)
    as (j & (Hj & _ & _ & _ & Hchunks & Hnum & Hnames) & Hlast).
  fold pc in Hj, Hchunks, Hnum, Hnames, Hlast.
  set (st := size_loop saved_size name pc (maxSizeKB * 1024)
               (py_range 0 pc 1)) in *.
  specialize (Hlast eq_refl).
  assert (Hjpc : j <= pc) by lia.
  destruct (chunks_from_pages saved_size pc (maxSizeKB * 1024) 0 j
              (output_files st) Hchunks ltac:(lia) Hjpc)
    as (_ & Hpages & Hcalls & Hfits).
  exists name, j. repeat split; try assumption.
  now rewrite <- Hnum.
Qed.

Section SizeLoopPrefix.

Variable saved_size : list (Z * Z) -> Z.
Variable safe_output_name : string.
Variables page_count max_size_bytes : Z.

Local Abbreviation size_step :=
  (size_step saved_size safe_output_name page_count max_size_bytes).
Local Abbreviation size_loop :=
  (size_loop saved_size safe_output_name page_count max_size_bytes).

Hypothesis prefixes_fit :
  forall k, 0 < k < page_count -> saved_size (single_pages 0 k) <= max_size_bytes.

Lemma size_loop_prefix (n : nat) :
  Z.of_nat n < page_count ->
  size_loop (py_range 0 (Z.of_nat n) 1)
  = {| output_files := [];
       current_doc := single_pages 0 (Z.of_nat n);
       current_pages := Z.of_nat n;
       chunk_number := 1 |}.
Proof.
  induction n as [|n IH]; intros Hn; [reflexivity|].
  replace (Z.of_nat (S n)) with (Z.of_nat n + 1) by lia.
  unfold size_loop in *. rewrite py_range_unit_last by lia.
  rewrite fold_left_app, IH by lia. cbn [fold_left].
  unfold size_step. cbn [current_doc current_pages output_files chunk_number].
  rewrite single_pages_last by lia.
  destruct (Z.ltb_spec max_size_bytes
              (saved_size (single_pages 0 (Z.of_nat n + 1)))) as [Hover|_].
  - specialize (prefixes_fit (Z.of_nat n + 1)). lia.
  - destruct (Z.eqb_spec (Z.of_nat n) (page_count - 1)); [lia|].
    reflexivity.
Qed.

Lemma size_loop_overflowing_last (n : nat) :
  page_count = Z.of_nat n + 1 ->
  (1 <= n)%nat ->
  max_size_bytes < saved_size (single_pages 0 page_count) ->
  output_files (size_loop (py_range 0 page_count 1))
  = [ {| out_name := chunk_name safe_output_name 1;
         out_content := NewDocument (single_pages 0 (page_count - 1)) |} ].
Proof.
  intros Hn Hmany Hover.
  pose proof (size_loop_prefix n ltac:(lia)) as Hprefix.
  unfold size_loop in *.
  replace (py_range 0 page_count 1)
    with (py_range 0 (Z.of_nat n) 1 ++ [Z.of_nat n])
    by (rewrite Hn; symmetry; apply py_range_unit_last; lia).
  rewrite fold_left_app, Hprefix.
  cbn [fold_left]. unfold size_step.
  cbn [current_doc current_pages output_files chunk_number].
  rewrite single_pages_last by lia. rewrite <- Hn.
  destruct (Z.ltb_spec max_size_bytes (saved_size (single_pages 0 page_count)));
    [|lia].
  destruct (Z.ltb_spec 1 page_count); [|lia].
  cbn [orb andb output_files app].
  replace (Z.of_nat n - page_count + 1) with 0 by lia.
  rewrite single_pages_rebuilt.
  replace (page_count - 1) with (Z.of_nat n) by lia. reflexivity.
Qed.

End SizeLoopPrefix.

(** X17: [split_pdf_by_size] loses the last page of a document that goes
    beyond the limit only with its last page.  If the first [k] pages are
    within the limit for every [k] below the page count, and the whole
    document of two pages or more is not, the response names one file,
    and it holds all the pages but the last. *)
Theorem split_by_size_drops_overflowing_last_page
    (saved_size : list (Z * Z) -> Z) (maxSizeKB : Z)
    (outputName : option string) (fresh name : string) (page_count : nat) :
  let pc := Z.of_nat page_count in
  0 < maxSizeKB ->
  base_output_name outputName fresh = Response name ->
  2 <= pc ->
  (forall k, 0 < k < pc -> saved_size (single_pages 0 k) <= maxSizeKB * 1024) ->
  maxSizeKB * 1024 < saved_size (single_pages 0 pc) ->
  exists file,
    split_by_size saved_size maxSizeKB outputName fresh pc = Response [file]
    /\ out_name file = chunk_name name 1
    /\ pages_of pc file = py_range 0 (pc - 1) 1
    /\ ~ In (pc - 1) (pages_of pc file).
Proof.
  intros pc Hpos Hname Hpc Hfit Hover.
  unfold split_by_size, http_bind. rewrite Hname.
  destruct (Z.leb_spec maxSizeKB 0); [lia|].
  destruct page_count as [|n]; [unfold pc in Hpc; lia|].
  rewrite (size_loop_overflowing_last saved_size name pc (maxSizeKB * 1024)
             Hfit n); [|unfold pc; lia | unfold pc in Hpc; lia | assumption].
  eexists. split; [reflexivity|]. split; [reflexivity|].
  assert (Hpages : pages_of pc
                     {| out_name := chunk_name name 1;
                        out_content := NewDocument (single_pages 0 (pc - 1)) |}
                   = py_range 0 (pc - 1) 1).
  { unfold pages_of, single_pages. cbn [out_content].
    apply inserted_single_pages. }
  split; [exact Hpages|].
  rewrite Hpages. intros Hin. apply py_range_bounds in Hin; lia.
Qed.

(** X17 on a document of three pages of 400 bytes each and a limit of
    1 KB: the only file holds the pages 0 and 1. *)
Lemma split_by_size_drops_last_page_witness :
  exists file,
    split_by_size (size_of_pages 400) 1 None "out" 3 = Response [file]
    /\ out_name file = "out-1.pdf"%string
    /\ pages_of 3 file = [0; 1]
    /\ ~ In 2 (pages_of 3 file).
Proof.
  apply (split_by_size_drops_overflowing_last_page
           (size_of_pages 400) 1 None "out" "out" 3).
  - lia.
  - reflexivity.
  - cbn. lia.
  - intros k Hk. unfold size_of_pages. rewrite single_pages_length.
    cbn in Hk. lia.
  - vm_compute. reflexivity.
Defined.

(* ================================================================== *)
(** ** The names of the output files *)
(* ================================================================== *)

Lemma before_last_dot_head (s head : string) :
  before_last_dot s = Some head ->
  exists rest, s = (head ++ rest)%string.
Proof.
  revert head. induction s as [|c s IH]; intros head; cbn [before_last_dot];
    [discriminate|].
  destruct (before_last_dot s) as [h|].
  - intros H. injection H as <-. destruct (IH h eq_refl) as (rest & ->).
    now exists rest.
  - destruct (is_dot c); [|discriminate].
    intros H. injection H as <-. now exists (String c s).
Qed.

Lemma rsplit_head_no_slash (s : string) :
  str_exists is_slash s = false -> str_exists is_slash (rsplit_head s) = false.
Proof.
  unfold rsplit_head. destruct (before_last_dot s) as [head|] eqn:H; [|trivial].
  destruct (before_last_dot_head _ _ H) as (rest & ->).
  rewrite str_exists_append. intros Hs. now apply orb_false_iff in Hs.
Qed.

(** X18: the names under which [extract_pdf_pages] and [compress_pdf]
    save their output.  When [outputName] is absent or empty the name is
    the fresh one.  Otherwise the name is refused with status 400 exactly
    when [sanitize_filename] refuses it, and the name used ends in [.pdf],
    has no slash, and is the sanitized name itself when that ends in
    [.pdf] already. *)
Theorem output_names_end_in_pdf (outputName : option string) (fresh : string) :
  well_named outputName fresh (extract_output_name outputName fresh)
  /\ well_named outputName fresh (compress_output_name outputName fresh).
Proof.
  unfold well_named, given_name, extract_output_name,
    compress_output_name.
  destruct outputName as [given|]; [|split; reflexivity].
  destruct (given =? "")%string; [split; reflexivity|].
  destruct (sanitize_filename given) as [safe|e] eqn:E.
  - assert (Hsafe : str_exists is_slash safe = false).
    { unfold sanitize_filename in E.
      destruct (negb (safe_name (basename given))); [discriminate|].
      injection E as <-. apply basename_has_no_slash. }
    destruct (endswith ".pdf" safe) eqn:Hends; cbn [negb].
    + split; exists safe; auto.
    + split; exists safe; repeat split;
        try apply endswith_append; try (rewrite Hends; discriminate);
        rewrite str_exists_append.
      * now rewrite Hsafe.
      * now rewrite rsplit_head_no_slash.
  - assert (e = ValueError) as ->.
    { unfold sanitize_filename in E.
      destruct (negb (safe_name (basename given))); [|discriminate].
      now injection E as <-. }
    split; split; reflexivity.
Qed.

(* ================================================================== *)
(** ** The threshold against the scores of [calculate_confidence] *)
(* ================================================================== *)

(** Below a positive float, below every larger one of the same exponent. *)
Lemma SFleb_finite_mono (x : spec_float) (m1 m2 : positive) (e0 : Z) :
  (m1 <= m2)%positive ->
  SFleb x (S754_finite false m1 e0) = true ->
  SFleb x (S754_finite false m2 e0) = true.
Proof.
  intros Hm. unfold SFleb, SFcompare.
  destruct x as [s|s| |s m e]; try (intros H; exact H).
  destruct s; [trivial|].
  destruct (e ?= e0)%Z; try (intros H; exact H).
  change (PosDef.Pos.compare_cont Eq m m1) with (m ?= m1)%positive.
  change (PosDef.Pos.compare_cont Eq m m2) with (m ?= m2)%positive.
  destruct (Pos.compare_spec m m1), (Pos.compare_spec m m2);
    try reflexivity; try discriminate; lia.
Qed.

Lemma leb_widen (t c1 c2 : float) (m1 m2 : positive) (e0 : Z) :
  Prim2SF c1 = S754_finite false m1 e0 ->
  Prim2SF c2 = S754_finite false m2 e0 ->
  (m1 <= m2)%positive ->
  (t <=? c1)%float = true -> (t <=? c2)%float = true.
Proof.
  intros H1 H2 Hm. rewrite !leb_spec, H1, H2. now apply SFleb_finite_mono.
Qed.

(** A threshold at or below 0.7 is at or below every score. *)
Lemma threshold_below_scores (t : float) (category text : string) :
  (t <=? 0.7)%float = true ->
  (t <=? calculate_confidence category text)%float = true.
Proof.
  intros H. unfold calculate_confidence.
  repeat match goal with
         | |- context [if ?b then _ else _] => destruct b
         end;
    (refine (leb_widen t _ _ _ _ _ _ _ _ H);
     [vm_compute; reflexivity | vm_compute; reflexivity
      | vm_compute; discriminate]).
Qed.

(** A threshold at or below a score is at or below 0.95. *)
Lemma scores_below_top (t : float) (category text : string) :
  (t <=? calculate_confidence category text)%float = true ->
  (t <=? 0.95)%float = true.
Proof.
  unfold calculate_confidence.
  repeat match goal with
         | |- context [if ?b then _ else _] => destruct b
         end;
    intros H;
    (refine (leb_widen t _ _ _ _ _ _ _ _ H);
     [vm_compute; reflexivity | vm_compute; reflexivity
      | vm_compute; discriminate]).
Qed.

Lemma fold_left_same {A B : Type} (f g : A -> B -> A) (l : list B) :
  (forall a b, f a b = g a b) ->
  forall a, fold_left f l a = fold_left g l a.
Proof.
  intros H. induction l as [|b l IH]; intros a; [reflexivity|].
  cbn [fold_left]. now rewrite H, IH.
Qed.

(** Two thresholds at or below 0.7 give the same findings, with the same
    identifiers. *)
Lemma detect_from_low_thresholds finditer u text bbox page_num t1 t2
    categories drawn :
  (t1 <=? 0.7)%float = true -> (t2 <=? 0.7)%float = true ->
  detect_in_text_from finditer u text bbox page_num t1 categories drawn
  = detect_in_text_from finditer u text bbox page_num t2 categories drawn.
Proof.
  intros H1 H2. unfold detect_in_text_from.
  assert (Hcat : forall st,
             fold_left (category_step finditer u text bbox page_num t1)
               categories st
             = fold_left (category_step finditer u text bbox page_num t2)
                 categories st).
  { apply fold_left_same. intros st c. unfold category_step.
    destruct (dict_get PATTERNS c); [|reflexivity].
    apply fold_left_same. intros [fs k] m. rewrite !match_step_eq.
    unfold pattern_kept. now rewrite !threshold_below_scores. }
  rewrite Hcat.
  destruct (existsb (String.eqb "NAME") categories); [|reflexivity].
  apply fold_left_same. intros [fs k] ind. rewrite !name_step_eq.
  unfold name_kept. now rewrite !threshold_below_scores.
Qed.

Lemma detect_pii_low_thresholds finditer u categories t1 t2 pdf_doc drawn :
  (t1 <=? 0.7)%float = true -> (t2 <=? 0.7)%float = true ->
  detect_pii_from finditer u categories t1 pdf_doc drawn
  = detect_pii_from finditer u categories t2 pdf_doc drawn.
Proof.
  intros H1 H2. unfold detect_pii_from.
  apply fold_left_same. intros st [page_num text_instances].
  unfold page_step. apply fold_left_same. intros st1 block.
  unfold block_step. destruct (block_type block) as [[| |]|]; try reflexivity.
  apply fold_left_same. intros st2 line. unfold line_step.
  apply fold_left_same. intros [fs k] span. unfold span_step.
  now rewrite (detect_from_low_thresholds _ _ _ _ _ t1 t2).
Qed.

(** X19: a threshold at or below the default 0.7 filters nothing.  No
    score of [calculate_confidence] is below 0.7, so for such a threshold
    the test [confidence >= confidence_threshold] never fails:
    [detect_in_text] and [detect_pii] give what they give without a
    threshold, identifiers and statistics included. *)
Theorem threshold_up_to_default_filters_nothing :
  forall finditer uuid_hex8 categories threshold,
    (threshold <=? 0.7)%float = true ->
    (forall text bbox page_num drawn,
        detect_in_text finditer uuid_hex8 text bbox page_num threshold
          categories drawn
        = detect_in_text finditer uuid_hex8 text bbox page_num neg_infinity
            categories drawn)
    /\ (forall pdf_doc drawn,
           detect_pii_response finditer uuid_hex8 categories threshold
             pdf_doc drawn
           = detect_pii_response finditer uuid_hex8 categories neg_infinity
               pdf_doc drawn).
Proof.
  intros finditer u categories t Ht. split.
  - intros text bbox page_num drawn. unfold detect_in_text.
    now rewrite (detect_from_low_thresholds _ _ _ _ _ t neg_infinity).
  - intros pdf_doc drawn. unfold detect_pii_response, detect_pii_findings.
    now rewrite (detect_pii_low_thresholds _ _ _ t neg_infinity).
Qed.

(** X19 at the threshold 0.5, on a span with a social security number. *)
Lemma threshold_up_to_default_witness :
  (0.5 <=? 0.7)%float = true
  /\ detect_in_text Re.finditer counting_hex8 "SSN 123-45-6789" span_box 1
       0.5%float ["SSN"] 0%nat
     = detect_in_text Re.finditer counting_hex8 "SSN 123-45-6789" span_box 1
         neg_infinity ["SSN"] 0%nat.
Proof.
  split; [reflexivity|].
  exact (proj1 (threshold_up_to_default_filters_nothing
                  Re.finditer counting_hex8 ["SSN"] 0.5%float eq_refl)
           "SSN 123-45-6789" span_box 1%Z 0%nat).
Defined.

(** X20: a threshold that is not at or below 0.95, the highest score of
    [calculate_confidence], finds nothing: whatever the text, the
    categories and the document, [detect_in_text] and [detect_pii] return
    no finding.  This holds for every threshold above 0.95, and for a
    threshold that is not a number. *)
Theorem threshold_above_scores_finds_nothing :
  forall finditer uuid_hex8 categories threshold,
    (threshold <=? 0.95)%float = false ->
    (forall text bbox page_num drawn,
        detect_in_text finditer uuid_hex8 text bbox page_num threshold
          categories drawn = [])
    /\ (forall pdf_doc drawn,
           detect_pii_findings finditer uuid_hex8 categories threshold
             pdf_doc drawn = []).
Proof.
  intros finditer u categories t Ht.
  assert (Hnone : forall l : list Finding,
             Forall (fun f =>
                       f_confidence f
                       = calculate_confidence (f_category f) (f_text f)
                       /\ (t <=? f_confidence f)%float = true) l ->
             l = []).
  { intros [|f l] H; [reflexivity|]. inversion H as [|? ? [Hc Hk] _]; subst.
    rewrite Hc in Hk. apply scores_below_top in Hk. congruence. }
  split.
  - intros text bbox page_num drawn. apply Hnone.
    eapply Forall_impl; [|apply detect_explained].
    intros f Hf. eapply explained_confidence. exact Hf.
  - intros pdf_doc drawn. apply Hnone. apply detect_pii_confidence.
Qed.

(** X20 at the threshold 0.96, on a span with a social security number,
    which scores 0.95. *)
Lemma threshold_above_scores_witness :
  (0.96 <=? 0.95)%float = false
  /\ detect_in_text Re.finditer counting_hex8 "SSN 123-45-6789" span_box 1
       0.96%float ["SSN"] 0%nat = []
  /\ detect_in_text Re.finditer counting_hex8 "SSN 123-45-6789" span_box 1
       0.95%float ["SSN"] 0%nat <> [].
Proof.
  split; [reflexivity|]. split.
  - exact (proj1 (threshold_above_scores_finds_nothing
                    Re.finditer counting_hex8 ["SSN"] 0.96%float eq_refl)
             "SSN 123-45-6789" span_box 1%Z 0%nat).
  - vm_compute. discriminate.
Defined.

(* ================================================================== *)
(** ** A wrong digit in a card number *)
(* ================================================================== *)

Lemma luhn_loop_shift (l : list Z) :
  forall i checksum k,
    luhn_loop l i (checksum + k) = luhn_loop l i checksum + k.
Proof.
  induction l as [|d l IH]; intros i checksum k; cbn [luhn_loop];
    [reflexivity|].
  rewrite <- IH. f_equal. lia.
Qed.

(** Replacing one digit changes the checksum by the difference of the
    shares of the two digits. *)
Lemma luhn_loop_replace (la lb : list Z) (d d' : Z) :
  forall i checksum,
    luhn_loop (la ++ d :: lb) i checksum
    - luhn_loop (la ++ d' :: lb) i checksum
    = loop_term (i + List.length la) d - loop_term (i + List.length la) d'.
Proof.
  induction la as [|a la IH]; intros i checksum.
  - cbn [app List.length luhn_loop]. rewrite Nat.add_0_r.
    fold (loop_term i d). fold (loop_term i d').
    rewrite !luhn_loop_shift. lia.
  - cbn [app List.length luhn_loop]. rewrite IH. f_equal; f_equal; lia.
Qed.

(** The shares of two different digits differ by less than ten. *)
Lemma loop_term_apart (i : nat) (d d' : Z) :
  0 <= d <= 9 -> 0 <= d' <= 9 -> d <> d' ->
  (loop_term i d - loop_term i d') mod 10 <> 0.
Proof.
  intros Hd Hd' Hne. unfold loop_term.
  assert (Hsmall : forall x, -10 < x < 10 -> x <> 0 -> x mod 10 <> 0).
  { intros x Hx Hx0 Hmod. apply Z.mod_divide in Hmod; [|lia].
    destruct Hmod as [q Hq]. lia. }
  destruct (i mod 2 =? 1)%nat; cbv zeta.
  - destruct (Z.gtb_spec (d * 2) 9), (Z.gtb_spec (d' * 2) 9);
      apply Hsmall; lia.
  - apply Hsmall; lia.
Qed.

Lemma mapM_app_Ok {A B : Type} (f : A -> result B) (l1 l2 : list A) :
  forall r,
    mapM f (l1 ++ l2) = Ok r ->
    exists r1 r2, mapM f l1 = Ok r1 /\ mapM f l2 = Ok r2 /\ r = r1 ++ r2.
Proof.
  induction l1 as [|x l1 IH]; intros r H.
  - exists [], r. auto.
  - cbn [app mapM] in *. unfold bind in *.
    destruct (f x) as [y|e]; [|discriminate].
    destruct (mapM f (l1 ++ l2)) as [r'|e] eqn:E; [|discriminate].
    injection H as <-. destruct (IH r' eq_refl) as (r1 & r2 & -> & H2 & ->).
    exists (y :: r1), r2. auto.
Qed.

Lemma mapM_app {A B : Type} (f : A -> result B) (l1 l2 : list A) r1 r2 :
  mapM f l1 = Ok r1 -> mapM f l2 = Ok r2 ->
  mapM f (l1 ++ l2) = Ok (r1 ++ r2).
Proof.
  revert r1. induction l1 as [|x l1 IH]; intros r1 H1 H2.
  - cbn in H1. injection H1 as <-. exact H2.
  - cbn [app mapM] in *. unfold bind in *.
    destruct (f x) as [y|e]; [|discriminate].
    destruct (mapM f l1) as [r'|e]; [|discriminate].
    injection H1 as <-. now rewrite (IH r' eq_refl H2).
Qed.

Lemma chars_append (a b : string) : chars (a ++ b) = chars a ++ chars b.
Proof.
  unfold chars. induction a as [|c a IH]; [reflexivity|].
  cbn. now rewrite IH.
Qed.

Lemma int_of_char_decimal (c : ascii) :
  isdecimal c = true ->
  exists d, int_of_char c = Ok d /\ 0 <= d <= 9 /\ d = Z.of_N (ord c) - 48.
Proof.
  intros H. unfold int_of_char. rewrite H. eexists. split; [reflexivity|].
  split; [|reflexivity].
  unfold isdecimal, between in H. apply andb_true_iff in H.
  destruct H as [H1 H2]. apply N.leb_le in H1, H2. lia.
Qed.

(** X21: [luhn_check] detects a wrong digit.  When a string passes the
    check, the string with one of its decimal digits replaced by another
    decimal digit does not, whatever stands around the digit (separators
    included). *)
Theorem luhn_check_detects_wrong_digit (before after : string) (c c' : ascii) :
  isdecimal c = true -> isdecimal c' = true -> (c =? c')%char = false ->
  luhn_check (before ++ String c after) = true ->
  luhn_check (before ++ String c' after) = false.
Proof.
  intros Hc Hc' Hne.
  destruct (int_of_char_decimal c Hc) as (d & Hd & Hd9 & Hdv).
  destruct (int_of_char_decimal c' Hc') as (d' & Hd' & Hd9' & Hdv').
  assert (Hdiff : d <> d').
  { intros Heq. apply Ascii.eqb_neq in Hne. apply Hne.
    rewrite <- (ascii_N_embedding c), <- (ascii_N_embedding c').
    f_equal. unfold ord in *. lia. }
  unfold luhn_check, luhn_check_body, luhn_digits.
  rewrite !chars_append. unfold chars at 2 4. cbn [list_ascii_of_string].
  fold (chars after). rewrite !filter_app. cbn [filter].
  rewrite (isdecimal_isdigit c Hc), (isdecimal_isdigit c' Hc').
  set (fb := filter isdigit (chars before)).
  set (fa := filter isdigit (chars after)).
  destruct (mapM int_of_char (fb ++ c :: fa)) as [ds|e] eqn:E;
    [|discriminate].
  apply mapM_app_Ok in E. destruct E as (rb & r2 & Hb & H2 & ->).
  cbn [mapM] in H2. rewrite Hd in H2. cbn [bind] in H2.
  destruct (mapM int_of_char fa) as [ra|e] eqn:Ha; [|discriminate].
  cbn [bind] in H2. injection H2 as <-.
  assert (E' : mapM int_of_char (fb ++ c' :: fa) = Ok (rb ++ d' :: ra)).
  { apply mapM_app; [assumption|]. cbn [mapM]. now rewrite Hd', Ha. }
  rewrite E'. cbn [bind].
  replace (List.length (rb ++ d' :: ra)) with (List.length (rb ++ d :: ra))
    by (rewrite !length_app; reflexivity).
  destruct ((List.length (rb ++ d :: ra) <? 13)%nat
            || (19 <? List.length (rb ++ d :: ra))%nat); [discriminate|].
  rewrite !rev_app_distr. cbn [rev]. rewrite <- !app_assoc. cbn [app].
  intros H. apply Z.eqb_eq in H. apply Z.eqb_neq. intros H'.
  pose proof (luhn_loop_replace (rev ra) (rev rb) d d' 0 0) as Hrep.
  apply (loop_term_apart (0 + List.length (rev ra)) d d' Hd9 Hd9' Hdiff).
  rewrite <- Hrep. rewrite Zminus_mod, H, H'. reflexivity.
Qed.

(** X21 on the last digit of a card number, and on a digit in the middle
    of a number written in groups. *)
Lemma luhn_check_detects_wrong_digit_witness :
  luhn_check "4532015112830366" = true
  /\ luhn_check "4532015112830367" = false
  /\ luhn_check "4532 0151 1283 0366" = true
  /\ luhn_check "4532 0151 1283 8366" = false.
Proof.
  split; [reflexivity|]. split.
  - apply (luhn_check_detects_wrong_digit "453201511283036" "" "6" "7");
      reflexivity.
  - split; [reflexivity|].
    apply (luhn_check_detects_wrong_digit "4532 0151 1283 " "366" "0" "8");
      reflexivity.
Defined.

(* ================================================================== *)
(** ** The split handlers on small documents *)
(* ================================================================== *)

(** Ten pages cut every three pages: the directory and the extension of
    the output name are dropped, and the last file holds one page. *)
Example split_by_pattern_ten_pages :
  split_by_pattern " 3" (Some "dir/out.pdf") "fresh" 10
  = Response
      [ mkOutputFile "out-1.pdf" (NewDocument [(0, 2)]);
        mkOutputFile "out-2.pdf" (NewDocument [(3, 5)]);
        mkOutputFile "out-3.pdf" (NewDocument [(6, 8)]);
        mkOutputFile "out-4.pdf" (NewDocument [(9, 9)]) ]
  /\ split_by_pattern "12" None "fresh" 10
     = Response [ mkOutputFile "fresh.pdf" WholeDocument ]
  /\ split_by_pattern "0" None "fresh" 10 = HTTPException 400
  /\ split_by_pattern "3" (Some "a b") "fresh" 10 = HTTPException 400.
Proof. repeat split; vm_compute; reflexivity. Qed.

(** Ranges on a document of eight pages: the range 7-9 reaches beyond the
    last page and gives no file; a request of such ranges only succeeds
    with no file; a negative number or a page 0 is refused. *)
Example split_by_range_eight_pages :
  split_by_range "1-3, 5,7-9 , 2 - 2" None "f" 8
  = Response
      [ mkOutputFile "f-pages1-3.pdf" (NewDocument [(0, 2)]);
        mkOutputFile "f-page5.pdf" (NewDocument [(4, 4)]);
        mkOutputFile "f-page2.pdf" (NewDocument [(1, 1)]) ]
  /\ split_by_range "9,10-12" None "f" 8 = Response []
  /\ split_by_range "-3" None "f" 8 = HTTPException 400
  /\ split_by_range "0" None "f" 8 = HTTPException 400
  /\ split_by_range "3-1" None "f" 8 = HTTPException 400
  /\ split_by_range "" None "f" 8 = HTTPException 400.
Proof. repeat split; vm_compute; reflexivity. Qed.

(** Pages taken from a document of six pages: page 3 is asked for twice
    and page 10 does not exist.  A range that cannot be held ends the
    request with status 500, unless an item before it is refused. *)
Example extract_pages_six_pages :
  extract_pages small_memory "5-7,1,3,10, 3" (Some "x") "f.pdf" 6
  = Response
      [ mkOutputFile "x.pdf"
          (NewDocument [(0, 0); (2, 2); (4, 4); (5, 5)]) ]
  /\ extract_pages small_memory "9" None "f.pdf" 6 = HTTPException 400
  /\ extract_pages small_memory "1,,2" None "f.pdf" 6 = HTTPException 400
  /\ extract_pages small_memory "1-100000000000000000000" None "f.pdf" 6
     = HTTPException 500
  /\ extract_pages small_memory "1-2000000" None "f.pdf" 6
     = HTTPException 500
  /\ extract_pages small_memory "1-100000000000000000000,x" None "f.pdf" 6
     = HTTPException 500
  /\ extract_pages small_memory "x,1-100000000000000000000" None "f.pdf" 6
     = HTTPException 400.
Proof. repeat split; vm_compute; reflexivity. Qed.

(** Pages of 400 bytes and a limit of 1 KB: four pages go into two files
    of two pages; pages of 2000 bytes are saved one by one, each beyond
    the limit. *)
Example split_by_size_four_pages :
  split_by_size (size_of_pages 400) 1 None "out" 4
  = Response
      [ mkOutputFile "out-1.pdf" (NewDocument [(0, 0); (1, 1)]);
        mkOutputFile "out-2.pdf" (NewDocument [(2, 2); (3, 3)]) ]
  /\ split_by_size (size_of_pages 2000) 1 None "out" 2
     = Response
         [ mkOutputFile "out-1.pdf" (NewDocument [(0, 0)]);
           mkOutputFile "out-2.pdf" (NewDocument [(1, 1)]) ]
  /\ split_by_size (size_of_pages 400) 0 None "out" 4 = HTTPException 400.
Proof. repeat split; vm_compute; reflexivity. Qed.

(** The output name of a compression: another extension is replaced. *)
Example compress_output_name_examples :
  compress_output_name (Some "a/b/report.docx") "f" = Response "report.pdf"
  /\ compress_output_name (Some "x y") "f" = HTTPException 400
  /\ compress_output_name (Some "") "f" = Response "f"
  /\ extract_output_name (Some "out") "f" = Response "out.pdf".
Proof. repeat split; vm_compute; reflexivity. Qed.
